(** * A shallow embedding of pa3.c (virtual memory simulator)

    The four entry points of pa3.c, [alloc_page], [free_page],
    [handle_page_fault] and [switch_process], are embedded as functions on
    an explicit machine state.  The globals of the C file ([processes],
    [current], [ptbr], [mapcounts]) are the fields of [state]; process
    objects live in a store indexed by address, and the ready queue is the
    doubly linked [list_head] structure threaded through them.  A process
    holds its table by value: every directory a table points to was
    obtained from malloc for that table alone (lines 96 and 263-265).

    What pa3.c takes from its headers and from libc is a parameter: the
    constants of vm.h ([vm_h]) and the contents of the blocks malloc
    returns ([libc]).  A NULL dereference or an index outside an array
    stops the run ([Stop]).

    The file has the program first, then the vocabulary of the statements,
    the lemmas about each function, the claims C1 to C10, and further
    properties X1 to X30 of the four functions and of their compositions. *)

From Stdlib Require Import ZArith Lia.
From stdpp Require Import base option list list_numbers.

Local Open Scope Z_scope.

(** ** Machine integers *)

(** [unsigned int] is 32 bits wide; [(unsigned)-1] is [UINT_MAX]. *)
Definition UINT_MOD : Z := 2 ^ 32.
Definition UINT_MAX : Z := UINT_MOD - 1.
Definition uint (z : Z) : Z := z mod UINT_MOD.

(** ** Outcomes

    A C statement that dereferences NULL or indexes outside an array has no
    defined result; the embedding stops there and says why.  [OutOfFuel] is
    not an error of the program: it marks a list walk that was cut off by
    the step budget given to [switch_process]. *)
Inductive stop := NullPointer | OutOfBounds | OutOfFuel.

Inductive result (A : Type) : Type :=
| Ok (a : A)
| Stop (e : stop).
Arguments Ok {A} a.
Arguments Stop {A} e.

#[global] Instance result_ret : MRet result := λ A a, Ok a.
#[global] Instance result_bind : MBind result := λ A B k m,
  match m with
  | Ok a => k a
  | Stop e => Stop e
  end.

(** [a[i]] on an array of known length. *)
Definition index {A} (a : list A) (i : Z) : result A :=
  if i <? 0 then Stop OutOfBounds
  else match a !! Z.to_nat i with
       | Some x => Ok x
       | None => Stop OutOfBounds
       end.

(** [for (int i = from; i < from + n; i++) body(i)] *)
Fixpoint for_loop {St} (n : nat) (from : Z) (body : Z → St → result St) (s : St)
  : result St :=
  match n with
  | O => Ok s
  | S n => s' ← body from s; for_loop n (from + 1) body s'
  end.

(** ** Data (vm.h, list_head.h) *)

(** Modelled from the spec: vm.h is not part of the sources.  The fields
    are those pa3.c reads and writes; the spec's PageTableEntry gives their
    types ([valid], [writable], [private] flags and a frame number). *)
Record pte := Pte {
  valid : bool;
  writable : bool;
  pfn : Z;
  private : bool;
}.

(** [struct pte_directory { struct pte ptes[NR_PTES_PER_PAGE]; }] *)
Record pte_directory := PteDirectory { ptes : list pte }.

(** [struct pagetable { struct pte_directory *outer_ptes[NR_PTES_PER_PAGE]; }];
    [None] is the NULL pointer.  A directory is owned by the one table
    that points to it: pa3.c stores into [outer_ptes] only pointers it has
    just obtained from malloc. *)
Record pagetable := Pagetable { outer_ptes : list (option pte_directory) }.

(** The address of a [struct list_head]: the queue head [processes], or
    the [list] member of the process stored at address [p]. *)
Inductive node := Head | Member (p : nat).

#[global] Instance node_eq_dec : EqDecision node.
Proof. solve_decision. Defined.

Record list_head := ListHead { next : node; prev : node }.

(** [struct process { unsigned int pid; struct pagetable pagetable;
    struct list_head list; }] *)
Record process := Process {
  pid : Z;
  p_pagetable : pagetable;
  p_list : list_head;
}.

(** The globals of pa3.c.  [memory] holds every process object, a pointer
    to a process is its position there.  [ptbr = Some p] stands for
    [&p->pagetable]; pa3.c assigns nothing else to [ptbr].  [mapcounts] is
    the array of [NR_PAGEFRAMES] counters: the loops of [alloc_page] over
    [i < NR_PAGEFRAMES] run over this list. *)
Record state := State {
  processes : list_head;
  memory : list process;
  current : nat;
  ptbr : option nat;
  mapcounts : list Z;
}.

(** Constants of vm.h, not part of the sources, taken as parameters. *)
Class vm_h := VmH {
  NR_PAGEFRAMES : Z;
  NR_PTES_PER_PAGE : Z;
  RW_READ : Z;
  RW_WRITE : Z;
}.

(** What malloc hands out: the contents of a fresh block are whatever the
    allocator left there. *)
Class libc := Libc {
  malloc_pte : pte;
  malloc_pte_directory : pte_directory;
  malloc_pagetable : pagetable;
  malloc_process : process;
}.

(** Assignments to one field of a struct. *)
Definition set_valid (b : bool) (e : pte) : pte :=
  Pte b (writable e) (pfn e) (private e).
Definition set_writable (b : bool) (e : pte) : pte :=
  Pte (valid e) b (pfn e) (private e).
Definition set_pfn (f : Z) (e : pte) : pte :=
  Pte (valid e) (writable e) f (private e).
Definition set_private (b : bool) (e : pte) : pte :=
  Pte (valid e) (writable e) (pfn e) b.

Definition set_pagetable (pt : pagetable) (p : process) : process :=
  Process (pid p) pt (p_list p).
Definition set_list (l : list_head) (p : process) : process :=
  Process (pid p) (p_pagetable p) l.
Definition set_next (n : node) (l : list_head) : list_head :=
  ListHead n (prev l).
Definition set_prev (n : node) (l : list_head) : list_head :=
  ListHead (next l) n.

Definition with_processes (l : list_head) (s : state) : state :=
  State l (memory s) (current s) (ptbr s) (mapcounts s).
Definition with_memory (m : list process) (s : state) : state :=
  State (processes s) m (current s) (ptbr s) (mapcounts s).
Definition with_current (c : nat) (s : state) : state :=
  State (processes s) (memory s) c (ptbr s) (mapcounts s).
Definition with_ptbr (p : option nat) (s : state) : state :=
  State (processes s) (memory s) (current s) p (mapcounts s).
Definition with_mapcounts (m : list Z) (s : state) : state :=
  State (processes s) (memory s) (current s) (ptbr s) m.

(** ** Memory accesses *)

(** [*p] for a process pointer. *)
Definition load_process (p : nat) (s : state) : result process :=
  match memory s !! p with
  | Some pr => Ok pr
  | None => Stop OutOfBounds
  end.

(** The process whose table [ptbr] points into. *)
Definition ptbr_owner (s : state) : result nat :=
  match ptbr s with
  | None => Stop NullPointer
  | Some p => _ ← load_process p s; Ok p
  end.

(** [*ptbr] *)
Definition load_ptbr (s : state) : result pagetable :=
  p ← ptbr_owner s; pr ← load_process p s; Ok (p_pagetable pr).

(** [*ptbr = pt] *)
Definition store_ptbr (pt : pagetable) (s : state) : result state :=
  p ← ptbr_owner s;
  Ok (with_memory (alter (set_pagetable pt) p (memory s)) s).

(** [ptbr->outer_ptes[i]] *)
Definition load_outer (i : Z) (s : state) : result (option pte_directory) :=
  pt ← load_ptbr s; index (outer_ptes pt) i.

(** [ptbr->outer_ptes[i] = d] *)
Definition store_outer (i : Z) (d : option pte_directory) (s : state)
  : result state :=
  pt ← load_ptbr s;
  _ ← index (outer_ptes pt) i;
  store_ptbr (Pagetable (<[Z.to_nat i := d]> (outer_ptes pt))) s.

(** [ptbr->outer_ptes[i]->ptes[j]] *)
Definition load_pte (i j : Z) (s : state) : result pte :=
  o ← load_outer i s;
  match o with
  | None => Stop NullPointer
  | Some d => index (ptes d) j
  end.

(** [ptbr->outer_ptes[i]->ptes[j] = e] *)
Definition store_pte (i j : Z) (e : pte) (s : state) : result state :=
  o ← load_outer i s;
  match o with
  | None => Stop NullPointer
  | Some d =>
      _ ← index (ptes d) j;
      store_outer i (Some (PteDirectory (<[Z.to_nat j := e]> (ptes d)))) s
  end.

(** [mapcounts[f]] *)
Definition load_mapcount (f : Z) (s : state) : result Z :=
  index (mapcounts s) f.

(** [mapcounts[f] = c] *)
Definition store_mapcount (f : Z) (c : Z) (s : state) : result state :=
  _ ← index (mapcounts s) f;
  Ok (with_mapcounts (<[Z.to_nat f := c]> (mapcounts s)) s).

(** ** alloc_page (pa3.c, lines 63-111) *)

Section Program.
Context {VM : vm_h} {LC : libc}.

(** Lines 71-76: [store[i] = 1] where [mapcounts[i] > 0]. *)
Definition marking (counts : list Z) : list Z :=
  (λ c, if 0 <? c then 1 else 0) <$> counts.

(** Lines 67, 79-81: [cnt] starts at 1 and counts the marked frames. *)
Definition count_marked (store : list Z) : Z :=
  foldl (λ cnt b, if b =? 1 then cnt + 1 else cnt) 1 store.

(** Lines 85-90: the first [i] with [store[i] == 0]. *)
Fixpoint first_unmarked (store : list Z) (i : Z) : option Z :=
  match store with
  | [] => None
  | b :: store => if b =? 0 then Some i else first_unmarked store (i + 1)
  end.

(** Lines 66, 85-90: [pfn] keeps its initial 0 when the loop never breaks. *)
Definition search_pfn (store : list Z) : Z :=
  default 0 (first_unmarked store 0).

(** Lines 94: the test selecting the directory of [vpn]. *)
Definition in_directory (vpn i : Z) : bool :=
  (i * NR_PTES_PER_PAGE <=? vpn) && (vpn <? (i + 1) * NR_PTES_PER_PAGE).

(** Lines 100-104. *)
Definition apply_rw (rw : Z) (e : pte) : pte :=
  if rw =? RW_READ then set_writable false e
  else if rw =? Z.lor RW_WRITE RW_READ then set_writable true e
  else e.

(** Lines 95-106, the body of the [if] at line 94. *)
Definition alloc_map (i pos rw f : Z) (s : state) : result state :=
  o ← load_outer i s;
  s ← match o with
      | None => store_outer i (Some malloc_pte_directory) s
      | Some _ => Ok s
      end;
  e ← load_pte i pos s;
  s ← store_pte i pos (set_pfn f (apply_rw rw (set_valid true e))) s;
  c ← load_mapcount f s;
  store_mapcount f (uint (c + 1)) s.

Definition alloc_page (vpn rw : Z) (s : state) : result (Z * state) :=
  let pos := vpn mod NR_PTES_PER_PAGE in
  cur ← load_process (current s) s;
  s ← store_ptbr (p_pagetable cur) s;
  let store := marking (mapcounts s) in
  if count_marked store =? NR_PAGEFRAMES then Ok (UINT_MAX, s)
  else
    let f := search_pfn store in
    s ← for_loop (Z.to_nat NR_PTES_PER_PAGE) 0
          (λ i s, if in_directory vpn i then alloc_map i pos rw f s else Ok s)
          s;
    Ok (f, s).

(** ** free_page (pa3.c, lines 123-143) *)

(** Lines 132-140, the body of the [if] at line 131.  [new_pte] points to
    a block that malloc returned and nothing wrote to. *)
Definition free_unmap (i pos : Z) (s : state) : result state :=
  e ← load_pte i pos s;
  let f := pfn e in
  c ← load_mapcount f s;
  s ← (if 1 <? c then store_mapcount f (c - 1) s
       else if c =? 1 then store_mapcount f 0 s
       else Ok s);
  store_pte i pos malloc_pte s.

Definition free_page (vpn : Z) (s : state) : result state :=
  let pos := vpn mod NR_PTES_PER_PAGE in
  for_loop (Z.to_nat NR_PTES_PER_PAGE) 0
    (λ i s, if in_directory vpn i then free_unmap i pos s else Ok s) s.

(** ** handle_page_fault (pa3.c, lines 162-206) *)

(** [alloc_page(vpn, rw); return true;] *)
Definition alloc_and_resolve (vpn rw : Z) (s : state) : result (bool * state) :=
  '(_, s) ← alloc_page vpn rw s; Ok (true, s).

Definition handle_page_fault (vpn rw : Z) (s : state) : result (bool * state) :=
  let pd_index := vpn / NR_PTES_PER_PAGE in
  let pos := vpn mod NR_PTES_PER_PAGE in
  match ptbr s with
  | None => alloc_and_resolve vpn rw s
  | Some _ =>
      pd ← load_outer pd_index s;
      match pd with
      | None => alloc_and_resolve vpn rw s
      | Some d =>
          e ← index (ptes d) pos;
          if negb (valid e) then alloc_and_resolve vpn rw s
          else if (rw =? RW_WRITE) && negb (writable e) && private e then
            c ← load_mapcount (pfn e) s;
            if 1 <? c then
              s ← store_mapcount (pfn e) (c - 1) s;
              alloc_and_resolve vpn (Z.lor rw RW_READ) s
            else
              s ← store_pte pd_index pos (set_writable true e) s;
              e ← load_pte pd_index pos s;
              s ← store_pte pd_index pos (set_private false e) s;
              Ok (true, s)
          else Ok (false, s)
      end
  end.

(** ** The ready queue (list_head.h) *)

(** Modelled from the spec: list_head.h is not part of the sources; the
    spec names it the intrusive list the core consumes.  [list_add] and
    [list_for_each_entry] are the Linux list primitives: insertion right
    after the head, and a walk along [next] until the head comes back. *)
Definition load_list (n : node) (s : state) : result list_head :=
  match n with
  | Head => Ok (processes s)
  | Member p => pr ← load_process p s; Ok (p_list pr)
  end.

Definition store_list (n : node) (l : list_head) (s : state) : result state :=
  match n with
  | Head => Ok (with_processes l s)
  | Member p =>
      _ ← load_process p s;
      Ok (with_memory (alter (set_list l) p (memory s)) s)
  end.

(** [next->prev = new; new->next = next; new->prev = prev; prev->next = new;] *)
Definition __list_add (new prv nxt : node) (s : state) : result state :=
  l ← load_list nxt s; s ← store_list nxt (set_prev new l) s;
  l ← load_list new s; s ← store_list new (set_next nxt l) s;
  l ← load_list new s; s ← store_list new (set_prev prv l) s;
  l ← load_list prv s; store_list prv (set_next new l) s.

Definition list_add (new head : node) (s : state) : result state :=
  h ← load_list head s; __list_add new head (next h) s.

(** The loop of lines 232-239 up to its [return]: the process the walk
    stops at, or [None] when it comes back to the head. *)
Fixpoint list_for_each_entry (fuel : nat) (wanted : Z) (pos : node) (s : state)
  : result (option nat) :=
  match pos with
  | Head => Ok None
  | Member p =>
      match fuel with
      | O => Stop OutOfFuel
      | S fuel =>
          pr ← load_process p s;
          if pid pr =? wanted then Ok (Some p)
          else list_for_each_entry fuel wanted (next (p_list pr)) s
      end
  end.

(** ** switch_process (pa3.c, lines 227-275) *)

(** Lines 248-255, for one entry. *)
Definition fork_share_pte (i j : Z) (s : state) : result state :=
  e ← load_pte i j s;
  if valid e then
    c ← load_mapcount (pfn e) s;
    s ← store_mapcount (pfn e) (uint (c + 1)) s;
    if writable e then
      s ← store_pte i j (set_writable false e) s;
      e ← load_pte i j s;
      store_pte i j (set_private true e) s
    else Ok s
  else Ok s.

(** Lines 245-258. *)
Definition fork_share (s : state) : result state :=
  for_loop (Z.to_nat NR_PTES_PER_PAGE) 0
    (λ i s,
       o ← load_outer i s;
       match o with
       | Some _ =>
           for_loop (Z.to_nat NR_PTES_PER_PAGE) 0 (fork_share_pte i) s
       | None => Ok s
       end) s.

(** Lines 243, 261-267: the child's table.  The slots the loop does not
    assign keep what malloc left in [new_pagetable]. *)
Definition fork_copy (s : state) : result pagetable :=
  for_loop (Z.to_nat NR_PTES_PER_PAGE) 0
    (λ i new_pagetable,
       o ← load_outer i s;
       match o with
       | Some d =>
           _ ← index (outer_ptes new_pagetable) i;
           Ok (Pagetable (<[Z.to_nat i := Some d]> (outer_ptes new_pagetable)))
       | None => Ok new_pagetable
       end) malloc_pagetable.

(** Lines 242-274. *)
Definition fork (new_pid : Z) (s : state) : result state :=
  s ← fork_share s;
  new_pagetable ← fork_copy s;
  let new_process := length (memory s) in
  let s := with_memory
             (memory s ++ [Process new_pid new_pagetable (p_list malloc_process)])
             s in
  s ← list_add (Member (current s)) Head s;
  let s := with_current new_process s in
  Ok (with_ptbr (Some (current s)) s).

Definition switch_process (fuel : nat) (wanted : Z) (s : state) : result state :=
  found ← list_for_each_entry fuel wanted (next (processes s)) s;
  match found with
  | Some p =>
      s ← list_add (Member (current s)) Head s;
      let s := with_current p s in
      Ok (with_ptbr (Some p) s)
  | None => fork wanted s
  end.

(** ** The driver *)

(** The calls the harness makes; a switch carries the step budget of its
    list walk. *)
Inductive op :=
| Alloc (vpn rw : Z)
| Free (vpn : Z)
| Fault (vpn rw : Z)
| Switch (fuel : nat) (wanted : Z).

Definition exec (o : op) (s : state) : result state :=
  match o with
  | Alloc vpn rw => '(_, s) ← alloc_page vpn rw s; Ok s
  | Free vpn => free_page vpn s
  | Fault vpn rw => '(_, s) ← handle_page_fault vpn rw s; Ok s
  | Switch fuel wanted => switch_process fuel wanted s
  end.

Fixpoint run (ops : list op) (s : state) : result state :=
  match ops with
  | [] => Ok s
  | o :: ops => s ← exec o s; run ops s
  end.

(** ** The state the harness starts from *)

Definition empty_pte : pte := Pte false false 0 false.

(** Modelled from the spec: the harness that defines the globals is not
    part of the sources.  One process, no directory, every frame free, an
    empty ready queue, and [ptbr] on the table of [current]. *)
Definition init_state : state :=
  State (ListHead Head Head)
        [Process 0
           (Pagetable (replicate (Z.to_nat NR_PTES_PER_PAGE) None))
           (ListHead (Member 0) (Member 0))]
        0%nat (Some 0%nat)
        (replicate (Z.to_nat NR_PAGEFRAMES) 0).

(** The states the driver can bring about with calls that [allowed]
    admits. *)
Inductive reachable (allowed : op → state → state → Prop) : state → Prop :=
| reachable_init : reachable allowed init_state
| reachable_step o s s' :
    reachable allowed s → allowed o s s' → exec o s = Ok s' →
    reachable allowed s'.

End Program.

(** ** Assumptions on the environment *)

(** vm.h: positive sizes that fit an [int], and an access-right encoding
    with a read flag and an independent write flag. *)
Class vm_h_ok (VM : vm_h) : Prop := {
  frames_range : 0 < NR_PAGEFRAMES < 2 ^ 31;
  ptes_range : 0 < NR_PTES_PER_PAGE;
  vpn_range : NR_PTES_PER_PAGE * NR_PTES_PER_PAGE < 2 ^ 31;
  rw_read_set : RW_READ ≠ 0;
  rw_write_set : RW_WRITE ≠ 0;
  rw_independent : Z.land RW_READ RW_WRITE = 0;
}.

Section Shape.
Context {VM : vm_h}.

(** A directory has [NR_PTES_PER_PAGE] entries, and its valid entries
    name frames that exist. *)
Definition directory_ok (d : pte_directory) : Prop :=
  length (ptes d) = Z.to_nat NR_PTES_PER_PAGE ∧
  Forall (λ e, valid e = true → 0 ≤ pfn e < NR_PAGEFRAMES) (ptes d).

Definition slot_ok (o : option pte_directory) : Prop :=
  match o with
  | Some d => directory_ok d
  | None => True
  end.

Definition pagetable_ok (pt : pagetable) : Prop :=
  length (outer_ptes pt) = Z.to_nat NR_PTES_PER_PAGE ∧
  Forall slot_ok (outer_ptes pt).

(** A state of the running program: the arrays have their declared sizes,
    the counters are [unsigned int], [current] points to a process and
    [ptbr] to its table. *)
Definition well_formed (s : state) : Prop :=
  length (mapcounts s) = Z.to_nat NR_PAGEFRAMES ∧
  Forall (λ c, 0 ≤ c < UINT_MOD) (mapcounts s) ∧
  Forall (λ pr, pagetable_ok (p_pagetable pr)) (memory s) ∧
  (current s < length (memory s))%nat ∧
  ptbr s = Some (current s).

#[global] Instance directory_ok_dec d : Decision (directory_ok d).
Proof. unfold directory_ok. apply _. Defined.

#[global] Instance slot_ok_dec o : Decision (slot_ok o).
Proof. destruct o; simpl; apply _. Defined.

#[global] Instance pagetable_ok_dec pt : Decision (pagetable_ok pt).
Proof. unfold pagetable_ok. apply _. Defined.

#[global] Instance well_formed_dec s : Decision (well_formed s).
Proof. unfold well_formed. apply _. Defined.

(** The translation of [vpn] in a table: directory [vpn / NR_PTES_PER_PAGE],
    slot [vpn % NR_PTES_PER_PAGE]. *)
Definition pte_at (pt : pagetable) (vpn : Z) : option pte :=
  if vpn <? 0 then None
  else match outer_ptes pt !! Z.to_nat (vpn / NR_PTES_PER_PAGE) with
       | Some (Some d) => ptes d !! Z.to_nat (vpn mod NR_PTES_PER_PAGE)
       | _ => None
       end.

(** The entry of process [p] for [vpn]. *)
Definition pte_of (p : nat) (vpn : Z) (s : state) : option pte :=
  pr ← memory s !! p; pte_at (p_pagetable pr) vpn.

(** [mapcounts[f]], for a frame number that is in the array. *)
Definition mapcount (f : Z) (s : state) : option Z :=
  if f <? 0 then None else mapcounts s !! Z.to_nat f.

(** malloc returns blocks of the size asked for. *)
Definition libc_sized (LC : libc) : Prop :=
  length (ptes malloc_pte_directory) = Z.to_nat NR_PTES_PER_PAGE ∧
  length (outer_ptes malloc_pagetable) = Z.to_nat NR_PTES_PER_PAGE.

(** The blocks malloc returns hold no entry that reads as valid or as
    private and no directory pointer, as zero-filled memory does. *)
Definition libc_cleared (LC : libc) : Prop :=
  valid malloc_pte = false ∧ private malloc_pte = false ∧
  Forall (λ e, valid e = false ∧ private e = false) (ptes malloc_pte_directory) ∧
  Forall (λ o, o = None) (outer_ptes malloc_pagetable).

End Shape.

(** ** Vocabulary of the lemmas and the claims *)

Section Vocabulary.
Context {VM : vm_h} {LC : libc}.

(** The process [ptbr] points into, with its table. *)
Definition focus (s : state) : option (nat * pagetable) :=
  c ← ptbr s; pr ← memory s !! c; Some (c, p_pagetable pr).

(** The state in which process [c] has table [pt]. *)
Definition put_table (c : nat) (pt : pagetable) (s : state) : state :=
  with_memory (alter (set_pagetable pt) c (memory s)) s.

(** The table in which directory [i] is [d]. *)
Definition put_directory (i : Z) (d : pte_directory) (pt : pagetable) : pagetable :=
  Pagetable (<[Z.to_nat i := Some d]> (outer_ptes pt)).

(** The directory in which slot [j] is [e]. *)
Definition put_pte (j : Z) (e : pte) (d : pte_directory) : pte_directory :=
  PteDirectory (<[Z.to_nat j := e]> (ptes d)).

(** The number of frames with a positive count. *)
Definition frames_in_use (counts : list Z) : nat :=
  length (filter (λ c, 0 < c) counts).

(** The entry that lines 99-105 leave in the slot that held [e]. *)
Definition installed (rw f : Z) (e : pte) : pte :=
  set_pfn f (apply_rw rw (set_valid true e)).

(** The state after the body of the loop of [alloc_page] has run for
    [vpn]: the slot is rewritten in directory [d] and frame [f] gains a
    reference. *)
Definition mapped (c : nat) (pt : pagetable) (d : pte_directory) (e : pte)
    (vpn rw f cnt : Z) (s : state) : state :=
  with_mapcounts (<[Z.to_nat f := uint (cnt + 1)]> (mapcounts s))
    (put_table c
       (put_directory (vpn / NR_PTES_PER_PAGE)
          (put_pte (vpn mod NR_PTES_PER_PAGE) (installed rw f e) d) pt) s).

(** What line 134-138 leave in [mapcounts[pfn]]. *)
Definition released (c : Z) : Z :=
  if 1 <? c then c - 1 else if c =? 1 then 0 else c.

(** The state after the body of the loop of [free_page] has run. *)
Definition unmapped (c : nat) (pt : pagetable) (d : pte_directory) (e : pte)
    (vpn cnt : Z) (s : state) : state :=
  put_table c
    (put_directory (vpn / NR_PTES_PER_PAGE)
       (put_pte (vpn mod NR_PTES_PER_PAGE) malloc_pte d) pt)
    (with_mapcounts (<[Z.to_nat (pfn e) := released cnt]> (mapcounts s)) s).

(** The entry after lines 197-198. *)
Definition promoted (e : pte) : pte := set_private false (set_writable true e).

(** Lines 251-254 on one entry: a valid writable entry becomes read-only
    and private. *)
Definition share_pte (e : pte) : pte :=
  if valid e then
    if writable e then set_private true (set_writable false e) else e
  else e.

Definition share_directory (d : pte_directory) : pte_directory :=
  PteDirectory (share_pte <$> ptes d).

Definition share_slot (o : option pte_directory) : option pte_directory :=
  share_directory <$> o.

Definition share_pagetable (pt : pagetable) : pagetable :=
  Pagetable (share_slot <$> outer_ptes pt).

(** Line 250 on one entry: one more reference to the frame of a valid
    entry. *)
Definition count_pte (counts : list Z) (e : pte) : list Z :=
  if valid e then alter (λ c, uint (c + 1)) (Z.to_nat (pfn e)) counts
  else counts.

Definition count_directory (counts : list Z) (d : pte_directory) : list Z :=
  foldl count_pte counts (ptes d).

Definition count_slot (counts : list Z) (o : option pte_directory) : list Z :=
  match o with
  | Some d => count_directory counts d
  | None => counts
  end.

Definition count_pagetable (counts : list Z) (pt : pagetable) : list Z :=
  foldl count_slot counts (outer_ptes pt).

(** Lines 264-265 on one slot: a copy of the parent's directory, or what
    malloc left in the slot. *)
Definition copy_slot (o m : option pte_directory) : option pte_directory :=
  match o with
  | Some d => Some d
  | None => m
  end.

(** The state [s] with table [pt] for the process [c] and counters [counts]. *)
Definition view (s : state) (c : nat) (pt : pagetable) (counts : list Z) : state :=
  with_mapcounts counts (put_table c pt s).

(** The page tables and the identifiers of all processes, by address. *)
Definition tables (s : state) : list pagetable := p_pagetable <$> memory s.
Definition pids (s : state) : list Z := pid <$> memory s.

(** [s'] differs from [s] in list links only. *)
Definition same_tables (s s' : state) : Prop :=
  tables s' = tables s ∧ pids s' = pids s ∧ mapcounts s' = mapcounts s ∧
  current s' = current s ∧ ptbr s' = ptbr s.

(** A list node that is the head or inside a process object. *)
Definition node_ok (n : node) (s : state) : Prop :=
  match n with
  | Head => True
  | Member p => (p < length (memory s))%nat
  end.

(** The child's table: the parent's directories after line 258, copied
    over what malloc returned. *)
Definition child_pagetable (pt : pagetable) : pagetable :=
  Pagetable (zip_with copy_slot (outer_ptes (share_pagetable pt))
               (outer_ptes malloc_pagetable)).

(** The valid entries that name frame [f]: in an entry, a directory, a
    table, and in the tables of all processes. *)
Definition pte_refs (f : Z) (e : pte) : nat :=
  if valid e && (pfn e =? f) then 1%nat else 0%nat.

Definition directory_refs (f : Z) (d : pte_directory) : nat :=
  sum_list_with (pte_refs f) (ptes d).

Definition slot_refs (f : Z) (o : option pte_directory) : nat :=
  match o with
  | Some d => directory_refs f d
  | None => 0%nat
  end.

Definition pagetable_refs (f : Z) (pt : pagetable) : nat :=
  sum_list_with (slot_refs f) (outer_ptes pt).

Definition references (f : Z) (s : state) : nat :=
  sum_list_with (pagetable_refs f) (tables s).

(** A property of every entry of a table, and of every table. *)
Definition slot_all (P : pte → Prop) (o : option pte_directory) : Prop :=
  match o with
  | Some d => Forall P (ptes d)
  | None => True
  end.

Definition pagetable_all (P : pte → Prop) (pt : pagetable) : Prop :=
  Forall (slot_all P) (outer_ptes pt).

Definition state_all (P : pte → Prop) (s : state) : Prop :=
  Forall (pagetable_all P) (tables s).

(** The frame of a valid entry exists. *)
Definition frame_ok (e : pte) : Prop :=
  valid e = true → 0 ≤ pfn e < NR_PAGEFRAMES.

(** [alloc_page] has mapped [vpn] to frame [r]: the slot held [e], in a
    directory that was there ([o = Some d]) or has just been allocated. *)
Definition maps_page (vpn rw r : Z) (s s' : state) : Prop :=
  ∃ pt o e cnt,
    focus s = Some (current s, pt) ∧
    outer_ptes pt !! Z.to_nat (vpn / NR_PTES_PER_PAGE) = Some o ∧
    ptes (default malloc_pte_directory o)
      !! Z.to_nat (vpn mod NR_PTES_PER_PAGE) = Some e ∧
    (pte_of (current s) vpn s = match o with Some _ => Some e | None => None end) ∧
    0 ≤ r < NR_PAGEFRAMES ∧ mapcounts s !! Z.to_nat r = Some cnt ∧
    s' = mapped (current s) pt (default malloc_pte_directory o) e vpn rw r cnt s.

(** [alloc_page] maps nothing: line 82 has returned, or no directory
    index matches [vpn]. *)
Definition alloc_idle (vpn : Z) (s : state) : Prop :=
  Z.of_nat (frames_in_use (mapcounts s)) = NR_PAGEFRAMES - 1 ∨
  NR_PTES_PER_PAGE ≤ vpn / NR_PTES_PER_PAGE.

(** [free_page] has cleared the entry [e] of [vpn]. *)
Definition unmaps_page (vpn : Z) (s s' : state) : Prop :=
  ∃ pt d e cnt,
    focus s = Some (current s, pt) ∧
    outer_ptes pt !! Z.to_nat (vpn / NR_PTES_PER_PAGE) = Some (Some d) ∧
    ptes d !! Z.to_nat (vpn mod NR_PTES_PER_PAGE) = Some e ∧
    pte_of (current s) vpn s = Some e ∧
    0 ≤ pfn e ∧ mapcounts s !! Z.to_nat (pfn e) = Some cnt ∧
    s' = unmapped (current s) pt d e vpn cnt s.

(** The handler has taken the duplication branch of lines 193-195: the
    count of the entry's frame has gone down, and [alloc_page] has run. *)
Definition duplicates_page (vpn rw : Z) (s s' : state) : Prop :=
  ∃ e cnt r,
    pte_of (current s) vpn s = Some e ∧
    valid e = true ∧ writable e = false ∧ private e = true ∧
    rw = RW_WRITE ∧ mapcount (pfn e) s = Some cnt ∧ 1 < cnt ∧
    alloc_page vpn (Z.lor RW_WRITE RW_READ)
      (with_mapcounts (<[Z.to_nat (pfn e) := cnt - 1]> (mapcounts s)) s)
    = Ok (r, s').

(** The handler has taken the branch of lines 197-198. *)
Definition promotes_page (vpn : Z) (s s' : state) : Prop :=
  ∃ pt d e,
    focus s = Some (current s, pt) ∧
    outer_ptes pt !! Z.to_nat (vpn / NR_PTES_PER_PAGE) = Some (Some d) ∧
    ptes d !! Z.to_nat (vpn mod NR_PTES_PER_PAGE) = Some e ∧
    valid e = true ∧
    s' = put_table (current s)
           (put_directory (vpn / NR_PTES_PER_PAGE)
              (put_pte (vpn mod NR_PTES_PER_PAGE) (promoted e) d) pt) s.

(** The handler has called [alloc_page] for a page that has no valid
    entry. *)
Definition populates_page (vpn rw : Z) (s s' : state) : Prop :=
  (∀ e, pte_of (current s) vpn s = Some e → valid e = false) ∧
  ∃ r, alloc_page vpn rw s = Ok (r, s').

(** The fork path has run in [s]. *)
Definition forks (s s' : state) : Prop :=
  ∃ pt,
    focus s = Some (current s, pt) ∧
    tables s' = <[current s := share_pagetable pt]> (tables s) ++ [child_pagetable pt] ∧
    mapcounts s' = count_pagetable (mapcounts s) pt ∧
    current s' = length (memory s) ∧
    ptbr s' = Some (length (memory s)).

(** The switch path has run in [s] and process [p] runs. *)
Definition switches (s s' : state) : Prop :=
  ∃ p s0,
    (p < length (memory s))%nat ∧ same_tables s s0 ∧
    s' = with_ptbr (Some p) (with_current p s0).

(** The page numbers of a call are [unsigned int]. *)
Definition op_typed (o : op) : Prop :=
  match o with
  | Alloc vpn _ | Free vpn | Fault vpn _ => 0 ≤ vpn
  | Switch _ _ => True
  end.

(** Each counter is the number of valid entries that name its frame. *)
Definition accounted (s : state) : Prop :=
  ∀ f, 0 ≤ f < NR_PAGEFRAMES → mapcount f s = Some (Z.of_nat (references f s)).

(** The number of references to each frame fits an [unsigned int]. *)
Definition fits (s : state) : Prop :=
  ∀ f, 0 ≤ f < NR_PAGEFRAMES → Z.of_nat (references f s) < UINT_MOD.

(** Calls that keep the account: [alloc_page] on a page that has no valid
    entry, [free_page] on a page that has one, no duplicating write fault
    while [alloc_page] gives up, and reference numbers that fit the
    counters. *)
Definition accounted_use (o : op) (s s' : state) : Prop :=
  op_typed o ∧ fits s' ∧
  match o with
  | Alloc vpn _ => ∀ e, pte_of (current s) vpn s = Some e → valid e = false
  | Free vpn => ∃ e, pte_of (current s) vpn s = Some e ∧ valid e = true
  | Fault vpn rw =>
      ∀ e cnt,
        pte_of (current s) vpn s = Some e →
        valid e = true → writable e = false → private e = true →
        rw = RW_WRITE → mapcount (pfn e) s = Some cnt → 1 < cnt →
        Z.of_nat (frames_in_use (mapcounts s)) ≠ NR_PAGEFRAMES - 1
  | Switch _ _ => True
  end.

(** A valid private entry is read-only, and an entry that is not valid is
    not private. *)
Definition cow_ok (e : pte) : Prop :=
  (valid e = true → private e = true → writable e = false) ∧
  (valid e = false → private e = false).

(** Calls that keep [cow_ok]: no [alloc_page] for read and write on a
    valid private entry, directly or by the duplication of lines 193-195. *)
Definition cow_use (o : op) (s s' : state) : Prop :=
  op_typed o ∧
  match o with
  | Alloc vpn rw =>
      ∀ e, pte_of (current s) vpn s = Some e →
           valid e = true → private e = true → rw ≠ Z.lor RW_WRITE RW_READ
  | Fault vpn rw =>
      ∀ e cnt,
        pte_of (current s) vpn s = Some e →
        valid e = true → writable e = false → private e = true →
        rw = RW_WRITE → mapcount (pfn e) s = Some cnt → cnt ≤ 1
  | Free _ | Switch _ _ => True
  end.

(** The frame page [vpn] of process [p] is on: the frame of its entry,
    where the entry is valid. *)
Definition frame_of (p : nat) (vpn : Z) (s : state) : option Z :=
  e ← pte_of p vpn s; if valid e then Some (pfn e) else None.

(** The entry [alloc_page] finds in the slot of [vpn]: the one of the
    table, or the one of the directory that line 96 has just obtained. *)
Definition slot_before (vpn : Z) (s : state) : option pte :=
  match pte_of (current s) vpn s with
  | Some e => Some e
  | None => ptes malloc_pte_directory !! Z.to_nat (vpn mod NR_PTES_PER_PAGE)
  end.

(** The page numbers the two-level table has a slot for. *)
Definition in_table (vpn : Z) : Prop :=
  0 ≤ vpn < NR_PTES_PER_PAGE * NR_PTES_PER_PAGE.

(** The calls that work on the table of the running process. *)
Definition page_op (o : op) : Prop :=
  match o with
  | Alloc _ _ | Free _ | Fault _ _ => True
  | Switch _ _ => False
  end.

(** [s'] differs from [s] in the table of the running process and in the
    counters only. *)
Definition same_others (s s' : state) : Prop :=
  processes s' = processes s ∧ current s' = current s ∧ ptbr s' = ptbr s ∧
  pids s' = pids s ∧ p_list <$> memory s' = p_list <$> memory s ∧
  ∀ p, p ≠ current s → tables s' !! p = tables s !! p.

(** [n->next], for the head and for the node of a process that exists. *)
Definition next_of (n : node) (s : state) : option node :=
  match n with
  | Head => Some (next (processes s))
  | Member p => pr ← memory s !! p; Some (next (p_list pr))
  end.

(** The processes a walk along [next] meets from node [n] until it is
    back at the head. *)
Inductive chain (s : state) : node → list nat → Prop :=
| chain_head : chain s Head []
| chain_member p n q :
    next_of (Member p) s = Some n → chain s n q →
    chain s (Member p) (p :: q).

(** The ready queue holds the processes [q], first to last. *)
Definition ready_queue (s : state) (q : list nat) : Prop :=
  chain s (next (processes s)) q.

(** The identifier of the process at address [p]. *)
Definition pid_of (p : nat) (s : state) : option Z := pids s !! p.

(** The first process of [q] whose identifier is [wanted]. *)
Fixpoint first_with_pid (wanted : Z) (q : list nat) (s : state) : option nat :=
  match q with
  | [] => None
  | p :: q =>
      if decide (pid_of p s = Some wanted) then Some p
      else first_with_pid wanted q s
  end.

(** A walk that starts at a process of [C] stays in [C]. *)
Definition stays (s : state) (C : list nat) : Prop :=
  ∀ x, x ∈ C → ∃ y, y ∈ C ∧ next_of (Member x) s = Some (Member y).

End Vocabulary.

(** ** A concrete machine: the scenario of the specification *)

Module Scenario.

(** Four frames; sixteen entries per directory; read is 1, write is 2. *)
#[export] Instance vm : vm_h := VmH 4 16 1 2.

(** malloc returning zero-filled blocks. *)
#[export] Instance zeroed : libc :=
  Libc empty_pte (PteDirectory (replicate 16 empty_pte))
       (Pagetable (replicate 16 None))
       (Process 0 (Pagetable (replicate 16 None)) (ListHead Head Head)).

(** malloc returning blocks that hold what an earlier owner left there:
    entries that read as valid and writable on frame 3, and a pointer to a
    directory of such entries in every slot of a table. *)
Definition stale_pte : pte := Pte true true 3 false.
Definition stale : libc :=
  Libc stale_pte (PteDirectory (replicate 16 stale_pte))
       (Pagetable (replicate 16 (Some (PteDirectory (replicate 16 stale_pte)))))
       (Process 0 (Pagetable (replicate 16 None)) (ListHead Head Head)).

(** A directory holding [es] in its first slots, and a table whose first
    directory is [d]. *)
Definition directory (es : list pte) : pte_directory :=
  PteDirectory (es ++ replicate (16 - length es) empty_pte).
Definition table (d : pte_directory) : pagetable :=
  Pagetable (Some d :: replicate 15 None).


(** Frames 0, 1 and 2 mapped at pages 0, 1 and 2 of the first process. *)
Definition three_mapped : state :=
  State (ListHead Head Head)
    [Process 0
       (table (directory [Pte true true 0 false; Pte true true 1 false;
                          Pte true true 2 false]))
       (ListHead (Member 0) (Member 0))]
    0%nat (Some 0%nat) [1; 1; 1; 0].

(** Page 0 mapped to frame 0, then a fork: process 2 runs, process 0 waits,
    both map page 0 read-only and private. *)
Definition shared : state :=
  State (ListHead (Member 0) (Member 0))
    [Process 0 (table (directory [Pte true false 0 true])) (ListHead Head Head);
     Process 2 (table (directory [Pte true false 0 true])) (ListHead Head Head)]
    1%nat (Some 1%nat) [2; 0; 0; 0].

(** As [shared], with pages 1, 2 and 3 of the running process on frames
    1, 2 and 3: no frame is free. *)
Definition full : state :=
  State (ListHead (Member 0) (Member 0))
    [Process 0 (table (directory [Pte true false 0 true])) (ListHead Head Head);
     Process 2
       (table (directory [Pte true false 0 true; Pte true true 1 false;
                          Pte true true 2 false; Pte true true 3 false]))
       (ListHead Head Head)]
    1%nat (Some 1%nat) [2; 1; 1; 1].

(** [shared] after the running process has freed page 0 and process 0
    runs again: process 0 alone maps frame 0, still read-only and private. *)
Definition sole : state :=
  State (ListHead (Member 1) (Member 0))
    [Process 0 (table (directory [Pte true false 0 true]))
       (ListHead Head (Member 1));
     Process 2 (table (directory [])) (ListHead (Member 0) Head)]
    0%nat (Some 0%nat) [1; 0; 0; 0].

(** Page 0 of the first process on frame 0. *)
Definition one_mapped : state :=
  State (ListHead Head Head)
    [Process 0 (table (directory [Pte true true 0 false]))
       (ListHead (Member 0) (Member 0))]
    0%nat (Some 0%nat) [1; 0; 0; 0].

(** [shared] after a write fault of the running process on page 0: the
    page has moved to frame 1. *)
Definition duplicated : state :=
  State (ListHead (Member 0) (Member 0))
    [Process 0 (table (directory [Pte true false 0 true])) (ListHead Head Head);
     Process 2 (table (directory [Pte true true 1 true])) (ListHead Head Head)]
    1%nat (Some 1%nat) [1; 1; 0; 0].

(** Page 0 of the first process on frame 0, mapped for reading only. *)
Definition read_only : state :=
  State (ListHead Head Head)
    [Process 0 (table (directory [Pte true false 0 false]))
       (ListHead (Member 0) (Member 0))]
    0%nat (Some 0%nat) [1; 0; 0; 0].

(** Pages 0 and 1 mapped, then a fork and a write fault of the child on
    page 0: frames 0, 1 and 2 are in use, frame 1 by both processes. *)
Definition nearly_full : state :=
  State (ListHead (Member 0) (Member 0))
    [Process 0
       (table (directory [Pte true false 0 true; Pte true false 1 true]))
       (ListHead Head Head);
     Process 2
       (table (directory [Pte true true 2 true; Pte true false 1 true]))
       (ListHead Head Head)]
    1%nat (Some 1%nat) [1; 2; 1; 0].

End Scenario.

(** ** The result monad and the loop combinator *)

Lemma bind_Ok {A B} (a : A) (k : A → result B) : (Ok a ≫= k) = k a.
Proof. reflexivity. Qed.

Lemma bind_ret {A} (m : result A) : (m ≫= Ok) = m.
Proof. by destruct m. Qed.

Lemma index_ok {A} (a : list A) (i : Z) (x : A) :
  0 ≤ i → a !! Z.to_nat i = Some x → index a i = Ok x.
Proof.
  intros Hi Hx. unfold index.
  destruct (Z.ltb_spec i 0); [lia|]. by rewrite Hx.
Qed.

Lemma index_inv {A} (a : list A) (i : Z) (x : A) :
  index a i = Ok x → 0 ≤ i ∧ a !! Z.to_nat i = Some x.
Proof.
  unfold index. destruct (Z.ltb_spec i 0); [done|].
  destruct (a !! Z.to_nat i); [|done]. intros [= ->]. done.
Qed.

(** A loop whose body acts at one index only runs that one iteration. *)
Lemma for_loop_select {St} (n : nat) (from k : Z) (body : Z → St → result St) (s : St) :
  (∀ j s, j ≠ k → body j s = Ok s) →
  for_loop n from body s =
    if decide (from ≤ k < from + Z.of_nat n) then body k s else Ok s.
Proof.
  intros Hother. revert from s. induction n as [|n IH]; intros from s.
  - simpl. case_decide; [lia|done].
  - cbn [for_loop]. destruct (decide (from = k)) as [->|Hne].
    + rewrite decide_True by lia.
      destruct (body k s) as [s'|e]; [|done].
      rewrite bind_Ok, IH, decide_False by lia. done.
    + rewrite Hother, bind_Ok, IH by done.
      repeat case_decide; (done || lia).
Qed.

(** ** The table under [ptbr] *)

Lemma alter_insert {A} (f : A → A) (l : list A) (i : nat) (x : A) :
  l !! i = Some x → alter f i l = <[i := f x]> l.
Proof.
  intros Hx. apply list_eq. intros j. destruct (decide (i = j)) as [->|Hne].
  - rewrite list_lookup_alter_eq, Hx, list_lookup_insert_eq; [done|].
    by eapply lookup_lt_Some.
  - by rewrite list_lookup_alter_ne, list_lookup_insert_ne.
Qed.

Lemma focus_inv s c pt :
  focus s = Some (c, pt) →
  ptbr s = Some c ∧ ∃ pr, memory s !! c = Some pr ∧ p_pagetable pr = pt.
Proof.
  unfold focus. destruct (ptbr s) as [c'|]; [|done]. simpl.
  destruct (memory s !! c') as [pr|] eqn:E; [|done]. simpl.
  intros [= -> <-]. eauto.
Qed.

Lemma focus_intro s c pr :
  ptbr s = Some c → memory s !! c = Some pr → focus s = Some (c, p_pagetable pr).
Proof. intros Hp Hm. unfold focus. rewrite Hp. simpl. by rewrite Hm. Qed.

Lemma ptbr_owner_focus s c pt : focus s = Some (c, pt) → ptbr_owner s = Ok c.
Proof.
  intros (Hp & pr & Hm & _)%focus_inv. unfold ptbr_owner, load_process.
  by rewrite Hp, Hm.
Qed.

Lemma load_ptbr_focus s c pt : focus s = Some (c, pt) → load_ptbr s = Ok pt.
Proof.
  intros Hf. unfold load_ptbr. rewrite (ptbr_owner_focus _ _ _ Hf), bind_Ok.
  apply focus_inv in Hf as (Hp & pr & Hm & <-). unfold load_process.
  by rewrite Hm.
Qed.

Lemma store_ptbr_focus s c pt pt' :
  focus s = Some (c, pt) → store_ptbr pt' s = Ok (put_table c pt' s).
Proof.
  intros Hf. unfold store_ptbr. by rewrite (ptbr_owner_focus _ _ _ Hf).
Qed.

Lemma focus_put_table s c pt pt' :
  focus s = Some (c, pt) → focus (put_table c pt' s) = Some (c, pt').
Proof.
  intros (Hp & pr & Hm & _)%focus_inv. unfold focus, put_table. simpl.
  rewrite Hp. simpl. by rewrite list_lookup_alter_eq, Hm.
Qed.

Lemma put_table_put_table c pt1 pt2 s :
  put_table c pt2 (put_table c pt1 s) = put_table c pt2 s.
Proof.
  unfold put_table, with_memory. simpl. f_equal.
  apply list_eq. intros j. destruct (decide (c = j)) as [->|Hne].
  - rewrite !list_lookup_alter_eq. by destruct (memory s !! j).
  - by rewrite !list_lookup_alter_ne.
Qed.

Lemma put_table_focus s c pt : focus s = Some (c, pt) → put_table c pt s = s.
Proof.
  intros (Hp & pr & Hm & <-)%focus_inv. unfold put_table, with_memory.
  rewrite (alter_insert _ _ _ _ Hm), list_insert_id; [by destruct s|].
  by destruct pr.
Qed.

Lemma load_outer_focus s c pt i o :
  focus s = Some (c, pt) → 0 ≤ i → outer_ptes pt !! Z.to_nat i = Some o →
  load_outer i s = Ok o.
Proof.
  intros Hf Hi Ho. unfold load_outer.
  by rewrite (load_ptbr_focus _ _ _ Hf), bind_Ok, (index_ok _ _ _ Hi Ho).
Qed.

Lemma store_outer_focus s c pt i o d :
  focus s = Some (c, pt) → 0 ≤ i → outer_ptes pt !! Z.to_nat i = Some o →
  store_outer i (Some d) s = Ok (put_table c (put_directory i d pt) s).
Proof.
  intros Hf Hi Ho. unfold store_outer.
  rewrite (load_ptbr_focus _ _ _ Hf), bind_Ok, (index_ok _ _ _ Hi Ho), bind_Ok.
  by rewrite (store_ptbr_focus _ _ _ _ Hf).
Qed.

Lemma load_pte_focus s c pt i j d e :
  focus s = Some (c, pt) → 0 ≤ i → 0 ≤ j →
  outer_ptes pt !! Z.to_nat i = Some (Some d) → ptes d !! Z.to_nat j = Some e →
  load_pte i j s = Ok e.
Proof.
  intros Hf Hi Hj Hd He. unfold load_pte.
  by rewrite (load_outer_focus _ _ _ _ _ Hf Hi Hd), bind_Ok, (index_ok _ _ _ Hj He).
Qed.

Lemma store_pte_focus s c pt i j d e e' :
  focus s = Some (c, pt) → 0 ≤ i → 0 ≤ j →
  outer_ptes pt !! Z.to_nat i = Some (Some d) → ptes d !! Z.to_nat j = Some e →
  store_pte i j e' s = Ok (put_table c (put_directory i (put_pte j e' d) pt) s).
Proof.
  intros Hf Hi Hj Hd He. unfold store_pte.
  rewrite (load_outer_focus _ _ _ _ _ Hf Hi Hd), bind_Ok, (index_ok _ _ _ Hj He), bind_Ok.
  by rewrite (store_outer_focus _ _ _ _ _ _ Hf Hi Hd).
Qed.

Lemma put_directory_lookup pt i d o :
  outer_ptes pt !! Z.to_nat i = Some o →
  outer_ptes (put_directory i d pt) !! Z.to_nat i = Some (Some d).
Proof.
  intros Ho. unfold put_directory. simpl. apply list_lookup_insert_eq.
  by eapply lookup_lt_Some.
Qed.

Lemma put_directory_put_directory pt i d1 d2 :
  put_directory i d2 (put_directory i d1 pt) = put_directory i d2 pt.
Proof. unfold put_directory. simpl. by rewrite list_insert_insert_eq. Qed.

Lemma put_pte_lookup d j e e' :
  ptes d !! Z.to_nat j = Some e → ptes (put_pte j e' d) !! Z.to_nat j = Some e'.
Proof.
  intros He. unfold put_pte. simpl. apply list_lookup_insert_eq.
  by eapply lookup_lt_Some.
Qed.

Lemma put_pte_put_pte d j e1 e2 :
  put_pte j e2 (put_pte j e1 d) = put_pte j e2 d.
Proof. unfold put_pte. simpl. by rewrite list_insert_insert_eq. Qed.

(** Two stores to the same entry: the second one stays. *)
Lemma store_pte_twice s c pt i j d e e1 e2 :
  focus s = Some (c, pt) → 0 ≤ i → 0 ≤ j →
  outer_ptes pt !! Z.to_nat i = Some (Some d) → ptes d !! Z.to_nat j = Some e →
  store_pte i j e2 (put_table c (put_directory i (put_pte j e1 d) pt) s)
  = Ok (put_table c (put_directory i (put_pte j e2 d) pt) s).
Proof.
  intros Hf Hi Hj Hd He.
  erewrite store_pte_focus;
    [|by eapply focus_put_table|done|done|by eapply put_directory_lookup
     |by eapply put_pte_lookup].
  by rewrite put_table_put_table, put_directory_put_directory, put_pte_put_pte.
Qed.

Lemma load_mapcount_ok s f c :
  0 ≤ f → mapcounts s !! Z.to_nat f = Some c → load_mapcount f s = Ok c.
Proof. intros. by apply index_ok. Qed.

Lemma store_mapcount_ok s f c c' :
  0 ≤ f → mapcounts s !! Z.to_nat f = Some c →
  store_mapcount f c' s = Ok (with_mapcounts (<[Z.to_nat f := c']> (mapcounts s)) s).
Proof. intros Hf Hc. unfold store_mapcount. by rewrite (index_ok _ _ _ Hf Hc). Qed.

(** ** The frame search of alloc_page *)

Lemma count_marked_from (counts : list Z) (cnt : Z) :
  foldl (λ cnt b, if b =? 1 then cnt + 1 else cnt) cnt
        ((λ c, if 0 <? c then 1 else 0) <$> counts)
  = cnt + Z.of_nat (frames_in_use counts).
Proof.
  unfold frames_in_use. revert cnt.
  induction counts as [|c counts IH]; intros cnt; simpl; [lia|].
  rewrite IH, filter_cons. destruct (Z.ltb_spec 0 c).
  - rewrite decide_True by done. simpl. lia.
  - rewrite decide_False by lia. simpl. lia.
Qed.

Lemma first_unmarked_Some (counts : list Z) (i k : Z) :
  first_unmarked ((λ c, if 0 <? c then 1 else 0) <$> counts) i = Some k →
  ∃ n : nat, k = i + Z.of_nat n ∧
    (∃ c, counts !! n = Some c ∧ c ≤ 0) ∧
    ∀ m : nat, (m < n)%nat → ∃ c, counts !! m = Some c ∧ 0 < c.
Proof.
  revert i. induction counts as [|c counts IH]; intros i; simpl; [done|].
  destruct (Z.ltb_spec 0 c) as [Hc|Hc]; simpl.
  - intros (n & -> & Hn & Hlt)%IH. exists (S n). split; [lia|]. split; [done|].
    intros [|m] Hm; simpl; [eauto|]. apply Hlt. lia.
  - intros [= <-]. exists O. split; [lia|]. split; [eauto|]. lia.
Qed.

Lemma first_unmarked_None (counts : list Z) (i : Z) :
  first_unmarked ((λ c, if 0 <? c then 1 else 0) <$> counts) i = None →
  Forall (λ c, 0 < c) counts.
Proof.
  revert i. induction counts as [|c counts IH]; intros i; simpl; [by constructor|].
  destruct (Z.ltb_spec 0 c) as [Hc|Hc]; simpl; [|done].
  intros Hn. constructor; eauto.
Qed.

(** The search returns the lowest frame with count zero. *)
Lemma search_pfn_lowest (counts : list Z) (k : nat) (c : Z) :
  counts !! k = Some c → c ≤ 0 →
  (∀ m : nat, (m < k)%nat → ∃ c, counts !! m = Some c ∧ 0 < c) →
  search_pfn (marking counts) = Z.of_nat k.
Proof.
  intros Hk Hc Hlt. unfold search_pfn, marking.
  destruct (first_unmarked _ 0) as [k'|] eqn:E; simpl.
  - apply first_unmarked_Some in E as (n & -> & (c' & Hn & Hc') & Hlt').
    destruct (Nat.lt_trichotomy n k) as [Hnk|[->|Hnk]]; [|lia|].
    + destruct (Hlt _ Hnk) as (? & ? & ?). simplify_eq. lia.
    + destruct (Hlt' _ Hnk) as (? & ? & ?). simplify_eq. lia.
  - apply first_unmarked_None in E. rewrite Forall_lookup in E.
    specialize (E _ _ Hk). simpl in E. lia.
Qed.

(** With no free frame the search leaves [pfn] at its initial 0. *)
Lemma search_pfn_none (counts : list Z) :
  Forall (λ c, 0 < c) counts → search_pfn (marking counts) = 0.
Proof.
  intros Hall. unfold search_pfn, marking.
  destruct (first_unmarked _ 0) as [k'|] eqn:E; [|done].
  apply first_unmarked_Some in E as (n & -> & (c' & Hn & Hc') & _).
  rewrite Forall_lookup in Hall. specialize (Hall _ _ Hn). simpl in Hall. lia.
Qed.

Lemma search_pfn_range (counts : list Z) :
  counts ≠ [] → 0 ≤ search_pfn (marking counts) < Z.of_nat (length counts).
Proof.
  intros Hne. unfold search_pfn, marking.
  destruct (first_unmarked _ 0) as [k'|] eqn:E; simpl.
  - apply first_unmarked_Some in E as (n & -> & (c' & Hn & Hc') & _).
    apply lookup_lt_Some in Hn. lia.
  - destruct counts; [done|]. simpl. lia.
Qed.

Lemma frames_in_use_all (counts : list Z) :
  Forall (λ c, 0 < c) counts → frames_in_use counts = length counts.
Proof.
  unfold frames_in_use. induction 1 as [|c counts Hc _ IH]; [done|].
  rewrite filter_cons, decide_True by done. simpl. by rewrite IH.
Qed.

Lemma frames_in_use_le (counts : list Z) :
  (frames_in_use counts ≤ length counts)%nat.
Proof. apply length_filter. Qed.

Section Lemmas.
Context {VM : vm_h} {OK : vm_h_ok VM} {LC : libc}.

Lemma rw_both_not_read : Z.lor RW_WRITE RW_READ ≠ RW_READ.
Proof.
  intros E. pose proof rw_independent as HI. pose proof rw_write_set.
  rewrite <- E, Z.land_lor_distr_l, Z.land_diag in HI.
  apply Z.lor_eq_0_iff in HI. tauto.
Qed.

Lemma rw_both_not_write : Z.lor RW_WRITE RW_READ ≠ RW_WRITE.
Proof.
  intros E. pose proof rw_independent as HI. pose proof rw_read_set.
  rewrite <- E, Z.land_lor_distr_r, Z.land_diag in HI.
  apply Z.lor_eq_0_iff in HI. tauto.
Qed.

Lemma in_directory_spec (vpn i : Z) :
  0 ≤ vpn → in_directory vpn i = true ↔ i = vpn / NR_PTES_PER_PAGE.
Proof.
  intros Hv. pose proof ptes_range as HN. unfold in_directory.
  rewrite andb_true_iff, Z.leb_le, Z.ltb_lt. split.
  - intros [Hlo Hhi]. apply Z.div_unique with (vpn - i * NR_PTES_PER_PAGE); lia.
  - intros ->. pose proof (Z.mul_div_le vpn _ HN).
    pose proof (Z.mul_succ_div_gt vpn _ HN). lia.
Qed.

(** *** alloc_page *)

Lemma alloc_map_focus s c pt i j o e rw f cnt :
  focus s = Some (c, pt) → 0 ≤ i → 0 ≤ j → 0 ≤ f →
  outer_ptes pt !! Z.to_nat i = Some o →
  ptes (default malloc_pte_directory o) !! Z.to_nat j = Some e →
  mapcounts s !! Z.to_nat f = Some cnt →
  alloc_map i j rw f s =
    Ok (with_mapcounts (<[Z.to_nat f := uint (cnt + 1)]> (mapcounts s))
          (put_table c
             (put_directory i
                (put_pte j (installed rw f e) (default malloc_pte_directory o)) pt)
             s)).
Proof.
  intros Hf Hi Hj Hf0 Ho He Hc. unfold alloc_map.
  rewrite (load_outer_focus _ _ _ _ _ Hf Hi Ho), bind_Ok.
  destruct o as [d|]; simpl in He |- *.
  - rewrite (load_pte_focus _ _ _ _ _ _ _ Hf Hi Hj Ho He), bind_Ok.
    rewrite (store_pte_focus _ _ _ _ _ _ _ _ Hf Hi Hj Ho He), bind_Ok.
    rewrite (load_mapcount_ok _ _ _ Hf0), bind_Ok by done.
    by rewrite (store_mapcount_ok _ _ cnt).
  - rewrite (store_outer_focus _ _ _ _ _ _ Hf Hi Ho), bind_Ok.
    pose proof (focus_put_table _ _ _ (put_directory i malloc_pte_directory pt) Hf) as Hf'.
    pose proof (put_directory_lookup _ _ malloc_pte_directory _ Ho) as Ho'.
    rewrite (load_pte_focus _ _ _ _ _ _ _ Hf' Hi Hj Ho' He), bind_Ok.
    rewrite (store_pte_focus _ _ _ _ _ _ _ _ Hf' Hi Hj Ho' He), bind_Ok.
    rewrite put_table_put_table, put_directory_put_directory.
    rewrite (load_mapcount_ok _ _ _ Hf0), bind_Ok by done.
    by rewrite (store_mapcount_ok _ _ cnt).
Qed.

Lemma alloc_page_prologue s pt :
  focus s = Some (current s, pt) →
  ∃ cur, load_process (current s) s = Ok cur ∧
         store_ptbr (p_pagetable cur) s = Ok s.
Proof.
  intros Hf. pose proof Hf as (_ & pr & Hm & <-)%focus_inv.
  exists pr. unfold load_process. rewrite Hm. split; [done|].
  by rewrite (store_ptbr_focus _ _ _ _ Hf), (put_table_focus _ _ _ Hf).
Qed.

(** Line 82 is taken exactly when all frames but one are in use. *)
Lemma exhausted_test (counts : list Z) :
  (count_marked (marking counts) =? NR_PAGEFRAMES) = true
  ↔ Z.of_nat (frames_in_use counts) = NR_PAGEFRAMES - 1.
Proof.
  unfold count_marked, marking. rewrite count_marked_from, Z.eqb_eq. lia.
Qed.

(** With all frames but one in use, [alloc_page] gives up. *)
Lemma alloc_page_gives_up vpn rw s pt :
  focus s = Some (current s, pt) →
  Z.of_nat (frames_in_use (mapcounts s)) = NR_PAGEFRAMES - 1 →
  alloc_page vpn rw s = Ok (UINT_MAX, s).
Proof.
  intros Hf Hn. unfold alloc_page.
  destruct (alloc_page_prologue _ _ Hf) as (cur & -> & Hpro).
  rewrite bind_Ok, Hpro, bind_Ok.
  by rewrite (proj2 (exhausted_test _) Hn).
Qed.

(** Otherwise it maps [vpn], if the table reaches that far, to the frame
    the search found. *)
Lemma alloc_page_maps vpn rw s pt o e cnt :
  let f := search_pfn (marking (mapcounts s)) in
  focus s = Some (current s, pt) →
  Z.of_nat (frames_in_use (mapcounts s)) ≠ NR_PAGEFRAMES - 1 →
  0 ≤ vpn → vpn / NR_PTES_PER_PAGE < NR_PTES_PER_PAGE →
  outer_ptes pt !! Z.to_nat (vpn / NR_PTES_PER_PAGE) = Some o →
  ptes (default malloc_pte_directory o) !! Z.to_nat (vpn mod NR_PTES_PER_PAGE) = Some e →
  mapcounts s !! Z.to_nat f = Some cnt →
  alloc_page vpn rw s
  = Ok (f, mapped (current s) pt (default malloc_pte_directory o) e vpn rw f cnt s).
Proof.
  intros f Hf Hn Hv Hi Ho He Hc. unfold alloc_page.
  destruct (alloc_page_prologue _ _ Hf) as (cur & -> & Hpro).
  rewrite bind_Ok, Hpro, bind_Ok.
  destruct (count_marked _ =? _) eqn:E; [by apply exhausted_test in E|].
  pose proof ptes_range as HN.
  assert (0 ≤ vpn / NR_PTES_PER_PAGE) as Hi0 by (apply Z.div_pos; lia).
  assert (0 ≤ vpn mod NR_PTES_PER_PAGE) as Hj0 by (apply Z.mod_pos_bound; lia).
  rewrite (for_loop_select _ _ (vpn / NR_PTES_PER_PAGE)).
  - rewrite decide_True by lia.
    rewrite (proj2 (in_directory_spec vpn _ Hv)) by done.
    assert (0 ≤ f) as Hf0.
    { subst f. destruct (mapcounts s) eqn:Em; [done|].
      apply search_pfn_range. done. }
    by rewrite (alloc_map_focus _ _ _ _ _ _ _ _ _ _ Hf Hi0 Hj0 Hf0 Ho He Hc).
  - intros j s' Hj. destruct (in_directory vpn j) eqn:Ed; [|done].
    by apply in_directory_spec in Ed.
Qed.

Lemma alloc_page_outside vpn rw s pt :
  focus s = Some (current s, pt) →
  Z.of_nat (frames_in_use (mapcounts s)) ≠ NR_PAGEFRAMES - 1 →
  0 ≤ vpn → NR_PTES_PER_PAGE ≤ vpn / NR_PTES_PER_PAGE →
  alloc_page vpn rw s = Ok (search_pfn (marking (mapcounts s)), s).
Proof.
  intros Hf Hn Hv Hi. unfold alloc_page.
  destruct (alloc_page_prologue _ _ Hf) as (cur & -> & Hpro).
  rewrite bind_Ok, Hpro, bind_Ok.
  destruct (count_marked _ =? _) eqn:E; [by apply exhausted_test in E|].
  pose proof ptes_range as HN.
  rewrite (for_loop_select _ _ (vpn / NR_PTES_PER_PAGE)).
  - by rewrite decide_False by lia.
  - intros j s' Hj. destruct (in_directory vpn j) eqn:Ed; [|done].
    by apply in_directory_spec in Ed.
Qed.

(** *** free_page *)

Lemma pte_at_inv (pt : pagetable) (vpn : Z) (e : pte) :
  pte_at pt vpn = Some e →
  0 ≤ vpn ∧ ∃ d,
    outer_ptes pt !! Z.to_nat (vpn / NR_PTES_PER_PAGE) = Some (Some d) ∧
    ptes d !! Z.to_nat (vpn mod NR_PTES_PER_PAGE) = Some e.
Proof.
  unfold pte_at. destruct (Z.ltb_spec vpn 0); [done|].
  destruct (outer_ptes pt !! _) as [[d|]|]; [|done..]. eauto.
Qed.

Lemma pte_at_intro (pt : pagetable) (vpn : Z) (d : pte_directory) :
  0 ≤ vpn →
  outer_ptes pt !! Z.to_nat (vpn / NR_PTES_PER_PAGE) = Some (Some d) →
  pte_at pt vpn = ptes d !! Z.to_nat (vpn mod NR_PTES_PER_PAGE).
Proof.
  intros Hv Hd. unfold pte_at. destruct (Z.ltb_spec vpn 0); [lia|]. by rewrite Hd.
Qed.

Lemma div_mod_nonneg (vpn : Z) :
  0 ≤ vpn → 0 ≤ vpn / NR_PTES_PER_PAGE ∧ 0 ≤ vpn mod NR_PTES_PER_PAGE.
Proof.
  intros Hv. pose proof ptes_range. split.
  - apply Z.div_pos; lia.
  - apply Z.mod_pos_bound; lia.
Qed.

(** The loop of [free_page] runs its body for the directory of [vpn]. *)
Lemma free_page_select (vpn : Z) (s : state) :
  0 ≤ vpn → vpn / NR_PTES_PER_PAGE < NR_PTES_PER_PAGE →
  free_page vpn s
  = free_unmap (vpn / NR_PTES_PER_PAGE) (vpn mod NR_PTES_PER_PAGE) s.
Proof.
  intros Hv Hi. unfold free_page. pose proof (div_mod_nonneg _ Hv) as [Hi0 _].
  rewrite (for_loop_select _ _ (vpn / NR_PTES_PER_PAGE)).
  - rewrite decide_True by lia.
    by rewrite (proj2 (in_directory_spec vpn _ Hv)).
  - intros j s' Hj. destruct (in_directory vpn j) eqn:Ed; [|done].
    by apply in_directory_spec in Ed.
Qed.

(** Line 132 dereferences [ptbr->outer_ptes[i]] without a test. *)
Lemma free_page_null_directory (vpn : Z) (s : state) (c : nat) (pt : pagetable) :
  focus s = Some (c, pt) →
  0 ≤ vpn → vpn / NR_PTES_PER_PAGE < NR_PTES_PER_PAGE →
  outer_ptes pt !! Z.to_nat (vpn / NR_PTES_PER_PAGE) = Some None →
  free_page vpn s = Stop NullPointer.
Proof.
  intros Hf Hv Hi Ho. pose proof (div_mod_nonneg _ Hv) as [Hi0 _].
  rewrite free_page_select by done. unfold free_unmap, load_pte.
  by rewrite (load_outer_focus _ _ _ _ _ Hf Hi0 Ho).
Qed.

Lemma free_page_unmaps (vpn : Z) (s : state) c pt d e cnt :
  focus s = Some (c, pt) →
  0 ≤ vpn → vpn / NR_PTES_PER_PAGE < NR_PTES_PER_PAGE →
  outer_ptes pt !! Z.to_nat (vpn / NR_PTES_PER_PAGE) = Some (Some d) →
  ptes d !! Z.to_nat (vpn mod NR_PTES_PER_PAGE) = Some e →
  0 ≤ pfn e → mapcounts s !! Z.to_nat (pfn e) = Some cnt →
  free_page vpn s = Ok (unmapped c pt d e vpn cnt s).
Proof.
  intros Hf Hv Hi Hd He Hp Hc. pose proof (div_mod_nonneg _ Hv) as [Hi0 Hj0].
  rewrite free_page_select by done. unfold free_unmap.
  rewrite (load_pte_focus _ _ _ _ _ _ _ Hf Hi0 Hj0 Hd He), bind_Ok.
  rewrite (load_mapcount_ok _ _ _ Hp Hc), bind_Ok.
  assert ((if 1 <? cnt then store_mapcount (pfn e) (cnt - 1) s
           else if cnt =? 1 then store_mapcount (pfn e) 0 s else Ok s)
          = Ok (with_mapcounts (<[Z.to_nat (pfn e) := released cnt]> (mapcounts s)) s))
    as ->.
  { unfold released. destruct (1 <? cnt); [by apply store_mapcount_ok with cnt|].
    destruct (cnt =? 1); [by apply store_mapcount_ok with cnt|].
    rewrite list_insert_id by done. by destruct s. }
  rewrite bind_Ok. by erewrite store_pte_focus.
Qed.

(** *** handle_page_fault *)

(** On a valid entry the handler acts only for [rw == RW_WRITE] on a
    read-only entry marked private. *)
Lemma handle_page_fault_valid (vpn rw : Z) (s : state) c pt d e :
  focus s = Some (c, pt) → 0 ≤ vpn →
  outer_ptes pt !! Z.to_nat (vpn / NR_PTES_PER_PAGE) = Some (Some d) →
  ptes d !! Z.to_nat (vpn mod NR_PTES_PER_PAGE) = Some e →
  valid e = true →
  handle_page_fault vpn rw s =
    if (rw =? RW_WRITE) && negb (writable e) && private e then
      cnt ← load_mapcount (pfn e) s;
      if 1 <? cnt then
        s ← store_mapcount (pfn e) (cnt - 1) s;
        alloc_and_resolve vpn (Z.lor rw RW_READ) s
      else
        Ok (true,
            put_table c
              (put_directory (vpn / NR_PTES_PER_PAGE)
                 (put_pte (vpn mod NR_PTES_PER_PAGE) (promoted e) d) pt) s)
    else Ok (false, s).
Proof.
  intros Hf Hv Hd He Hvalid.
  pose proof (div_mod_nonneg _ Hv) as [Hi0 Hj0].
  pose proof Hf as (Hp & _)%focus_inv. unfold handle_page_fault. rewrite Hp.
  rewrite (load_outer_focus _ _ _ _ _ Hf Hi0 Hd), bind_Ok.
  rewrite (index_ok _ _ _ Hj0 He), bind_Ok, Hvalid. simpl negb. cbv iota.
  destruct ((rw =? RW_WRITE) && negb (writable e) && private e); [|done].
  destruct (load_mapcount (pfn e) s) as [cnt|]; [|done]. rewrite !bind_Ok.
  destruct (1 <? cnt); [done|].
  rewrite (store_pte_focus _ _ _ _ _ _ _ _ Hf Hi0 Hj0 Hd He), bind_Ok.
  erewrite load_pte_focus;
    [|by eapply focus_put_table|done|done|by eapply put_directory_lookup
     |by eapply put_pte_lookup].
  rewrite bind_Ok.
  by rewrite (store_pte_twice _ _ _ _ _ _ _ _ _ Hf Hi0 Hj0 Hd He), bind_Ok.
Qed.

Lemma pte_of_focus (s : state) (c : nat) (vpn : Z) (e : pte) :
  ptbr s = Some c → pte_of c vpn s = Some e →
  ∃ pt, focus s = Some (c, pt) ∧ pte_at pt vpn = Some e.
Proof.
  intros Hp. unfold pte_of. destruct (memory s !! c) as [pr|] eqn:Hm; [|done].
  simpl. intros He. exists (p_pagetable pr). split; [|done].
  by apply focus_intro.
Qed.

Lemma mapcount_inv (f c : Z) (s : state) :
  mapcount f s = Some c → 0 ≤ f ∧ mapcounts s !! Z.to_nat f = Some c.
Proof. unfold mapcount. by destruct (Z.ltb_spec f 0). Qed.

Lemma mapcount_intro (f : Z) (s : state) :
  0 ≤ f → mapcount f s = mapcounts s !! Z.to_nat f.
Proof. intros. unfold mapcount. by destruct (Z.ltb_spec f 0); [lia|]. Qed.

(** *** Reading a state after an update *)

Lemma memory_put_table_eq s c pr pt :
  memory s !! c = Some pr →
  memory (put_table c pt s) !! c = Some (set_pagetable pt pr).
Proof. intros Hm. unfold put_table. simpl. by rewrite list_lookup_alter_eq, Hm. Qed.

Lemma memory_put_table_ne s c p pt :
  p ≠ c → memory (put_table c pt s) !! p = memory s !! p.
Proof. intros Hne. unfold put_table. simpl. by rewrite list_lookup_alter_ne. Qed.

Lemma pte_of_put_table_eq s c pt pt' vpn :
  focus s = Some (c, pt) → pte_of c vpn (put_table c pt' s) = pte_at pt' vpn.
Proof.
  intros (_ & pr & Hm & _)%focus_inv. unfold pte_of.
  by rewrite (memory_put_table_eq _ _ _ _ Hm).
Qed.

Lemma pte_of_put_table_ne s c p pt vpn :
  p ≠ c → pte_of p vpn (put_table c pt s) = pte_of p vpn s.
Proof. intros Hne. unfold pte_of. by rewrite memory_put_table_ne. Qed.

Lemma pte_at_put (pt : pagetable) (vpn : Z) (d : pte_directory)
    (o : option pte_directory) (e e' : pte) :
  0 ≤ vpn →
  outer_ptes pt !! Z.to_nat (vpn / NR_PTES_PER_PAGE) = Some o →
  ptes d !! Z.to_nat (vpn mod NR_PTES_PER_PAGE) = Some e →
  pte_at (put_directory (vpn / NR_PTES_PER_PAGE)
            (put_pte (vpn mod NR_PTES_PER_PAGE) e' d) pt) vpn
  = Some e'.
Proof.
  intros Hv Ho He.
  rewrite (pte_at_intro _ _ _ Hv (put_directory_lookup _ _ _ _ Ho)).
  by eapply put_pte_lookup.
Qed.

(** *** Well-formed states *)

Lemma well_formed_focus (s : state) :
  well_formed s → ∃ pt, focus s = Some (current s, pt) ∧ pagetable_ok pt.
Proof.
  intros (_ & _ & Htables & Hcur & Hptbr).
  destruct (lookup_lt_is_Some_2 _ _ Hcur) as [pr Hm].
  exists (p_pagetable pr). split; [by apply focus_intro|].
  rewrite Forall_lookup in Htables. by apply (Htables _ _ Hm).
Qed.

Lemma pagetable_ok_slot (pt : pagetable) (i : Z) :
  pagetable_ok pt → 0 ≤ i < NR_PTES_PER_PAGE →
  ∃ o, outer_ptes pt !! Z.to_nat i = Some o ∧ slot_ok o.
Proof.
  intros [Hlen Hall] Hi.
  destruct (lookup_lt_is_Some_2 (outer_ptes pt) (Z.to_nat i)) as [o Ho]; [lia|].
  exists o. split; [done|]. rewrite Forall_lookup in Hall. eauto.
Qed.

Lemma pagetable_ok_range (pt : pagetable) (i : Z) (o : option pte_directory) :
  pagetable_ok pt → 0 ≤ i → outer_ptes pt !! Z.to_nat i = Some o →
  i < NR_PTES_PER_PAGE ∧ slot_ok o.
Proof.
  intros [Hlen Hall] Hi Ho. split.
  - apply lookup_lt_Some in Ho. lia.
  - rewrite Forall_lookup in Hall. eauto.
Qed.

Lemma directory_ok_entry (d : pte_directory) (j : Z) :
  length (ptes d) = Z.to_nat NR_PTES_PER_PAGE → 0 ≤ j < NR_PTES_PER_PAGE →
  ∃ e, ptes d !! Z.to_nat j = Some e.
Proof. intros Hlen Hj. apply lookup_lt_is_Some_2. lia. Qed.

Lemma mod_range (vpn : Z) :
  0 ≤ vpn mod NR_PTES_PER_PAGE < NR_PTES_PER_PAGE.
Proof. pose proof ptes_range. apply Z.mod_pos_bound. lia. Qed.

(** *** The frames in use *)

Lemma frames_in_use_insert (counts : list Z) (i : nat) (c c' : Z) :
  counts !! i = Some c → (0 < c ↔ 0 < c') →
  frames_in_use (<[i := c']> counts) = frames_in_use counts.
Proof.
  unfold frames_in_use. revert i.
  induction counts as [|x counts IH]; intros [|i] Hi Hiff; simplify_eq/=.
  - rewrite !filter_cons. destruct (decide (0 < c)), (decide (0 < c')); (done || tauto).
  - rewrite !filter_cons. destruct (decide (0 < x)); simpl; erewrite IH; done.
Qed.

Lemma search_pfn_free (counts : list Z) :
  (frames_in_use counts < length counts)%nat →
  ∃ (k : nat) (c : Z),
    search_pfn (marking counts) = Z.of_nat k ∧ counts !! k = Some c ∧ c ≤ 0.
Proof.
  intros Hlt. unfold search_pfn, marking.
  destruct (first_unmarked _ 0) as [k'|] eqn:E; simpl.
  - apply first_unmarked_Some in E as (n & -> & (c' & Hn & Hc') & _). eauto.
  - apply first_unmarked_None, frames_in_use_all in E. lia.
Qed.

Lemma apply_rw_read_write (e : pte) :
  apply_rw (Z.lor RW_WRITE RW_READ) e = set_writable true e.
Proof.
  unfold apply_rw. destruct (Z.eqb_spec (Z.lor RW_WRITE RW_READ) RW_READ) as [E|_].
  - by apply rw_both_not_read in E.
  - by rewrite Z.eqb_refl.
Qed.

(** [alloc_page] returns on every well-formed state, and touches only
    the table of the running process and the counters. *)
Lemma alloc_page_returns (vpn rw : Z) (s : state) :
  (pte_of (current s) vpn s = None → libc_sized LC) →
  well_formed s → 0 ≤ vpn →
  ∃ f s', alloc_page vpn rw s = Ok (f, s') ∧
    (∀ p, p ≠ current s → memory s' !! p = memory s !! p).
Proof.
  intros Hsz Hwf Hv. destruct (well_formed_focus _ Hwf) as (pt & Hf & Hpt).
  destruct Hwf as (Hlen & _ & _ & _ & _). pose proof frames_range as HN.
  destruct (decide (Z.of_nat (frames_in_use (mapcounts s)) = NR_PAGEFRAMES - 1)) as [Hn|Hn].
  { rewrite (alloc_page_gives_up _ _ _ _ Hf Hn). eauto. }
  destruct (decide (vpn / NR_PTES_PER_PAGE < NR_PTES_PER_PAGE)) as [Hi|Hi].
  - pose proof (div_mod_nonneg _ Hv) as [Hi0 Hj0].
    destruct (pagetable_ok_slot _ (vpn / NR_PTES_PER_PAGE) Hpt) as (o & Ho & Hok); [lia|].
    assert (length (ptes (default malloc_pte_directory o)) = Z.to_nat NR_PTES_PER_PAGE) as Hd.
    { destruct o as [d|]; [apply Hok|]. apply Hsz.
      apply focus_inv in Hf as (_ & pr & Hm & <-). unfold pte_of, pte_at.
      rewrite Hm. simpl. rewrite Ho. by destruct (vpn <? 0). }
    destruct (directory_ok_entry _ _ Hd (mod_range vpn)) as [e He].
    assert (mapcounts s ≠ []) as Hne.
    { intros E. rewrite E in Hlen. simpl in Hlen. lia. }
    pose proof (search_pfn_range _ Hne) as Hr.
    destruct (lookup_lt_is_Some_2 (mapcounts s)
                (Z.to_nat (search_pfn (marking (mapcounts s))))) as [cnt Hc]; [lia|].
    rewrite (alloc_page_maps _ rw _ _ _ _ _ Hf Hn Hv Hi Ho He Hc).
    eexists _, _. split; [done|]. intros p Hp. unfold mapped. simpl.
    by rewrite list_lookup_alter_ne.
  - rewrite (alloc_page_outside _ _ _ _ Hf Hn Hv) by lia. eauto.
Qed.

Lemma well_formed_store_mapcount (s : state) (i : nat) (c : Z) :
  well_formed s → 0 ≤ c < UINT_MOD →
  well_formed (with_mapcounts (<[i := c]> (mapcounts s)) s).
Proof.
  intros (Hlen & Hcounts & Hrest) Hc. split; [|split]; simpl.
  - by rewrite length_insert.
  - apply Forall_insert; done.
  - done.
Qed.

End Lemmas.

(** ** Loops that sweep an array *)

(** A loop that takes the state [F k] to [F (S k)] in iteration [k]. *)
Lemma for_loop_steps {St} (F : nat → St) (n : nat) (body : Z → St → result St) :
  (∀ k, (k < n)%nat → body (Z.of_nat k) (F k) = Ok (F (S k))) →
  for_loop n 0 body (F O) = Ok (F n).
Proof.
  intros Hstep.
  enough (∀ m from, (from + m ≤ n)%nat →
            for_loop m (Z.of_nat from) body (F from) = Ok (F (from + m)%nat))
    as Hgen by exact (Hgen n O (Nat.le_refl _)).
  induction m as [|m IH]; intros from Hle; simpl.
  - by rewrite Nat.add_0_r.
  - rewrite Hstep, bind_Ok by lia.
    replace (Z.of_nat from + 1) with (Z.of_nat (S from)) by lia.
    rewrite IH by lia. do 2 f_equal. lia.
Qed.

(** The array after [k] iterations: the first [k] slots are those of the
    result [l'], the others still those of [l]. *)
Lemma sweep_lookup {A} (l l' : list A) (k : nat) :
  (k ≤ length l')%nat → (take k l' ++ drop k l) !! k = l !! k.
Proof.
  intros Hk. rewrite lookup_app_r; rewrite length_take_le by done; [|done].
  by rewrite Nat.sub_diag, lookup_drop, Nat.add_0_r.
Qed.

Lemma sweep_insert {A} (l l' : list A) (k : nat) (y : A) :
  l' !! k = Some y → (k < length l)%nat →
  <[k := y]> (take k l' ++ drop k l) = take (S k) l' ++ drop (S k) l.
Proof.
  intros Hy Hk. destruct (lookup_lt_is_Some_2 l k Hk) as [x Hx].
  rewrite (take_S_r _ _ _ Hy), (drop_S _ _ _ Hx), <- (assoc_L (++)). simpl.
  pose proof (lookup_lt_Some _ _ _ Hy).
  rewrite insert_app_r_alt; rewrite length_take_le by lia; [|done].
  by rewrite Nat.sub_diag.
Qed.

Lemma sweep_done {A} (l l' : list A) (n : nat) :
  (length l' ≤ n)%nat → (length l ≤ n)%nat → take n l' ++ drop n l = l'.
Proof.
  intros. by rewrite take_ge, drop_ge, app_nil_r.
Qed.

(** ** fork *)

Lemma length_count_pte counts e : length (count_pte counts e) = length counts.
Proof. unfold count_pte. destruct (valid e); [apply length_alter|done]. Qed.

Lemma length_count_directory counts d :
  length (count_directory counts d) = length counts.
Proof.
  unfold count_directory. revert counts.
  induction (ptes d) as [|e es IH]; intros counts; simpl; [done|].
  by rewrite IH, length_count_pte.
Qed.

Lemma length_count_slots counts (os : list (option pte_directory)) :
  length (foldl count_slot counts os) = length counts.
Proof.
  revert counts. induction os as [|o os IH]; intros counts; simpl; [done|].
  rewrite IH. destruct o; [apply length_count_directory|done].
Qed.

Lemma put_same (pt : pagetable) (i j : Z) (d : pte_directory) (e : pte) :
  outer_ptes pt !! Z.to_nat i = Some (Some d) → ptes d !! Z.to_nat j = Some e →
  put_directory i (put_pte j e d) pt = pt.
Proof.
  intros Hd He. unfold put_directory, put_pte.
  rewrite (list_insert_id (ptes d)) by done.
  destruct pt as [os], d as [es]. simpl in *. by rewrite list_insert_id.
Qed.

Section View.
Context {VM : vm_h} {OK : vm_h_ok VM} {LC : libc}.
Context (s : state) (c : nat) (pt0 : pagetable).
Context (Hfocus : focus s = Some (c, pt0)).

Local Abbreviation view := (view s c).

Lemma view_focus pt counts : focus (view pt counts) = Some (c, pt).
Proof. by apply (focus_put_table _ _ pt0). Qed.

Lemma view_initial : s = view pt0 (mapcounts s).
Proof. unfold view. rewrite (put_table_focus _ _ _ Hfocus). by destruct s. Qed.

Lemma view_put_table pt pt' counts :
  put_table c pt' (view pt counts) = view pt' counts.
Proof.
  unfold view.
  change (put_table c pt' (with_mapcounts counts (put_table c pt s)))
    with (with_mapcounts counts (put_table c pt' (put_table c pt s))).
  by rewrite put_table_put_table.
Qed.

Lemma view_load_pte pt counts i j d e :
  0 ≤ i → 0 ≤ j →
  outer_ptes pt !! Z.to_nat i = Some (Some d) → ptes d !! Z.to_nat j = Some e →
  load_pte i j (view pt counts) = Ok e.
Proof. intros. by eapply load_pte_focus; [apply view_focus|..]. Qed.

Lemma view_store_pte pt counts i j d e e' :
  0 ≤ i → 0 ≤ j →
  outer_ptes pt !! Z.to_nat i = Some (Some d) → ptes d !! Z.to_nat j = Some e →
  store_pte i j e' (view pt counts)
  = Ok (view (put_directory i (put_pte j e' d) pt) counts).
Proof.
  intros. erewrite store_pte_focus; [|apply view_focus|done..].
  by rewrite view_put_table.
Qed.

Lemma view_store_mapcount pt counts f cnt cnt' :
  0 ≤ f → counts !! Z.to_nat f = Some cnt →
  store_mapcount f cnt' (view pt counts)
  = Ok (view pt (<[Z.to_nat f := cnt']> counts)).
Proof. intros. by erewrite store_mapcount_ok. Qed.

(** Lines 248-255 for entry [j] of directory [i]. *)
Lemma fork_share_pte_view pt counts i j d e :
  0 ≤ i → 0 ≤ j →
  outer_ptes pt !! Z.to_nat i = Some (Some d) → ptes d !! Z.to_nat j = Some e →
  (valid e = true → 0 ≤ pfn e ∧ (Z.to_nat (pfn e) < length counts)%nat) →
  fork_share_pte i j (view pt counts)
  = Ok (view (put_directory i (put_pte j (share_pte e) d) pt) (count_pte counts e)).
Proof.
  intros Hi Hj Hd He Hframe. unfold fork_share_pte, share_pte, count_pte.
  rewrite (view_load_pte _ _ _ _ _ _ Hi Hj Hd He), bind_Ok.
  destruct (valid e); [|by rewrite (put_same _ _ _ _ _ Hd He)].
  destruct Hframe as [Hp Hlt]; [done|].
  destruct (lookup_lt_is_Some_2 _ _ Hlt) as [cnt Hcnt].
  rewrite (load_mapcount_ok _ _ cnt Hp), bind_Ok by done.
  rewrite (view_store_mapcount _ _ _ cnt), bind_Ok by done.
  rewrite <- (alter_insert (λ c, uint (c + 1))) by done.
  destruct (writable e); [|by rewrite (put_same _ _ _ _ _ Hd He)].
  rewrite (view_store_pte _ _ _ _ _ _ _ Hi Hj Hd He), bind_Ok.
  erewrite view_load_pte;
    [|done|done|by eapply put_directory_lookup|by eapply put_pte_lookup].
  rewrite bind_Ok.
  erewrite view_store_pte;
    [|done|done|by eapply put_directory_lookup|by eapply put_pte_lookup].
  by rewrite put_directory_put_directory, put_pte_put_pte.
Qed.

(** Lines 247-256 for directory [i]. *)
Lemma fork_share_directory_view pt counts i d :
  0 ≤ i →
  outer_ptes pt !! Z.to_nat i = Some (Some d) →
  directory_ok d → length counts = Z.to_nat NR_PAGEFRAMES →
  for_loop (Z.to_nat NR_PTES_PER_PAGE) 0 (fork_share_pte i) (view pt counts)
  = Ok (view (put_directory i (share_directory d) pt) (count_directory counts d)).
Proof.
  intros Hi Hd [Hlen Hframes] Hcounts.
  set (F k := view (put_directory i
                      (PteDirectory (take k (share_pte <$> ptes d) ++ drop k (ptes d))) pt)
                   (foldl count_pte counts (take k (ptes d)))).
  assert (view pt counts = F O) as ->.
  { unfold F. rewrite take_0, drop_0. simpl. f_equal.
    unfold put_directory. destruct d as [es], pt as [os]. simpl in *.
    by rewrite list_insert_id. }
  assert (view (put_directory i (share_directory d) pt) (count_directory counts d)
          = F (Z.to_nat NR_PTES_PER_PAGE)) as ->.
  { unfold F, share_directory, count_directory.
    rewrite sweep_done, take_ge; rewrite ?length_fmap; (done || lia). }
  apply for_loop_steps. intros k Hk. unfold F.
  destruct (lookup_lt_is_Some_2 (ptes d) k) as [e He]; [lia|].
  rewrite (fork_share_pte_view _ _ i (Z.of_nat k)
             (PteDirectory (take k (share_pte <$> ptes d) ++ drop k (ptes d))) e).
  - rewrite put_directory_put_directory. unfold put_pte. simpl.
    rewrite Nat2Z.id, sweep_insert; [|by rewrite list_lookup_fmap, He|lia].
    by rewrite (take_S_r _ _ _ He), foldl_snoc.
  - done.
  - lia.
  - by eapply put_directory_lookup.
  - simpl. rewrite Nat2Z.id, sweep_lookup; [done|]. rewrite length_fmap. lia.
  - intros Hv. rewrite Forall_lookup in Hframes. specialize (Hframes _ _ He Hv).
    simpl in Hframes. split; [lia|].
    assert (length (foldl count_pte counts (take k (ptes d))) = length counts) as ->.
    { apply (length_count_directory counts (PteDirectory (take k (ptes d)))). }
    lia.
Qed.

(** Lines 245-258. *)
Lemma fork_share_view pt counts :
  pagetable_ok pt → length counts = Z.to_nat NR_PAGEFRAMES →
  fork_share (view pt counts)
  = Ok (view (share_pagetable pt) (count_pagetable counts pt)).
Proof.
  intros [Hlen Hslots] Hcounts. unfold fork_share.
  set (G k := view (Pagetable (take k (share_slot <$> outer_ptes pt)
                               ++ drop k (outer_ptes pt)))
                   (foldl count_slot counts (take k (outer_ptes pt)))).
  assert (view pt counts = G O) as ->.
  { unfold G. rewrite take_0, drop_0. simpl. by destruct pt. }
  assert (view (share_pagetable pt) (count_pagetable counts pt)
          = G (Z.to_nat NR_PTES_PER_PAGE)) as ->.
  { unfold G, share_pagetable, count_pagetable.
    rewrite sweep_done, take_ge; rewrite ?length_fmap; (done || lia). }
  apply for_loop_steps. intros k Hk. unfold G.
  destruct (lookup_lt_is_Some_2 (outer_ptes pt) k) as [o Ho]; [lia|].
  assert ((take k (share_slot <$> outer_ptes pt) ++ drop k (outer_ptes pt)) !! k
          = Some o) as Hk'.
  { rewrite sweep_lookup; [done|]. rewrite length_fmap. lia. }
  erewrite load_outer_focus;
    [|apply view_focus|lia|by simpl; rewrite Nat2Z.id].
  rewrite bind_Ok, (take_S_r _ _ _ Ho), foldl_snoc.
  assert ((share_slot <$> outer_ptes pt) !! k = Some (share_slot o)) as Hs.
  { by rewrite list_lookup_fmap, Ho. }
  destruct o as [d|]; simpl.
  - rewrite (fork_share_directory_view _ _ _ d).
    + unfold put_directory. simpl. rewrite Nat2Z.id.
      by rewrite (sweep_insert _ _ _ _ Hs) by lia.
    + lia.
    + by simpl; rewrite Nat2Z.id.
    + rewrite Forall_lookup in Hslots. apply (Hslots _ _ Ho).
    + by rewrite length_count_slots.
  - rewrite <- (sweep_insert _ _ _ _ Hs) by lia.
    by rewrite list_insert_id.
Qed.

(** Lines 261-267. *)
Lemma fork_copy_view pt counts :
  length (outer_ptes pt) = Z.to_nat NR_PTES_PER_PAGE →
  length (outer_ptes malloc_pagetable) = Z.to_nat NR_PTES_PER_PAGE →
  fork_copy (view pt counts)
  = Ok (Pagetable (zip_with copy_slot (outer_ptes pt) (outer_ptes malloc_pagetable))).
Proof.
  intros Hlen Hlen'. unfold fork_copy.
  set (mo := outer_ptes malloc_pagetable) in *.
  set (H k := Pagetable (take k (zip_with copy_slot (outer_ptes pt) mo) ++ drop k mo)).
  assert (malloc_pagetable = H O) as ->.
  { unfold H, mo. rewrite take_0, drop_0. simpl. by destruct malloc_pagetable. }
  assert (Pagetable (zip_with copy_slot (outer_ptes pt) mo)
          = H (Z.to_nat NR_PTES_PER_PAGE)) as ->.
  { unfold H. rewrite sweep_done; rewrite ?length_zip_with; (done || lia). }
  apply for_loop_steps. intros k Hk. unfold H.
  destruct (lookup_lt_is_Some_2 (outer_ptes pt) k) as [o Ho]; [lia|].
  destruct (lookup_lt_is_Some_2 mo k) as [m Hm]; [lia|].
  erewrite load_outer_focus;
    [|apply view_focus|lia|by rewrite Nat2Z.id].
  rewrite bind_Ok. simpl.
  assert ((take k (zip_with copy_slot (outer_ptes pt) mo) ++ drop k mo) !! k
          = Some m) as Hk'.
  { rewrite sweep_lookup; [done|]. rewrite length_zip_with. lia. }
  assert (zip_with copy_slot (outer_ptes pt) mo !! k = Some (copy_slot o m)) as Hz.
  { by rewrite lookup_zip_with, Ho, Hm. }
  rewrite <- (sweep_insert _ _ _ _ Hz) by lia.
  destruct o as [d|]; simpl.
  - erewrite index_ok; [|lia|by rewrite Nat2Z.id]. by rewrite bind_Ok, Nat2Z.id.
  - by rewrite list_insert_id.
Qed.

End View.

(** ** The ready queue leaves the tables alone *)

Lemma same_tables_refl s : same_tables s s.
Proof. done. Qed.

Lemma same_tables_trans s1 s2 s3 :
  same_tables s1 s2 → same_tables s2 s3 → same_tables s1 s3.
Proof. unfold same_tables. intros (?&?&?&?&?) (?&?&?&?&?). by repeat split; etrans. Qed.

Lemma store_list_same n l s s' : store_list n l s = Ok s' → same_tables s s'.
Proof.
  destruct n as [|p]; simpl.
  - by intros [= <-].
  - destruct (load_process p s); [|done]. rewrite bind_Ok. intros [= <-].
    unfold same_tables, tables, pids. simpl. split; [|split]; [| |done].
    + apply list_eq. intros i. rewrite !list_lookup_fmap.
      destruct (decide (p = i)) as [->|].
      * rewrite list_lookup_alter_eq. by destruct (memory s !! i).
      * by rewrite list_lookup_alter_ne.
    + apply list_eq. intros i. rewrite !list_lookup_fmap.
      destruct (decide (p = i)) as [->|].
      * rewrite list_lookup_alter_eq. by destruct (memory s !! i).
      * by rewrite list_lookup_alter_ne.
Qed.

Lemma same_tables_length s s' :
  same_tables s s' → length (memory s') = length (memory s).
Proof.
  intros (Ht & _). apply (f_equal length) in Ht. unfold tables in Ht.
  by rewrite !length_fmap in Ht.
Qed.

Lemma same_tables_node_ok n s s' : same_tables s s' → node_ok n s → node_ok n s'.
Proof.
  intros Hs. destruct n; simpl; [done|]. by rewrite (same_tables_length _ _ Hs).
Qed.

Lemma load_list_ok n s : node_ok n s → ∃ l, load_list n s = Ok l.
Proof.
  destruct n as [|p]; simpl; [eauto|]. intros [pr Hp]%lookup_lt_is_Some_2.
  unfold load_process. rewrite Hp. eauto.
Qed.

Lemma store_list_ok n l s : node_ok n s → ∃ s', store_list n l s = Ok s'.
Proof.
  destruct n as [|p]; simpl; [eauto|]. intros [pr Hp]%lookup_lt_is_Some_2.
  unfold load_process. rewrite Hp. eauto.
Qed.

(** [list_add] returns when its nodes exist, and changes links only. *)
Lemma list_add_returns new s :
  node_ok new s → node_ok (next (processes s)) s →
  ∃ s', list_add new Head s = Ok s' ∧ same_tables s s'.
Proof.
  intros Hnew Hnext. unfold list_add, __list_add.
  change (load_list Head s) with (Ok (processes s)). rewrite bind_Ok.
  destruct (load_list_ok _ _ Hnext) as [l1 ->]. rewrite bind_Ok.
  destruct (store_list_ok _ (set_prev new l1) _ Hnext) as [s1 Hs1].
  rewrite Hs1, bind_Ok. apply store_list_same in Hs1.
  pose proof (same_tables_node_ok _ _ _ Hs1 Hnew) as Hnew1.
  destruct (load_list_ok _ _ Hnew1) as [l2 ->]. rewrite bind_Ok.
  destruct (store_list_ok _ (set_next (next (processes s)) l2) _ Hnew1) as [s2 Hs2].
  rewrite Hs2, bind_Ok. apply store_list_same in Hs2.
  pose proof (same_tables_node_ok _ _ _ Hs2 Hnew1) as Hnew2.
  destruct (load_list_ok _ _ Hnew2) as [l3 ->]. rewrite bind_Ok.
  destruct (store_list_ok _ (set_prev Head l3) _ Hnew2) as [s3 Hs3].
  rewrite Hs3, bind_Ok. apply store_list_same in Hs3.
  change (load_list Head s3) with (Ok (processes s3)). rewrite bind_Ok.
  change (store_list Head ?l s3) with (Ok (with_processes l s3)).
  eexists. split; [done|].
  eapply same_tables_trans; [|by eapply (store_list_same Head)].
  eapply same_tables_trans; [|exact Hs3].
  eapply same_tables_trans; [exact Hs1|exact Hs2].
Qed.

Lemma list_add_same new head s s' :
  list_add new head s = Ok s' → same_tables s s'.
Proof.
  unfold list_add, __list_add.
  destruct (load_list head s) as [h|]; [|done]. rewrite bind_Ok.
  destruct (load_list (next h) s) as [l1|]; [|done]. rewrite bind_Ok.
  destruct (store_list _ _ s) as [s1|] eqn:Hs1; [|done]. rewrite bind_Ok.
  destruct (load_list new s1) as [l2|]; [|done]. rewrite bind_Ok.
  destruct (store_list _ _ s1) as [s2|] eqn:Hs2; [|done]. rewrite bind_Ok.
  destruct (load_list new s2) as [l3|]; [|done]. rewrite bind_Ok.
  destruct (store_list _ _ s2) as [s3|] eqn:Hs3; [|done]. rewrite bind_Ok.
  destruct (load_list head s3) as [l4|]; [|done]. rewrite bind_Ok.
  intros Hs4. apply store_list_same in Hs1, Hs2, Hs3, Hs4.
  eapply same_tables_trans; [|done].
  eapply same_tables_trans; [|done].
  eapply same_tables_trans; [exact Hs1|exact Hs2].
Qed.

(** A walk that ends started at the head or at a process. *)
Lemma list_for_each_entry_node_ok fuel wanted pos s r :
  list_for_each_entry fuel wanted pos s = Ok r → node_ok pos s.
Proof.
  destruct pos as [|p]; [done|]. destruct fuel as [|fuel]; [done|]. simpl.
  unfold load_process. destruct (memory s !! p) eqn:E; [|done].
  intros _. by eapply lookup_lt_Some.
Qed.

Lemma list_for_each_entry_found fuel wanted pos s p :
  list_for_each_entry fuel wanted pos s = Ok (Some p) →
  (p < length (memory s))%nat.
Proof.
  revert pos. induction fuel as [|fuel IH]; intros [|q]; simpl; try done.
  unfold load_process. destruct (memory s !! q) as [pr|] eqn:E; [|done].
  rewrite bind_Ok. destruct (pid pr =? wanted).
  - intros [= <-]. by eapply lookup_lt_Some.
  - apply IH.
Qed.

Lemma pte_of_tables (p : nat) (vpn : Z) (s : state) `{VM : vm_h} :
  pte_of p vpn s = (pt ← tables s !! p; pte_at pt vpn).
Proof.
  unfold pte_of, tables. rewrite list_lookup_fmap. by destruct (memory s !! p).
Qed.

Lemma tables_put_table (c : nat) (pt : pagetable) (s : state) :
  tables (put_table c pt s) = <[c := pt]> (tables s).
Proof.
  unfold tables, put_table. simpl. apply list_eq. intros i.
  rewrite list_lookup_fmap. destruct (decide (c = i)) as [->|Hne].
  - rewrite list_lookup_alter_eq.
    destruct (memory s !! i) as [pr|] eqn:E; simpl.
    + rewrite list_lookup_insert_eq; [done|].
      rewrite length_fmap. by eapply lookup_lt_Some.
    + rewrite list_insert_ge; [by rewrite list_lookup_fmap, E|].
      rewrite length_fmap. by apply lookup_ge_None.
  - by rewrite list_lookup_alter_ne, list_lookup_insert_ne, list_lookup_fmap.
Qed.

Section Fork.
Context {VM : vm_h} {OK : vm_h_ok VM} {LC : libc}.

(** The fork path returns, and leaves the shared table with the parent,
    a copy of it with the child, and one more reference for each valid
    entry. *)
Lemma fork_returns (wanted : Z) (s : state) (pt : pagetable) :
  length (outer_ptes malloc_pagetable) = Z.to_nat NR_PTES_PER_PAGE →
  well_formed s → focus s = Some (current s, pt) →
  node_ok (next (processes s)) s →
  ∃ s', fork wanted s = Ok s' ∧
    tables s' = <[current s := share_pagetable pt]> (tables s) ++ [child_pagetable pt] ∧
    pids s' = pids s ++ [wanted] ∧
    mapcounts s' = count_pagetable (mapcounts s) pt ∧
    current s' = length (memory s) ∧
    ptbr s' = Some (length (memory s)).
Proof.
  intros Hsz Hwf Hf Hnext. unfold fork.
  destruct (well_formed_focus _ Hwf) as (pt' & Hf' & Hpt).
  assert (pt' = pt) as -> by congruence. clear Hf'.
  destruct Hwf as (Hlen & _ & _ & Hcur & _).
  assert (fork_share s
          = Ok (view s (current s) (share_pagetable pt)
                  (count_pagetable (mapcounts s) pt))) as ->.
  { transitivity (fork_share (view s (current s) pt (mapcounts s))).
    - by rewrite <- (view_initial s _ _ Hf).
    - by apply (fork_share_view s _ _ Hf). }
  rewrite bind_Ok.
  rewrite (fork_copy_view s _ _ Hf);
    [|by unfold share_pagetable; simpl; rewrite length_fmap; apply Hpt|done].
  rewrite bind_Ok. fold (child_pagetable pt).
  set (s1 := view s (current s) (share_pagetable pt) (count_pagetable (mapcounts s) pt)).
  set (s2 := with_memory _ s1).
  assert (length (memory s1) = length (memory s)) as Hlen1.
  { unfold s1, view, put_table. simpl. apply length_alter. }
  destruct (list_add_returns (Member (current s2)) s2) as (s3 & -> & Hsame).
  { simpl. rewrite length_app, length_alter. lia. }
  { unfold node_ok in *. simpl. destruct (next (processes s)); [done|].
    rewrite length_app, length_alter. lia. }
  rewrite bind_Ok. eexists. split; [done|].
  destruct Hsame as (Ht & Hp & Hm & _ & _).
  unfold tables, pids in *. simpl in Ht, Hp, Hm |- *.
  rewrite Ht, Hp, Hm, !fmap_app, length_alter. simpl.
  split; [|split; [|done]].
  - f_equal. apply (tables_put_table (current s) (share_pagetable pt) s).
  - f_equal. apply list_eq. intros i. rewrite !list_lookup_fmap.
    destruct (decide (current s = i)) as [->|].
    + rewrite list_lookup_alter_eq. by destruct (memory s !! i).
    + by rewrite list_lookup_alter_ne.
Qed.

Lemma pte_at_share (pt : pagetable) (vpn : Z) (e : pte) :
  pte_at pt vpn = Some e → pte_at (share_pagetable pt) vpn = Some (share_pte e).
Proof.
  intros (Hv & d & Hd & He)%pte_at_inv.
  rewrite (pte_at_intro _ _ (share_directory d) Hv).
  - simpl. by rewrite list_lookup_fmap, He.
  - simpl. by rewrite list_lookup_fmap, Hd.
Qed.

Lemma pte_at_child (pt : pagetable) (vpn : Z) (e : pte) :
  length (outer_ptes malloc_pagetable) = length (outer_ptes pt) →
  pte_at (share_pagetable pt) vpn = Some e →
  pte_at (child_pagetable pt) vpn = Some e.
Proof.
  intros Hlen (Hv & d & Hd & He)%pte_at_inv.
  rewrite (pte_at_intro _ _ d Hv); [done|]. simpl in *.
  destruct (lookup_lt_is_Some_2 (outer_ptes malloc_pagetable)
              (Z.to_nat (vpn / NR_PTES_PER_PAGE))) as [m Hm].
  { apply lookup_lt_Some in Hd. rewrite length_fmap in Hd. lia. }
  by rewrite lookup_zip_with, Hd, Hm.
Qed.

End Fork.

(** ** Counting references *)

Lemma sum_list_with_insert {A} (g : A → nat) (l : list A) (i : nat) (x y : A) :
  l !! i = Some x →
  (sum_list_with g (<[i := y]> l) + g x = sum_list_with g l + g y)%nat.
Proof.
  revert i. induction l as [|a l IH]; intros [|i] Hi; simplify_eq/=; [lia|].
  specialize (IH _ Hi). lia.
Qed.

Lemma sum_list_with_zero {A} (g : A → nat) (l : list A) :
  Forall (λ x, g x = 0%nat) l → sum_list_with g l = 0%nat.
Proof. induction 1 as [|x l Hx _ IH]; simpl; [done|]. by rewrite Hx, IH. Qed.

Lemma sum_list_with_ext_Forall {A} (g h : A → nat) (l : list A) :
  Forall (λ x, g x = h x) l → sum_list_with g l = sum_list_with h l.
Proof. induction 1 as [|x l Hx _ IH]; simpl; [done|]. by rewrite Hx, IH. Qed.

Lemma sum_list_with_fmap {A B} (g : B → nat) (h : A → B) (l : list A) :
  sum_list_with g (h <$> l) = sum_list_with (g ∘ h) l.
Proof. induction l as [|x l IH]; csimpl; [done|]. by rewrite IH. Qed.

Lemma directory_refs_put (f : Z) (d : pte_directory) (j : Z) (e e' : pte) :
  ptes d !! Z.to_nat j = Some e →
  (directory_refs f (put_pte j e' d) + pte_refs f e
   = directory_refs f d + pte_refs f e')%nat.
Proof. intros He. by apply sum_list_with_insert. Qed.

Lemma pagetable_refs_put (f : Z) (pt : pagetable) (i : Z) (o : option pte_directory)
    (d : pte_directory) :
  outer_ptes pt !! Z.to_nat i = Some o →
  (pagetable_refs f (put_directory i d pt) + slot_refs f o
   = pagetable_refs f pt + directory_refs f d)%nat.
Proof. intros Ho. by apply (sum_list_with_insert (slot_refs f) _ _ _ (Some d)). Qed.

Lemma references_put (f : Z) (s : state) (c : nat) (pt pt' : pagetable) :
  focus s = Some (c, pt) →
  (references f (put_table c pt' s) + pagetable_refs f pt
   = references f s + pagetable_refs f pt')%nat.
Proof.
  intros (_ & pr & Hm & <-)%focus_inv. unfold references.
  rewrite tables_put_table. apply sum_list_with_insert.
  unfold tables. by rewrite list_lookup_fmap, Hm.
Qed.

Lemma state_all_pte_of `{VM : vm_h} (P : pte → Prop) (s : state) (p : nat) (vpn : Z) (e : pte) :
  state_all P s → pte_of p vpn s = Some e → P e.
Proof.
  intros Hall. rewrite pte_of_tables.
  destruct (tables s !! p) as [pt|] eqn:Hp; [|done]. simpl.
  intros (_ & d & Hd & He)%pte_at_inv.
  unfold state_all in Hall. rewrite Forall_lookup in Hall.
  specialize (Hall _ _ Hp). unfold pagetable_all in Hall.
  rewrite Forall_lookup in Hall. specialize (Hall _ _ Hd). simpl in Hall.
  rewrite Forall_lookup in Hall. by apply (Hall _ _ He).
Qed.

Lemma pagetable_all_put (P : pte → Prop) (pt : pagetable) (i j : Z)
    (d : pte_directory) (e' : pte) :
  pagetable_all P pt → Forall P (ptes d) → P e' →
  pagetable_all P (put_directory i (put_pte j e' d) pt).
Proof.
  intros Hpt Hd He'. unfold pagetable_all, put_directory. simpl.
  apply Forall_insert; [done|]. simpl. by apply Forall_insert.
Qed.

Lemma state_all_put (P : pte → Prop) (s : state) (c : nat) (pt' : pagetable) :
  state_all P s → pagetable_all P pt' → state_all P (put_table c pt' s).
Proof.
  intros Hs Hpt. unfold state_all. rewrite tables_put_table.
  by apply Forall_insert.
Qed.

Lemma state_all_focus (P : pte → Prop) (s : state) (c : nat) (pt : pagetable) :
  state_all P s → focus s = Some (c, pt) → pagetable_all P pt.
Proof.
  intros Hs (_ & pr & Hm & <-)%focus_inv. unfold state_all in Hs.
  rewrite Forall_lookup in Hs. apply (Hs c). unfold tables.
  by rewrite list_lookup_fmap, Hm.
Qed.

Lemma pagetable_all_slot (P : pte → Prop) (pt : pagetable) (i : nat) (d : pte_directory) :
  pagetable_all P pt → outer_ptes pt !! i = Some (Some d) → Forall P (ptes d).
Proof.
  unfold pagetable_all. rewrite Forall_lookup. intros Hpt Hd. apply (Hpt _ _ Hd).
Qed.

(** ** What the operations do to a well-formed state *)

Section Effects.
Context {VM : vm_h} {OK : vm_h_ok VM} {LC : libc}.

Lemma alloc_page_effect (vpn rw : Z) (s : state) :
  libc_sized LC → well_formed s → 0 ≤ vpn →
  ∃ r s', alloc_page vpn rw s = Ok (r, s') ∧
    (s' = s ∧ alloc_idle vpn s ∨ maps_page vpn rw r s s').
Proof.
  intros [Hsz _] Hwf Hv. destruct (well_formed_focus _ Hwf) as (pt & Hf & Hpt).
  destruct Hwf as (Hlen & _ & _ & _ & _). pose proof frames_range as HN.
  destruct (decide (Z.of_nat (frames_in_use (mapcounts s)) = NR_PAGEFRAMES - 1)) as [Hn|Hn].
  { rewrite (alloc_page_gives_up _ _ _ _ Hf Hn). eexists _, _. split; [done|].
    left. split; [done|]. by left. }
  destruct (decide (vpn / NR_PTES_PER_PAGE < NR_PTES_PER_PAGE)) as [Hi|Hi].
  - pose proof (div_mod_nonneg _ Hv) as [Hi0 Hj0].
    destruct (pagetable_ok_slot _ (vpn / NR_PTES_PER_PAGE) Hpt) as (o & Ho & Hok); [lia|].
    assert (length (ptes (default malloc_pte_directory o)) = Z.to_nat NR_PTES_PER_PAGE) as Hd.
    { destruct o as [d|]; [apply Hok|done]. }
    destruct (directory_ok_entry _ _ Hd (mod_range vpn)) as [e He].
    assert (mapcounts s ≠ []) as Hne.
    { intros E. rewrite E in Hlen. simpl in Hlen. lia. }
    pose proof (search_pfn_range _ Hne) as Hr.
    destruct (lookup_lt_is_Some_2 (mapcounts s)
                (Z.to_nat (search_pfn (marking (mapcounts s))))) as [cnt Hc]; [lia|].
    rewrite (alloc_page_maps _ rw _ _ _ _ _ Hf Hn Hv Hi Ho He Hc).
    eexists _, _. split; [done|]. right. exists pt, o, e, cnt.
    repeat split; try done; try lia.
    apply focus_inv in Hf as (_ & pr & Hm & <-). unfold pte_of, pte_at.
    rewrite Hm. simpl. rewrite Ho. destruct (Z.ltb_spec vpn 0); [lia|].
    by destruct o.
  - rewrite (alloc_page_outside _ _ _ _ Hf Hn Hv) by lia.
    eexists _, _. split; [done|]. left. split; [done|]. right. lia.
Qed.

(** Outside the case of line 82, [alloc_page] returns the lowest frame
    whose count is zero. *)
Lemma alloc_page_lowest_free (vpn rw k : Z) (s : state) :
  libc_sized LC → well_formed s → 0 ≤ vpn →
  Z.of_nat (frames_in_use (mapcounts s)) ≠ NR_PAGEFRAMES - 1 →
  mapcount k s = Some 0 →
  (∀ j, 0 ≤ j < k → ∃ c, mapcount j s = Some c ∧ 0 < c) →
  ∃ s', alloc_page vpn rw s = Ok (k, s').
Proof.
  intros Hsz Hwf Hv Hn [Hk0 Hk]%mapcount_inv Hlow.
  assert (search_pfn (marking (mapcounts s)) = k) as Hsearch.
  { rewrite (search_pfn_lowest _ (Z.to_nat k) 0); [lia|done|done|].
    intros m Hm. destruct (Hlow (Z.of_nat m)) as (c & Hc & Hpos); [lia|].
    rewrite mapcount_intro, Nat2Z.id in Hc by lia. eauto. }
  destruct (alloc_page_effect vpn rw s Hsz Hwf Hv) as (r & s' & Ha & Heff).
  exists s'. rewrite Ha. do 2 f_equal. rewrite <- Hsearch.
  destruct (well_formed_focus _ Hwf) as (pt & Hf & _).
  destruct Heff as [[-> [Hidle|Hidle]]|(pt1 & o & e & cnt & Hf1 & Ho & He & _ & _ & Hc & ->)].
  - done.
  - rewrite (alloc_page_outside _ _ _ _ Hf Hn Hv Hidle) in Ha. congruence.
  - assert (pt1 = pt) as -> by congruence.
    pose proof (div_mod_nonneg _ Hv) as [Hi0 _].
    destruct (decide (vpn / NR_PTES_PER_PAGE < NR_PTES_PER_PAGE)) as [Hi|Hi].
    + destruct (lookup_lt_is_Some_2 (mapcounts s)
                  (Z.to_nat (search_pfn (marking (mapcounts s))))) as [cnt' Hc'].
      { rewrite Hsearch. by eapply lookup_lt_Some. }
      rewrite (alloc_page_maps _ rw _ _ _ _ _ Hf Hn Hv Hi Ho He Hc') in Ha.
      congruence.
    + rewrite (alloc_page_outside _ _ _ _ Hf Hn Hv) in Ha by lia. congruence.
Qed.

(** With every frame in use the test of line 82 fails, the search of
    lines 85-90 finds nothing, and [alloc_page] returns frame 0; a page
    within the table is mapped to it. *)
Lemma alloc_page_all_in_use (vpn rw : Z) (s : state) :
  libc_sized LC → well_formed s → 0 ≤ vpn →
  Forall (λ c, 0 < c) (mapcounts s) →
  ∃ s', alloc_page vpn rw s = Ok (0, s') ∧
    (vpn / NR_PTES_PER_PAGE < NR_PTES_PER_PAGE → maps_page vpn rw 0 s s').
Proof.
  intros Hsz Hwf Hv Hall. pose proof frames_range as HN.
  pose proof Hwf as (Hlen & _).
  assert (Z.of_nat (frames_in_use (mapcounts s)) ≠ NR_PAGEFRAMES - 1) as Hn.
  { rewrite (frames_in_use_all _ Hall), Hlen. lia. }
  destruct (well_formed_focus _ Hwf) as (pt & Hf & _).
  destruct (alloc_page_effect vpn rw s Hsz Hwf Hv) as (r & s' & Ha & Heff).
  assert (r = 0) as ->.
  { rewrite <- (search_pfn_none _ Hall).
    destruct Heff as [[-> [Hidle|Hidle]]|(pt1 & o & e & cnt & Hf1 & Ho & He & _ & _ & Hc & ->)].
    - done.
    - rewrite (alloc_page_outside _ _ _ _ Hf Hn Hv Hidle) in Ha. congruence.
    - assert (pt1 = pt) as -> by congruence.
      destruct (decide (vpn / NR_PTES_PER_PAGE < NR_PTES_PER_PAGE)) as [Hi|Hi].
      + destruct (lookup_lt_is_Some_2 (mapcounts s)
                    (Z.to_nat (search_pfn (marking (mapcounts s))))) as [cnt' Hc'].
        { rewrite (search_pfn_none _ Hall), Hlen. lia. }
        rewrite (alloc_page_maps _ rw _ _ _ _ _ Hf Hn Hv Hi Ho He Hc') in Ha.
        congruence.
      + rewrite (alloc_page_outside _ _ _ _ Hf Hn Hv) in Ha by lia. congruence. }
  exists s'. split; [done|]. intros Hi.
  destruct Heff as [[_ [Hidle|Hidle]]|Hmaps]; [done|lia|done].
Qed.

Lemma frame_ok_malloc :
  libc_cleared LC → Forall frame_ok (ptes malloc_pte_directory).
Proof.
  intros (_ & _ & Hdir & _). eapply Forall_impl; [exact Hdir|].
  intros e [Hv _] Hv'. congruence.
Qed.

Lemma pagetable_ok_put (pt : pagetable) (i j : Z) (d : pte_directory) (e' : pte) :
  pagetable_ok pt → directory_ok d → frame_ok e' →
  pagetable_ok (put_directory i (put_pte j e' d) pt).
Proof.
  intros [Hlen Hslots] [Hlend Hd] He'. split; simpl.
  - by rewrite length_insert.
  - apply Forall_insert; [done|]. split; simpl.
    + by rewrite length_insert.
    + by apply Forall_insert.
Qed.

Lemma well_formed_put_table (s : state) (pt' : pagetable) :
  well_formed s → pagetable_ok pt' → well_formed (put_table (current s) pt' s).
Proof.
  intros (Hlen & Hcounts & Htables & Hcur & Hptbr) Hpt'.
  repeat split; simpl; try done.
  - rewrite Forall_lookup. intros p pr Hp.
    destruct (decide (current s = p)) as [<-|Hne].
    + rewrite list_lookup_alter_eq in Hp.
      destruct (memory s !! current s); simplify_eq/=. apply Hpt'.
    + rewrite list_lookup_alter_ne in Hp by done.
      rewrite Forall_lookup in Htables. apply (Htables _ _ Hp).
  - by rewrite length_alter.
Qed.

Lemma uint_range (z : Z) : 0 ≤ uint z < UINT_MOD.
Proof. unfold uint. apply Z.mod_pos_bound. done. Qed.

Lemma slot_ok_default (o : option pte_directory) :
  libc_sized LC → libc_cleared LC → slot_ok o →
  directory_ok (default malloc_pte_directory o).
Proof.
  intros [Hsz _] Hcl Hok. destruct o as [d|]; [done|]. simpl.
  split; [done|]. by apply frame_ok_malloc.
Qed.

Lemma well_formed_maps_page (vpn rw r : Z) (s s' : state) :
  libc_sized LC → libc_cleared LC →
  well_formed s → maps_page vpn rw r s s' → well_formed s'.
Proof.
  intros Hsz Hcl Hwf (pt & o & e & cnt & Hf & Ho & He & _ & Hr & Hc & ->).
  destruct (well_formed_focus _ Hwf) as (pt' & Hf' & Hpt).
  assert (pt' = pt) as -> by congruence. unfold mapped.
  apply (well_formed_store_mapcount (put_table _ _ s)); [|apply uint_range].
  apply well_formed_put_table; [done|].
  apply pagetable_ok_put; [done| |by intros _].
  apply slot_ok_default; [done..|].
  destruct Hpt as [_ Hslots]. rewrite Forall_lookup in Hslots. by eapply Hslots.
Qed.

(** *** free_page *)

Lemma free_page_outside (vpn : Z) (s : state) :
  0 ≤ vpn → NR_PTES_PER_PAGE ≤ vpn / NR_PTES_PER_PAGE → free_page vpn s = Ok s.
Proof.
  intros Hv Hi. unfold free_page. pose proof ptes_range.
  rewrite (for_loop_select _ _ (vpn / NR_PTES_PER_PAGE)).
  - by rewrite decide_False by lia.
  - intros j s' Hj. destruct (in_directory vpn j) eqn:Ed; [|done].
    by apply in_directory_spec in Ed.
Qed.

Lemma pte_of_current (s : state) (pt : pagetable) (vpn : Z) :
  focus s = Some (current s, pt) → pte_of (current s) vpn s = pte_at pt vpn.
Proof.
  intros (_ & pr & Hm & <-)%focus_inv. unfold pte_of. by rewrite Hm.
Qed.

Lemma free_page_effect (vpn : Z) (s s' : state) :
  well_formed s → 0 ≤ vpn → free_page vpn s = Ok s' →
  s' = s ∨ unmaps_page vpn s s'.
Proof.
  intros Hwf Hv. destruct (well_formed_focus _ Hwf) as (pt & Hf & Hpt).
  destruct (decide (vpn / NR_PTES_PER_PAGE < NR_PTES_PER_PAGE)) as [Hi|Hi].
  2: { rewrite free_page_outside by lia. intros [= <-]. by left. }
  pose proof (div_mod_nonneg _ Hv) as [Hi0 Hj0].
  destruct (pagetable_ok_slot _ (vpn / NR_PTES_PER_PAGE) Hpt) as (o & Ho & Hok); [lia|].
  destruct o as [d|].
  2: { by rewrite (free_page_null_directory _ _ _ _ Hf Hv Hi Ho). }
  destruct Hok as [Hlen _].
  destruct (directory_ok_entry _ _ Hlen (mod_range vpn)) as [e He].
  destruct (load_mapcount (pfn e) s) as [cnt|err] eqn:Hc.
  - apply index_inv in Hc as [Hp Hc].
    rewrite (free_page_unmaps _ _ _ _ _ _ _ Hf Hv Hi Ho He Hp Hc).
    intros [= <-]. right. exists pt, d, e, cnt. repeat split; try done.
    by rewrite (pte_of_current _ _ _ Hf), (pte_at_intro _ _ _ Hv Ho).
  - rewrite free_page_select by done. unfold free_unmap.
    by rewrite (load_pte_focus _ _ _ _ _ _ _ Hf Hi0 Hj0 Ho He), bind_Ok, Hc.
Qed.

(** *** handle_page_fault *)

Lemma handle_page_fault_effect (vpn rw : Z) (s s' : state) (b : bool) :
  well_formed s → 0 ≤ vpn → handle_page_fault vpn rw s = Ok (b, s') →
  s' = s ∨ populates_page vpn rw s s' ∨ promotes_page vpn s s'
  ∨ duplicates_page vpn rw s s'.
Proof.
  intros Hwf Hv. destruct (well_formed_focus _ Hwf) as (pt & Hf & Hpt).
  pose proof Hwf as (_ & _ & _ & _ & Hptbr).
  pose proof (div_mod_nonneg _ Hv) as [Hi0 Hj0].
  destruct (outer_ptes pt !! Z.to_nat (vpn / NR_PTES_PER_PAGE)) as [o|] eqn:Ho.
  2: { unfold handle_page_fault, load_outer. rewrite Hptbr.
       rewrite (load_ptbr_focus _ _ _ Hf), bind_Ok. unfold index.
       destruct (Z.ltb_spec (vpn / NR_PTES_PER_PAGE) 0); [lia|]. by rewrite Ho. }
  pose proof (pte_of_current _ _ vpn Hf) as Hof.
  destruct o as [d|].
  2: { unfold handle_page_fault. rewrite Hptbr.
       rewrite (load_outer_focus _ _ _ _ _ Hf Hi0 Ho), bind_Ok.
       unfold alloc_and_resolve.
       destruct (alloc_page vpn rw s) as [[r s'']|] eqn:Ha; [|done].
       rewrite bind_Ok. intros [= _ <-]. right. left. split; [|eauto].
       intros e. rewrite Hof. unfold pte_at. rewrite Ho.
       by destruct (vpn <? 0). }
  pose proof (pagetable_ok_range _ _ _ Hpt Hi0 Ho) as [Hi [Hlen _]].
  destruct (directory_ok_entry _ _ Hlen (mod_range vpn)) as [e He].
  rewrite (pte_at_intro _ _ _ Hv Ho), He in Hof.
  destruct (valid e) eqn:Hvalid.
  2: { unfold handle_page_fault. rewrite Hptbr.
       rewrite (load_outer_focus _ _ _ _ _ Hf Hi0 Ho), bind_Ok.
       rewrite (index_ok _ _ _ Hj0 He), bind_Ok, Hvalid. simpl.
       unfold alloc_and_resolve.
       destruct (alloc_page vpn rw s) as [[r s'']|] eqn:Ha; [|done].
       rewrite bind_Ok. intros [= _ <-]. right. left. split; [|eauto].
       intros e'. rewrite Hof. intros [= <-]. done. }
  rewrite (handle_page_fault_valid _ _ _ _ _ _ _ Hf Hv Ho He Hvalid).
  destruct (Z.eqb_spec rw RW_WRITE) as [->|]; simpl; [|intros [= _ <-]; by left].
  destruct (writable e) eqn:Hwr; simpl; [intros [= _ <-]; by left|].
  destruct (private e) eqn:Hpriv; simpl; [|intros [= _ <-]; by left].
  destruct (load_mapcount (pfn e) s) as [cnt|] eqn:Hc; [|done].
  rewrite bind_Ok. apply index_inv in Hc as [Hp Hc].
  destruct (Z.ltb_spec 1 cnt) as [Hgt|Hle].
  - rewrite (store_mapcount_ok _ _ _ _ Hp Hc), bind_Ok. unfold alloc_and_resolve.
    destruct (alloc_page _ _ _) as [[r s'']|] eqn:Ha; [|done].
    rewrite bind_Ok. intros [= _ <-]. do 3 right.
    exists e, cnt, r. repeat split; try done. by rewrite mapcount_intro.
  - intros [= _ <-]. right. right. left. by exists pt, d, e.
Qed.

(** *** switch_process *)

Lemma switch_process_effect (fuel : nat) (wanted : Z) (s s' : state) :
  libc_sized LC → well_formed s →
  switch_process fuel wanted s = Ok s' → switches s s' ∨ forks s s'.
Proof.
  intros [_ Hsz] Hwf. unfold switch_process.
  destruct (list_for_each_entry _ _ _ _) as [[p|]|] eqn:Hwalk; [| |done];
    rewrite bind_Ok.
  - destruct (list_add _ _ _) as [s0|] eqn:Hadd; [|done]. rewrite bind_Ok.
    intros [= <-]. left. exists p, s0. split; [|split; [|done]].
    + by eapply list_for_each_entry_found.
    + by eapply list_add_same.
  - destruct (well_formed_focus _ Hwf) as (pt & Hf & Hpt).
    destruct (fork_returns wanted s pt Hsz Hwf Hf) as (s'' & -> & Ht & _ & Hm & Hc & Hb).
    { by eapply list_for_each_entry_node_ok. }
    intros [= <-]. right. by exists pt.
Qed.

(** *** Well-formedness is kept *)

Lemma well_formed_tables (s : state) :
  well_formed s ↔
    length (mapcounts s) = Z.to_nat NR_PAGEFRAMES ∧
    Forall (λ c, 0 ≤ c < UINT_MOD) (mapcounts s) ∧
    Forall pagetable_ok (tables s) ∧
    (current s < length (tables s))%nat ∧
    ptbr s = Some (current s).
Proof.
  unfold well_formed, tables. by rewrite Forall_fmap, length_fmap.
Qed.

Lemma focus_slot_ok (s : state) (pt : pagetable) (i : nat) (o : option pte_directory) :
  well_formed s → focus s = Some (current s, pt) →
  outer_ptes pt !! i = Some o → pagetable_ok pt ∧ slot_ok o.
Proof.
  intros Hwf Hf Ho. destruct (well_formed_focus _ Hwf) as (pt' & Hf' & Hpt).
  assert (pt' = pt) as -> by congruence. split; [done|].
  destruct Hpt as [_ Hslots]. rewrite Forall_lookup in Hslots. by eapply Hslots.
Qed.

Lemma well_formed_unmaps_page (vpn : Z) (s s' : state) :
  libc_cleared LC → well_formed s → unmaps_page vpn s s' → well_formed s'.
Proof.
  intros (Hinv & _) Hwf (pt & d & e & cnt & Hf & Hd & He & _ & Hp & Hc & ->).
  destruct (focus_slot_ok _ _ _ _ Hwf Hf Hd) as [Hpt Hok].
  assert (0 ≤ released cnt < UINT_MOD) as Hrel.
  { destruct Hwf as (_ & Hcounts & _). rewrite Forall_lookup in Hcounts.
    specialize (Hcounts _ _ Hc). simpl in Hcounts. unfold released.
    destruct (Z.ltb_spec 1 cnt); [lia|]. destruct (Z.eqb_spec cnt 1); lia. }
  unfold unmapped.
  apply (well_formed_put_table (with_mapcounts _ s)).
  - by apply well_formed_store_mapcount.
  - apply pagetable_ok_put; [done..|]. intros Hv. congruence.
Qed.

Lemma well_formed_promotes_page (vpn : Z) (s s' : state) :
  well_formed s → promotes_page vpn s s' → well_formed s'.
Proof.
  intros Hwf (pt & d & e & Hf & Hd & He & Hvalid & ->).
  destruct (focus_slot_ok _ _ _ _ Hwf Hf Hd) as [Hpt Hok].
  apply well_formed_put_table; [done|]. apply pagetable_ok_put; [done..|].
  destruct Hok as [_ Hframes]. rewrite Forall_lookup in Hframes.
  intros _. apply (Hframes _ _ He Hvalid).
Qed.

Lemma well_formed_alloc_page (vpn rw r : Z) (s s' : state) :
  libc_sized LC → libc_cleared LC → well_formed s → 0 ≤ vpn →
  alloc_page vpn rw s = Ok (r, s') → well_formed s'.
Proof.
  intros Hsz Hcl Hwf Hv Ha.
  destruct (alloc_page_effect vpn rw s Hsz Hwf Hv) as (r' & s'' & Ha' & Heff).
  rewrite Ha in Ha'. injection Ha' as <- <-.
  destruct Heff as [[-> _]|Hmaps]; [done|]. by eapply well_formed_maps_page.
Qed.

Lemma well_formed_duplicates_page (vpn rw : Z) (s s' : state) :
  libc_sized LC → libc_cleared LC → well_formed s → 0 ≤ vpn →
  duplicates_page vpn rw s s' → well_formed s'.
Proof.
  intros Hsz Hcl Hwf Hv (e & cnt & r & _ & _ & _ & _ & _ & [_ Hc]%mapcount_inv & Hgt & Ha).
  eapply well_formed_alloc_page; [done..| |done|exact Ha].
  apply well_formed_store_mapcount; [done|].
  destruct Hwf as (_ & Hcounts & _). rewrite Forall_lookup in Hcounts.
  specialize (Hcounts _ _ Hc). simpl in Hcounts. lia.
Qed.

Lemma well_formed_switches (s s' : state) :
  well_formed s → switches s s' → well_formed s'.
Proof.
  intros Hwf (p & s0 & Hp & (Ht & _ & Hm & _ & _) & ->).
  apply well_formed_tables in Hwf as (Hlen & Hcounts & Htables & _ & _).
  apply well_formed_tables. simpl.
  change (tables (with_ptbr _ (with_current _ s0))) with (tables s0).
  rewrite Ht, Hm. repeat split; try done.
  unfold tables. by rewrite length_fmap.
Qed.

Lemma frame_ok_share (e : pte) : frame_ok e → frame_ok (share_pte e).
Proof.
  unfold frame_ok, share_pte. destruct (valid e) eqn:Hv; [|by rewrite Hv].
  destruct (writable e); simpl; [|by rewrite Hv]. auto.
Qed.

Lemma pagetable_ok_share (pt : pagetable) :
  pagetable_ok pt → pagetable_ok (share_pagetable pt).
Proof.
  intros [Hlen Hslots]. split; simpl; [by rewrite length_fmap|].
  apply Forall_fmap. eapply Forall_impl; [exact Hslots|].
  intros [d|]; simpl; [|done]. intros [Hlend Hframes]. split; simpl.
  - by rewrite length_fmap.
  - apply Forall_fmap. eapply Forall_impl; [exact Hframes|].
    intros e. apply frame_ok_share.
Qed.

Lemma zip_with_copy_slot (os ms : list (option pte_directory)) :
  length ms = length os → Forall (λ m, m = None) ms →
  zip_with copy_slot os ms = os.
Proof.
  revert ms. induction os as [|o os IH]; intros [|m ms] Hlen Hall;
    simplify_eq/=; [done|].
  apply Forall_cons in Hall as [-> Hall]. rewrite IH by done. by destruct o.
Qed.

(** With cleared blocks from malloc the child's table is the parent's. *)
Lemma child_pagetable_cleared (pt : pagetable) :
  libc_sized LC → libc_cleared LC → pagetable_ok pt →
  child_pagetable pt = share_pagetable pt.
Proof.
  intros [_ Hsz] (_ & _ & _ & Hnone) [Hlen _]. unfold child_pagetable.
  rewrite zip_with_copy_slot; [done| |done].
  simpl. rewrite length_fmap. congruence.
Qed.

Lemma count_pte_range (counts : list Z) (e : pte) :
  Forall (λ c, 0 ≤ c < UINT_MOD) counts →
  Forall (λ c, 0 ≤ c < UINT_MOD) (count_pte counts e).
Proof.
  intros Hall. unfold count_pte. destruct (valid e); [|done].
  rewrite Forall_lookup. intros i c.
  destruct (decide (Z.to_nat (pfn e) = i)) as [<-|Hne].
  - rewrite list_lookup_alter_eq. destruct (counts !! _); [|done].
    intros [= <-]. apply uint_range.
  - rewrite list_lookup_alter_ne by done. rewrite Forall_lookup in Hall.
    apply Hall.
Qed.

Lemma count_pagetable_range (counts : list Z) (pt : pagetable) :
  Forall (λ c, 0 ≤ c < UINT_MOD) counts →
  Forall (λ c, 0 ≤ c < UINT_MOD) (count_pagetable counts pt).
Proof.
  unfold count_pagetable. revert counts.
  induction (outer_ptes pt) as [|o os IH]; intros counts Hall; simpl; [done|].
  apply IH. destruct o as [d|]; simpl; [|done]. unfold count_directory.
  clear IH. revert counts Hall.
  induction (ptes d) as [|e es IH]; intros counts Hall; simpl; [done|].
  apply IH. by apply count_pte_range.
Qed.

Lemma well_formed_forks (s s' : state) :
  libc_sized LC → libc_cleared LC → well_formed s → forks s s' → well_formed s'.
Proof.
  intros Hsz Hcl Hwf (pt & Hf & Ht & Hm & Hc & Hb).
  destruct (well_formed_focus _ Hwf) as (pt' & Hf' & Hpt).
  assert (pt' = pt) as -> by congruence.
  apply well_formed_tables in Hwf as (Hlen & Hcounts & Htables & Hcur & _).
  apply well_formed_tables. rewrite Ht, Hm, Hc, Hb.
  rewrite (child_pagetable_cleared _ Hsz Hcl Hpt).
  split; [|split; [|split; [|split]]].
  - unfold count_pagetable. by rewrite length_count_slots.
  - by apply count_pagetable_range.
  - apply Forall_app. split.
    + apply Forall_insert; [done|]. by apply pagetable_ok_share.
    + apply Forall_singleton. by apply pagetable_ok_share.
  - rewrite length_app, length_insert. unfold tables. rewrite length_fmap.
    simpl. lia.
  - done.
Qed.

Lemma well_formed_init : well_formed init_state.
Proof.
  pose proof frames_range. pose proof ptes_range.
  unfold well_formed, init_state. simpl.
  rewrite !length_replicate. repeat split; try done.
  - apply Forall_replicate. unfold UINT_MOD. lia.
  - apply Forall_singleton. split; simpl.
    + by rewrite length_replicate.
    + by apply Forall_replicate.
  - lia.
Qed.

Lemma well_formed_exec (o : op) (s s' : state) :
  libc_sized LC → libc_cleared LC → op_typed o →
  well_formed s → exec o s = Ok s' → well_formed s'.
Proof.
  intros Hsz Hcl Ho Hwf. destruct o as [vpn rw|vpn|vpn rw|fuel wanted]; simpl.
  - destruct (alloc_page vpn rw s) as [[r s'']|] eqn:Ha; [|done].
    rewrite bind_Ok. intros [= <-]. by eapply well_formed_alloc_page.
  - intros [->|Hun]%free_page_effect; [done| |done..].
    by eapply well_formed_unmaps_page.
  - destruct (handle_page_fault vpn rw s) as [[b s'']|] eqn:Hh; [|done].
    rewrite bind_Ok. intros [= <-].
    apply handle_page_fault_effect in Hh as [->|[[_ [r Ha]]|[Hpr|Hdup]]]; try done.
    + by eapply well_formed_alloc_page.
    + by eapply well_formed_promotes_page.
    + by eapply well_formed_duplicates_page.
  - intros [Hsw|Hfk]%switch_process_effect; [| |done..].
    + by eapply well_formed_switches.
    + by eapply well_formed_forks.
Qed.

End Effects.

(** ** Frame accounting *)

Section Accounting.
Context {VM : vm_h} {OK : vm_h_ok VM} {LC : libc}.

Lemma pte_refs_installed (f rw r : Z) (e : pte) :
  pte_refs f (installed rw r e) = if r =? f then 1%nat else 0%nat.
Proof.
  unfold pte_refs, installed, apply_rw.
  by destruct (rw =? RW_READ), (rw =? Z.lor RW_WRITE RW_READ).
Qed.

Lemma pte_refs_invalid (f : Z) (e : pte) : valid e = false → pte_refs f e = 0%nat.
Proof. intros Hv. unfold pte_refs. by rewrite Hv. Qed.

Lemma pte_refs_valid (f : Z) (e : pte) :
  valid e = true → pte_refs f e = if pfn e =? f then 1%nat else 0%nat.
Proof. intros Hv. unfold pte_refs. by rewrite Hv. Qed.

Lemma directory_refs_malloc (f : Z) :
  libc_cleared LC → directory_refs f malloc_pte_directory = 0%nat.
Proof.
  intros (_ & _ & Hdir & _). apply sum_list_with_zero.
  eapply Forall_impl; [exact Hdir|]. intros e [Hv _]. by apply pte_refs_invalid.
Qed.

(** References after an entry of the running process is replaced. *)
Lemma references_put_pte (f : Z) (s : state) (c : nat) (pt : pagetable)
    (i j : Z) (o : option pte_directory) (e e' : pte) :
  libc_cleared LC →
  focus s = Some (c, pt) →
  outer_ptes pt !! Z.to_nat i = Some o →
  ptes (default malloc_pte_directory o) !! Z.to_nat j = Some e →
  (references f
     (put_table c (put_directory i (put_pte j e' (default malloc_pte_directory o)) pt) s)
   + pte_refs f e
   = references f s + pte_refs f e')%nat.
Proof.
  intros Hcl Hf Ho He.
  pose proof (references_put f s c pt
                (put_directory i (put_pte j e' (default malloc_pte_directory o)) pt) Hf).
  pose proof (pagetable_refs_put f pt i o
                (put_pte j e' (default malloc_pte_directory o)) Ho).
  pose proof (directory_refs_put f _ j e e' He).
  assert (slot_refs f o = directory_refs f (default malloc_pte_directory o)) as Hslot.
  { destruct o; simpl; [done|]. by rewrite directory_refs_malloc. }
  lia.
Qed.

Lemma mapcount_insert (f g : Z) (c : Z) (s : state) (counts : list Z) :
  0 ≤ f → 0 ≤ g → (Z.to_nat g < length counts)%nat →
  mapcount f (with_mapcounts (<[Z.to_nat g := c]> counts) s)
  = if decide (g = f) then Some c else counts !! Z.to_nat f.
Proof.
  intros Hf Hg Hlt. unfold mapcount. simpl.
  destruct (Z.ltb_spec f 0); [lia|]. case_decide as E.
  - subst. by apply list_lookup_insert_eq.
  - apply list_lookup_insert_ne. lia.
Qed.

(** [alloc_page] keeps the account when, before it runs, the counters
    count every valid entry but the one in the slot it is about to
    overwrite. *)
Lemma accounted_mapped (s : state) pt o e cnt vpn rw r :
  libc_cleared LC →
  focus s = Some (current s, pt) →
  outer_ptes pt !! Z.to_nat (vpn / NR_PTES_PER_PAGE) = Some o →
  ptes (default malloc_pte_directory o) !! Z.to_nat (vpn mod NR_PTES_PER_PAGE) = Some e →
  0 ≤ r < NR_PAGEFRAMES → mapcounts s !! Z.to_nat r = Some cnt →
  (∀ f, 0 ≤ f < NR_PAGEFRAMES →
     ∃ z, mapcounts s !! Z.to_nat f = Some z ∧
          z + Z.of_nat (pte_refs f e) = Z.of_nat (references f s)) →
  fits (mapped (current s) pt (default malloc_pte_directory o) e vpn rw r cnt s) →
  accounted (mapped (current s) pt (default malloc_pte_directory o) e vpn rw r cnt s).
Proof.
  intros Hcl Hf Ho He Hr Hc Hpre Hfits f Hfr.
  specialize (Hfits f Hfr). destruct (Hpre f Hfr) as (z & Hz & Hzr).
  unfold mapped in *.
  change (references f (with_mapcounts ?m ?s')) with (references f s') in *.
  pose proof (references_put_pte f s _ _ _ _ _ _ (installed rw r e) Hcl Hf Ho He) as Hrefs.
  rewrite pte_refs_installed in Hrefs.
  rewrite mapcount_insert; [|lia|lia|by eapply lookup_lt_Some].
  case_decide as E.
  - subst r. rewrite Z.eqb_refl in Hrefs. simplify_eq.
    f_equal. unfold uint. rewrite Z.mod_small; lia.
  - destruct (Z.eqb_spec r f); [done|]. rewrite Hz. f_equal. lia.
Qed.

Lemma accounted_unmapped (s : state) pt d e cnt vpn :
  libc_cleared LC → well_formed s → accounted s →
  focus s = Some (current s, pt) →
  outer_ptes pt !! Z.to_nat (vpn / NR_PTES_PER_PAGE) = Some (Some d) →
  ptes d !! Z.to_nat (vpn mod NR_PTES_PER_PAGE) = Some e →
  valid e = true →
  mapcounts s !! Z.to_nat (pfn e) = Some cnt →
  accounted (unmapped (current s) pt d e vpn cnt s).
Proof.
  intros Hcl Hwf Hacc Hf Hd He Hvalid Hc f Hfr.
  destruct (focus_slot_ok _ _ _ _ Hwf Hf Hd) as [_ [_ Hframes]].
  rewrite Forall_lookup in Hframes. specialize (Hframes _ _ He Hvalid).
  simpl in Hframes.
  pose proof (references_put_pte f s _ _ _ _ (Some d) _ malloc_pte Hcl Hf Hd He) as Hrefs.
  rewrite (pte_refs_invalid f malloc_pte) in Hrefs by apply Hcl.
  rewrite (pte_refs_valid f e Hvalid) in Hrefs. simpl in Hrefs.
  unfold unmapped.
  change (references f (put_table ?c ?t (with_mapcounts ?m ?s')))
    with (references f (put_table c t s')).
  change (mapcount f (put_table ?c ?t (with_mapcounts ?m ?s')))
    with (mapcount f (with_mapcounts m s')).
  rewrite mapcount_insert; [|lia|lia|by eapply lookup_lt_Some].
  pose proof (Hacc _ Hframes) as Hpe. rewrite mapcount_intro, Hc in Hpe by lia.
  injection Hpe as ->.
  case_decide as E.
  - subst f. rewrite Z.eqb_refl in Hrefs. f_equal. unfold released.
    destruct (Z.ltb_spec 1 (Z.of_nat (references (pfn e) s))); [lia|].
    destruct (Z.eqb_spec (Z.of_nat (references (pfn e) s)) 1); lia.
  - destruct (Z.eqb_spec (pfn e) f); [done|].
    specialize (Hacc f Hfr). rewrite mapcount_intro in Hacc by lia.
    rewrite Hacc. f_equal. lia.
Qed.

Lemma pte_refs_promoted (f : Z) (e : pte) :
  pte_refs f (promoted e) = pte_refs f e.
Proof. done. Qed.

Lemma accounted_promotes_page (vpn : Z) (s s' : state) :
  libc_cleared LC → accounted s → promotes_page vpn s s' → accounted s'.
Proof.
  intros Hcl Hacc (pt & d & e & Hf & Hd & He & _ & ->) f Hfr.
  pose proof (references_put_pte f s _ _ _ _ (Some d) _ (promoted e) Hcl Hf Hd He) as Hrefs.
  rewrite pte_refs_promoted in Hrefs. simpl in Hrefs.
  replace (references f (put_table _ _ s)) with (references f s) by lia.
  apply (Hacc f Hfr).
Qed.

Lemma references_same_tables (f : Z) (s s' : state) :
  tables s' = tables s → references f s' = references f s.
Proof. unfold references. by intros ->. Qed.

Lemma accounted_switches (s s' : state) :
  accounted s → switches s s' → accounted s'.
Proof.
  intros Hacc (p & s0 & _ & (Ht & _ & Hm & _ & _) & ->) f Hfr.
  specialize (Hacc f Hfr). unfold mapcount in *. simpl. rewrite Hm.
  by rewrite (references_same_tables f s (with_ptbr _ (with_current _ s0))).
Qed.

(** *** The counters after a fork *)

Lemma count_pte_lookup (counts : list Z) (e : pte) (i : nat) (z : Z) :
  frame_ok e → counts !! i = Some z →
  count_pte counts e !! i
  = Some (if pte_refs (Z.of_nat i) e is O then z else uint (z + 1)).
Proof.
  intros He Hz. unfold count_pte, pte_refs. destruct (valid e) eqn:Hv; simpl; [|done].
  specialize (He Hv). destruct (Z.eqb_spec (pfn e) (Z.of_nat i)) as [E|E].
  - rewrite E, Nat2Z.id, list_lookup_alter_eq, Hz. done.
  - rewrite list_lookup_alter_ne by lia. done.
Qed.

Lemma count_directory_lookup (counts : list Z) (d : pte_directory) (i : nat) (z : Z) :
  Forall (λ c, 0 ≤ c < UINT_MOD) counts → Forall frame_ok (ptes d) →
  counts !! i = Some z →
  count_directory counts d !! i
  = Some (uint (z + Z.of_nat (directory_refs (Z.of_nat i) d))).
Proof.
  unfold count_directory, directory_refs. revert counts z.
  induction (ptes d) as [|e es IH]; intros counts z Hrange Hframes Hz; simpl.
  - rewrite Hz. f_equal. unfold uint. rewrite Z.add_0_r, Z.mod_small; [done|].
    rewrite Forall_lookup in Hrange. apply (Hrange _ _ Hz).
  - apply Forall_cons in Hframes as [He Hes].
    erewrite IH; [|by apply count_pte_range|done|by apply count_pte_lookup].
    f_equal. destruct (pte_refs (Z.of_nat i) e) as [|[|n]] eqn:Hr.
    + done.
    + unfold uint. rewrite Z.add_mod_idemp_l by done. f_equal. lia.
    + unfold pte_refs in Hr. by destruct (_ && _).
Qed.

Lemma count_directory_range (counts : list Z) (d : pte_directory) :
  Forall (λ c, 0 ≤ c < UINT_MOD) counts →
  Forall (λ c, 0 ≤ c < UINT_MOD) (count_directory counts d).
Proof.
  unfold count_directory. revert counts.
  induction (ptes d) as [|e es IH]; intros counts Hall; simpl; [done|].
  apply IH. by apply count_pte_range.
Qed.

Lemma count_pagetable_lookup (counts : list Z) (pt : pagetable) (i : nat) (z : Z) :
  Forall (λ c, 0 ≤ c < UINT_MOD) counts → pagetable_ok pt →
  counts !! i = Some z →
  count_pagetable counts pt !! i
  = Some (uint (z + Z.of_nat (pagetable_refs (Z.of_nat i) pt))).
Proof.
  intros Hrange [_ Hslots]. unfold count_pagetable, pagetable_refs.
  revert counts z Hrange.
  induction Hslots as [|o os Ho _ IH]; intros counts z Hrange Hz; simpl.
  - rewrite Hz. f_equal. unfold uint. rewrite Z.add_0_r, Z.mod_small; [done|].
    rewrite Forall_lookup in Hrange. apply (Hrange _ _ Hz).
  - destruct o as [d|]; simpl.
    + erewrite IH;
        [|by apply count_directory_range
         |apply count_directory_lookup; [done|apply Ho|done]].
      f_equal. unfold uint. rewrite Z.add_mod_idemp_l by done. f_equal. lia.
    + by apply IH.
Qed.

Lemma pte_refs_share (f : Z) (e : pte) : pte_refs f (share_pte e) = pte_refs f e.
Proof.
  unfold pte_refs, share_pte. destruct (valid e) eqn:Hv; [|by rewrite Hv].
  destruct (writable e); simpl; by rewrite ?Hv.
Qed.

Lemma pagetable_refs_share (f : Z) (pt : pagetable) :
  pagetable_refs f (share_pagetable pt) = pagetable_refs f pt.
Proof.
  unfold pagetable_refs, share_pagetable. simpl. rewrite sum_list_with_fmap.
  apply sum_list_with_ext_Forall, Forall_forall. intros [d|] _; simpl; [|done].
  unfold directory_refs, share_directory. simpl. rewrite sum_list_with_fmap.
  apply sum_list_with_ext_Forall, Forall_forall. intros e _. apply pte_refs_share.
Qed.

Lemma references_forks (f : Z) (s s' : state) (pt : pagetable) :
  libc_sized LC → libc_cleared LC → pagetable_ok pt →
  focus s = Some (current s, pt) →
  tables s' = <[current s := share_pagetable pt]> (tables s) ++ [child_pagetable pt] →
  references f s' = (references f s + pagetable_refs f pt)%nat.
Proof.
  intros Hsz Hcl Hpt Hf Ht. unfold references. rewrite Ht.
  rewrite (child_pagetable_cleared _ Hsz Hcl Hpt), sum_list_with_app. simpl.
  pose proof (references_put f s _ _ (share_pagetable pt) Hf) as Hput.
  unfold references in Hput. rewrite tables_put_table in Hput.
  rewrite pagetable_refs_share in *. lia.
Qed.

Lemma accounted_forks (s s' : state) :
  libc_sized LC → libc_cleared LC → well_formed s → accounted s →
  forks s s' → fits s' → accounted s'.
Proof.
  intros Hsz Hcl Hwf Hacc (pt & Hf & Ht & Hm & _ & _) Hfits f Hfr.
  destruct (well_formed_focus _ Hwf) as (pt' & Hf' & Hpt).
  assert (pt' = pt) as -> by congruence.
  specialize (Hfits f Hfr).
  rewrite (references_forks f s s' pt Hsz Hcl Hpt Hf Ht) in *.
  specialize (Hacc f Hfr). rewrite mapcount_intro in * by lia.
  rewrite Hm. destruct Hwf as (_ & Hrange & _).
  rewrite (count_pagetable_lookup _ _ _ _ Hrange Hpt Hacc), Z2Nat.id by lia.
  f_equal. unfold uint. rewrite Z.mod_small; lia.
Qed.

(** *** The account along a run *)

Lemma accounted_alloc_page (vpn rw r : Z) (s s' : state) :
  libc_sized LC → libc_cleared LC → well_formed s → accounted s → 0 ≤ vpn →
  (∀ e, pte_of (current s) vpn s = Some e → valid e = false) →
  alloc_page vpn rw s = Ok (r, s') → fits s' → accounted s'.
Proof.
  intros Hsz Hcl Hwf Hacc Hv Hfree Ha Hfits.
  destruct (alloc_page_effect vpn rw s Hsz Hwf Hv) as (r' & s'' & Ha' & Heff).
  rewrite Ha in Ha'. injection Ha' as <- <-.
  destruct Heff as [[-> _]|(pt & o & e & cnt & Hf & Ho & He & Hof & Hr & Hc & ->)];
    [done|].
  apply accounted_mapped; try done.
  intros f Hfr. specialize (Hacc f Hfr). rewrite mapcount_intro in Hacc by lia.
  eexists. split; [done|]. rewrite pte_refs_invalid; [lia|].
  destruct o as [d|]; [by apply Hfree|].
  destruct Hcl as (_ & _ & Hdir & _). rewrite Forall_lookup in Hdir.
  apply (Hdir _ _ He).
Qed.

Lemma accounted_duplicates_page (vpn rw : Z) (s s' : state) :
  libc_sized LC → libc_cleared LC → well_formed s → accounted s → 0 ≤ vpn →
  Z.of_nat (frames_in_use (mapcounts s)) ≠ NR_PAGEFRAMES - 1 →
  duplicates_page vpn rw s s' → fits s' → accounted s'.
Proof.
  intros Hsz Hcl Hwf Hacc Hv Hn
    (e & cnt & r & He & Hvalid & Hwr & Hpriv & -> & [Hp Hc]%mapcount_inv & Hgt & Ha) Hfits.
  pose proof Hwf as (_ & Hrange & _ & _ & Hptbr).
  destruct (pte_of_focus _ _ _ _ Hptbr He) as (pt & Hf & Hat).
  destruct (pte_at_inv _ _ _ Hat) as (_ & d & Hd & Hj).
  destruct (focus_slot_ok _ _ _ _ Hwf Hf Hd) as [Hpt [_ Hframes]].
  rewrite Forall_lookup in Hframes. specialize (Hframes _ _ Hj Hvalid).
  simpl in Hframes.
  set (counts := <[Z.to_nat (pfn e) := cnt - 1]> (mapcounts s)) in *.
  set (s1 := with_mapcounts counts s) in *.
  assert (well_formed s1) as Hwf1.
  { apply well_formed_store_mapcount; [done|]. rewrite Forall_lookup in Hrange.
    specialize (Hrange _ _ Hc). simpl in Hrange. lia. }
  destruct (alloc_page_effect vpn (Z.lor RW_WRITE RW_READ) s1 Hsz Hwf1 Hv)
    as (r' & s'' & Ha' & Heff).
  rewrite Ha in Ha'. injection Ha' as <- <-.
  destruct Heff as [[_ [Hidle|Hidle]]|(pt1 & o & e1 & cnt1 & Hf1 & Ho & He1 & Hof & Hr & Hc1 & ->)].
  - exfalso. apply Hn. rewrite <- Hidle. simpl. f_equal. symmetry.
    apply frames_in_use_insert with cnt; [done|lia].
  - exfalso. pose proof (div_mod_nonneg _ Hv) as [Hi0 _].
    pose proof (pagetable_ok_range _ _ _ Hpt Hi0 Hd). lia.
  - assert (pt1 = pt) as -> by (change (focus s1) with (focus s) in Hf1; congruence).
    assert (o = Some d) as -> by congruence.
    change (pte_of (current s1) vpn s1) with (pte_of (current s) vpn s) in Hof.
    assert (e1 = e) as -> by congruence.
    apply accounted_mapped; try done.
    intros f Hfr. pose proof (Hacc f Hfr) as Haf.
    rewrite mapcount_intro in Haf by lia.
    pose proof (Hacc _ Hframes) as Hae. rewrite mapcount_intro, Hc in Hae by lia.
    injection Hae as Hcnt.
    change (references f s1) with (references f s).
    rewrite (pte_refs_valid f e Hvalid). simpl. unfold counts.
    destruct (Z.eqb_spec (pfn e) f) as [<-|Hne].
    + rewrite list_lookup_insert_eq by (by eapply lookup_lt_Some).
      eexists. split; [done|]. lia.
    + rewrite list_lookup_insert_ne by lia. eexists. split; [done|]. lia.
Qed.

Lemma accounted_exec (o : op) (s s' : state) :
  libc_sized LC → libc_cleared LC → well_formed s → accounted s →
  accounted_use o s s' → exec o s = Ok s' → accounted s'.
Proof.
  intros Hsz Hcl Hwf Hacc (Hty & Hfits & Huse).
  destruct o as [vpn rw|vpn|vpn rw|fuel wanted]; simpl in *.
  - destruct (alloc_page vpn rw s) as [[r s'']|] eqn:Ha; [|done].
    rewrite bind_Ok. intros [= <-]. by eapply accounted_alloc_page.
  - intros [->|Hun]%free_page_effect; [done| |done..].
    destruct Hun as (pt & d & e & cnt & Hf & Hd & He & Hof & _ & Hc & ->).
    destruct Huse as (e' & He' & Hvalid).
    assert (e' = e) as -> by congruence. by apply accounted_unmapped.
  - destruct (handle_page_fault vpn rw s) as [[b s'']|] eqn:Hh; [|done].
    rewrite bind_Ok. intros [= <-].
    apply handle_page_fault_effect in Hh as [->|[[Hfree [r Ha]]|[Hpr|Hdup]]]; try done.
    + by eapply accounted_alloc_page.
    + by eapply accounted_promotes_page.
    + eapply accounted_duplicates_page; try done.
      destruct Hdup as (e & cnt & r & ? & ? & ? & ? & ? & ? & ? & _). eauto.
  - intros [Hsw|Hfk]%switch_process_effect; [| |done..].
    + by eapply accounted_switches.
    + by eapply accounted_forks.
Qed.

Lemma references_init (f : Z) : references f init_state = 0%nat.
Proof.
  unfold references, init_state, tables. simpl. unfold pagetable_refs. simpl.
  rewrite sum_list_with_zero; [done|]. by apply Forall_replicate.
Qed.

Lemma accounted_init : accounted init_state.
Proof.
  intros f Hf. rewrite references_init, mapcount_intro by lia. simpl.
  apply lookup_replicate_2. lia.
Qed.

End Accounting.

(** ** The private flag *)

Section Private.
Context {VM : vm_h} {OK : vm_h_ok VM} {LC : libc}.

Lemma cow_ok_malloc : libc_cleared LC → Forall cow_ok (ptes malloc_pte_directory).
Proof.
  intros (_ & _ & Hdir & _). eapply Forall_impl; [exact Hdir|].
  intros e [Hv Hp]. split; [congruence|done].
Qed.

Lemma cow_ok_installed (rw r : Z) (e : pte) :
  cow_ok e →
  (valid e = true → private e = true → rw ≠ Z.lor RW_WRITE RW_READ) →
  cow_ok (installed rw r e).
Proof.
  intros [Hro Hinv] Hrw. unfold installed, apply_rw.
  destruct (rw =? RW_READ); [by split|].
  destruct (Z.eqb_spec rw (Z.lor RW_WRITE RW_READ)) as [E|_];
    (split; simpl; [|done]); intros _ Hpriv.
  - destruct (valid e) eqn:Hv; [by destruct (Hrw eq_refl Hpriv)|].
    specialize (Hinv eq_refl). congruence.
  - destruct (valid e) eqn:Hv; [by apply Hro|].
    specialize (Hinv eq_refl). congruence.
Qed.

Lemma cow_ok_share (e : pte) : cow_ok e → cow_ok (share_pte e).
Proof.
  intros [Hro Hinv]. unfold share_pte.
  destruct (valid e) eqn:Hv; [|by split; rewrite ?Hv].
  destruct (writable e) eqn:Hw; [|by split; rewrite ?Hv, ?Hw].
  split; simpl; [done|]. by rewrite Hv.
Qed.

Lemma cow_ok_promoted (e : pte) : valid e = true → cow_ok (promoted e).
Proof. intros Hv. split; simpl; [done|]. by rewrite Hv. Qed.

Lemma state_all_maps_page (vpn rw r : Z) (s s' : state) :
  libc_cleared LC → state_all cow_ok s → maps_page vpn rw r s s' →
  (∀ e, pte_of (current s) vpn s = Some e →
        valid e = true → private e = true → rw ≠ Z.lor RW_WRITE RW_READ) →
  state_all cow_ok s'.
Proof.
  intros Hcl Hall (pt & o & e & cnt & Hf & Ho & He & Hof & _ & _ & ->) Hrw.
  unfold mapped.
  change (state_all cow_ok (with_mapcounts ?m ?s')) with (state_all cow_ok s').
  pose proof (state_all_focus _ _ _ _ Hall Hf) as Hpt.
  assert (Forall cow_ok (ptes (default malloc_pte_directory o))) as Hd.
  { destruct o as [d|]; [by eapply pagetable_all_slot|by apply cow_ok_malloc]. }
  apply state_all_put; [done|]. apply pagetable_all_put; [done..|].
  apply cow_ok_installed.
  - rewrite Forall_lookup in Hd. apply (Hd _ _ He).
  - intros Hv Hp. destruct o as [d|]; [by apply (Hrw e)|].
    destruct Hcl as (_ & _ & Hdir & _). rewrite Forall_lookup in Hdir.
    destruct (Hdir _ _ He). congruence.
Qed.

Lemma state_all_alloc_page (vpn rw r : Z) (s s' : state) :
  libc_sized LC → libc_cleared LC → well_formed s → state_all cow_ok s →
  0 ≤ vpn →
  (∀ e, pte_of (current s) vpn s = Some e →
        valid e = true → private e = true → rw ≠ Z.lor RW_WRITE RW_READ) →
  alloc_page vpn rw s = Ok (r, s') → state_all cow_ok s'.
Proof.
  intros Hsz Hcl Hwf Hall Hv Hrw Ha.
  destruct (alloc_page_effect vpn rw s Hsz Hwf Hv) as (r' & s'' & Ha' & Heff).
  rewrite Ha in Ha'. injection Ha' as <- <-.
  destruct Heff as [[-> _]|Hmaps]; [done|]. by eapply state_all_maps_page.
Qed.

Lemma state_all_forks (s s' : state) :
  libc_sized LC → libc_cleared LC → well_formed s → state_all cow_ok s →
  forks s s' → state_all cow_ok s'.
Proof.
  intros Hsz Hcl Hwf Hall (pt & Hf & Ht & _).
  destruct (well_formed_focus _ Hwf) as (pt' & Hf' & Hpt).
  assert (pt' = pt) as -> by congruence.
  pose proof (state_all_focus _ _ _ _ Hall Hf) as Hcow.
  assert (pagetable_all cow_ok (share_pagetable pt)) as Hshare.
  { unfold pagetable_all, share_pagetable in *. simpl. apply Forall_fmap.
    eapply Forall_impl; [exact Hcow|]. intros [d|]; simpl; [|done].
    intros Hd. apply Forall_fmap. eapply Forall_impl; [exact Hd|].
    intros e. apply cow_ok_share. }
  unfold state_all. rewrite Ht, (child_pagetable_cleared _ Hsz Hcl Hpt).
  apply Forall_app. split; [by apply Forall_insert|by apply Forall_singleton].
Qed.

Lemma state_all_exec (o : op) (s s' : state) :
  libc_sized LC → libc_cleared LC → well_formed s → state_all cow_ok s →
  cow_use o s s' → exec o s = Ok s' → state_all cow_ok s'.
Proof.
  intros Hsz Hcl Hwf Hall (Hty & Huse).
  destruct o as [vpn rw|vpn|vpn rw|fuel wanted]; simpl in *.
  - destruct (alloc_page vpn rw s) as [[r s'']|] eqn:Ha; [|done].
    rewrite bind_Ok. intros [= <-]. by eapply state_all_alloc_page.
  - intros [->|Hun]%free_page_effect; [done| |done..].
    destruct Hun as (pt & d & e & cnt & Hf & Hd & He & _ & _ & _ & ->).
    unfold unmapped. apply state_all_put; [done|].
    pose proof (state_all_focus _ _ _ _ Hall Hf) as Hpt.
    apply pagetable_all_put; [done|by eapply pagetable_all_slot|].
    destruct Hcl as (Hv & Hp & _). split; [congruence|done].
  - destruct (handle_page_fault vpn rw s) as [[b s'']|] eqn:Hh; [|done].
    rewrite bind_Ok. intros [= <-].
    apply handle_page_fault_effect in Hh as [->|[[Hfree [r Ha]]|[Hpr|Hdup]]]; try done.
    + eapply state_all_alloc_page; try done.
      intros e He Hv. specialize (Hfree _ He). congruence.
    + destruct Hpr as (pt & d & e & Hf & Hd & He & Hvalid & ->).
      apply state_all_put; [done|].
      pose proof (state_all_focus _ _ _ _ Hall Hf) as Hpt.
      apply pagetable_all_put; [done|by eapply pagetable_all_slot|].
      by apply cow_ok_promoted.
    + destruct Hdup as (e & cnt & r & He & Hv & Hw & Hp & -> & Hc & Hgt & _).
      specialize (Huse _ _ He Hv Hw Hp eq_refl Hc). lia.
  - intros [Hsw|Hfk]%switch_process_effect; [| |done..].
    + destruct Hsw as (p & s0 & _ & (Ht & _) & ->). unfold state_all in *.
      change (tables (with_ptbr _ (with_current _ s0))) with (tables s0).
      by rewrite Ht.
    + by eapply state_all_forks.
Qed.

Lemma state_all_init : state_all cow_ok init_state.
Proof.
  unfold state_all, init_state, tables. simpl. apply Forall_singleton.
  unfold pagetable_all. simpl. by apply Forall_replicate.
Qed.

End Private.

(** * The claims *)

Section Claims.
Context {VM : vm_h} {OK : vm_h_ok VM} {LC : libc}.

(** C10: on a valid, read-only, private entry a fault with
    [rw == (RW_READ | RW_WRITE)] is not taken for a write: the handler
    returns false and the state, page tables and reference counts
    included, is the one it was called in. *)
Theorem handle_page_fault_read_write (vpn : Z) (s : state) (c : nat) (e : pte) :
  ptbr s = Some c → pte_of c vpn s = Some e →
  valid e = true → writable e = false → private e = true →
  handle_page_fault vpn (Z.lor RW_READ RW_WRITE) s = Ok (false, s).
Proof.
  intros Hp He Hvalid _ _.
  destruct (pte_of_focus _ _ _ _ Hp He) as (pt & Hf & Hat).
  destruct (pte_at_inv _ _ _ Hat) as (Hv & d & Hd & Hj).
  rewrite (handle_page_fault_valid _ _ _ _ _ _ _ Hf Hv Hd Hj Hvalid).
  destruct (Z.eqb_spec (Z.lor RW_READ RW_WRITE) RW_WRITE) as [E|_]; [|done].
  rewrite Z.lor_comm in E. by apply rw_both_not_write in E.
Qed.

(** C9: when a write fault of the running process duplicates a page
    whose frame has two references, the entry of the other owner, in
    whichever process and at whichever page it is, is the same after the
    fault: still private and read-only on the same frame. *)
Theorem cow_duplication_other_owner (vpn vpn' : Z) (s : state) (e e' : pte) (p : nat) :
  well_formed s →
  pte_of (current s) vpn s = Some e →
  valid e = true → writable e = false → private e = true →
  mapcount (pfn e) s = Some 2 →
  p ≠ current s →
  pte_of p vpn' s = Some e' →
  valid e' = true → pfn e' = pfn e → private e' = true → writable e' = false →
  ∃ s', handle_page_fault vpn RW_WRITE s = Ok (true, s') ∧
        pte_of p vpn' s' = Some e'.
Proof.
  intros Hwf He Hvalid Hwr Hpriv [Hp0 Hc]%mapcount_inv Hp He' _ _ _ _.
  pose proof Hwf as (_ & _ & _ & _ & Hptbr).
  destruct (pte_of_focus _ _ _ _ Hptbr He) as (pt & Hf & Hat).
  destruct (pte_at_inv _ _ _ Hat) as (Hv & d & Hd & Hj).
  rewrite (handle_page_fault_valid _ _ _ _ _ _ _ Hf Hv Hd Hj Hvalid).
  rewrite Z.eqb_refl, Hwr, Hpriv. simpl andb. cbv iota.
  rewrite (load_mapcount_ok _ _ _ Hp0 Hc), bind_Ok. simpl.
  rewrite (store_mapcount_ok _ _ _ _ Hp0 Hc), bind_Ok.
  edestruct (alloc_page_returns vpn (Z.lor RW_WRITE RW_READ)) as (f & s' & Hs' & Hmem);
    [|by apply (well_formed_store_mapcount _ (Z.to_nat (pfn e)) 1 Hwf)|done|].
  { intros Hnone. exfalso. revert Hnone. change (pte_of (current s) vpn s ≠ None).
    by rewrite He. }
  unfold alloc_and_resolve. change (2 - 1) with 1.
  rewrite Hs', bind_Ok. eexists. split; [done|].
  unfold pte_of. rewrite Hmem by done. exact He'.
Qed.

(** C5: when the walk of the ready queue finds no process with the
    wanted identifier, [switch_process] returns with a new process running
    on its own table.  For every page that was valid in the parent's
    table, parent and child hold the same entry: the one lines 251-254
    leave with the parent, on the same frame and, where the page was
    writable, read-only and private. *)
Theorem fork_duplicates (fuel : nat) (wanted : Z) (s : state) :
  libc_sized LC → well_formed s →
  list_for_each_entry fuel wanted (next (processes s)) s = Ok None →
  ∃ s', switch_process fuel wanted s = Ok s' ∧
    current s' = length (memory s) ∧ current s' ≠ current s ∧
    ptbr s' = Some (current s') ∧
    pids s' !! current s' = Some wanted ∧
    ∀ vpn e, pte_of (current s) vpn s = Some e → valid e = true →
      pte_of (current s) vpn s' = Some (share_pte e) ∧
      pte_of (current s') vpn s' = Some (share_pte e).
Proof.
  intros [_ Hsz] Hwf Hwalk. unfold switch_process. rewrite Hwalk, bind_Ok.
  destruct (well_formed_focus _ Hwf) as (pt & Hf & Hpt).
  pose proof Hwf as (_ & _ & _ & Hcur & Hptbr).
  destruct (fork_returns wanted s pt Hsz Hwf Hf) as (s' & -> & Ht & Hp & _ & Hc & Hb).
  { by eapply list_for_each_entry_node_ok. }
  exists s'. split; [done|]. split; [done|]. split; [lia|].
  split; [by rewrite Hb, Hc|]. split.
  { rewrite Hp, Hc. unfold pids.
    rewrite lookup_app_r; rewrite length_fmap; [|done].
    by rewrite Nat.sub_diag. }
  intros vpn e He _.
  destruct (pte_of_focus _ _ _ _ Hptbr He) as (pt' & Hf' & Hat).
  assert (pt' = pt) as -> by congruence.
  assert (length (tables s) = length (memory s)) as Hlt by apply length_fmap.
  rewrite !pte_of_tables, Ht, Hc. split.
  - rewrite lookup_app_l by (rewrite length_insert; lia).
    rewrite list_lookup_insert_eq by lia. simpl. by apply pte_at_share.
  - rewrite lookup_app_r; rewrite length_insert; [|lia].
    rewrite Hlt, Nat.sub_diag. simpl.
    apply pte_at_child; [|by apply pte_at_share].
    destruct Hpt as [-> _]. done.
Qed.

(** C1 (amended): malloc returning cleared blocks of the right size,
    every counter is the number of valid entries, over the tables of all
    processes, that name its frame, in every state reached from the
    initial one by calls that [accounted_use] admits: [alloc_page] on a
    page without a valid entry, [free_page] on a page with a valid entry,
    any [switch_process], and any [handle_page_fault] except a duplication
    while [NR_PAGEFRAMES - 1] frames are in use, as long as the number of
    references to a frame fits an [unsigned int]. *)
Theorem frame_accounting (s : state) :
  libc_sized LC → libc_cleared LC → reachable accounted_use s →
  ∀ f, 0 ≤ f < NR_PAGEFRAMES → mapcount f s = Some (Z.of_nat (references f s)).
Proof.
  intros Hsz Hcl Hreach.
  enough (well_formed s ∧ accounted s) as [_ Hacc] by exact Hacc.
  induction Hreach as [|o s s' _ [IHwf IHacc] Huse Hexec].
  - split; [apply well_formed_init|apply accounted_init].
  - split.
    + eapply well_formed_exec; [done..|apply Huse|done|done].
    + by eapply accounted_exec.
Qed.

(** Where the private flag can go wrong.  Malloc returning cleared blocks
    of the right size, every valid entry marked private is read-only in
    every state reached from the initial one by calls that [cow_use]
    admits: the flag is left on a writable entry only by [alloc_page]
    called for read and write on a valid private entry, directly or by
    the duplication branch of the handler (lines 193-195), which unlike
    lines 197-198 does not clear it. *)
Lemma private_read_only (s : state) :
  libc_sized LC → libc_cleared LC → reachable cow_use s →
  ∀ p vpn e, pte_of p vpn s = Some e →
    valid e = true → private e = true → writable e = false.
Proof.
  intros Hsz Hcl Hreach.
  enough (well_formed s ∧ state_all cow_ok s) as [_ Hall].
  { intros p vpn e He. by apply (state_all_pte_of _ _ _ _ _ Hall He). }
  induction Hreach as [|o s s' _ [IHwf IHall] Huse Hexec].
  - split; [apply well_formed_init|apply state_all_init].
  - split.
    + eapply well_formed_exec; [done..|apply Huse|done|done].
    + by eapply state_all_exec.
Qed.

End Claims.

(** * Further properties of the four functions *)

(** ** alloc_page *)

Section MoreAlloc.
Context {VM : vm_h} {OK : vm_h_ok VM} {LC : libc}.

Lemma in_table_index (vpn : Z) :
  in_table vpn → 0 ≤ vpn / NR_PTES_PER_PAGE < NR_PTES_PER_PAGE.
Proof.
  intros [H0 H1]. pose proof ptes_range. split.
  - by apply Z.div_pos.
  - apply Z.div_lt_upper_bound; lia.
Qed.

Lemma beyond_table_index (vpn : Z) :
  NR_PTES_PER_PAGE * NR_PTES_PER_PAGE ≤ vpn →
  0 ≤ vpn ∧ NR_PTES_PER_PAGE ≤ vpn / NR_PTES_PER_PAGE.
Proof.
  intros Hv. pose proof ptes_range. split; [nia|].
  apply Z.div_le_lower_bound; lia.
Qed.

(** The call of [alloc_page] for a page of the table, outside the case
    of line 82, in full. *)
Lemma alloc_page_in_table (vpn rw : Z) (s : state) :
  libc_sized LC → well_formed s → in_table vpn →
  Z.of_nat (frames_in_use (mapcounts s)) ≠ NR_PAGEFRAMES - 1 →
  ∃ pt o e cnt,
    let f := search_pfn (marking (mapcounts s)) in
    focus s = Some (current s, pt) ∧
    outer_ptes pt !! Z.to_nat (vpn / NR_PTES_PER_PAGE) = Some o ∧
    ptes (default malloc_pte_directory o)
      !! Z.to_nat (vpn mod NR_PTES_PER_PAGE) = Some e ∧
    slot_before vpn s = Some e ∧
    0 ≤ f < NR_PAGEFRAMES ∧ mapcounts s !! Z.to_nat f = Some cnt ∧
    alloc_page vpn rw s
    = Ok (f, mapped (current s) pt (default malloc_pte_directory o) e vpn rw f cnt s).
Proof.
  intros [Hsz _] Hwf Hin Hn. pose proof (in_table_index _ Hin) as [Hi0 Hi].
  destruct Hin as [Hv _].
  destruct (well_formed_focus _ Hwf) as (pt & Hf & Hpt).
  destruct Hwf as (Hlen & _ & _ & _ & _). pose proof frames_range as HN.
  destruct (pagetable_ok_slot _ (vpn / NR_PTES_PER_PAGE) Hpt) as (o & Ho & Hok); [lia|].
  assert (length (ptes (default malloc_pte_directory o)) = Z.to_nat NR_PTES_PER_PAGE) as Hd.
  { destruct o as [d|]; [apply Hok|done]. }
  destruct (directory_ok_entry _ _ Hd (mod_range vpn)) as [e He].
  assert (mapcounts s ≠ []) as Hne.
  { intros E. rewrite E in Hlen. simpl in Hlen. lia. }
  pose proof (search_pfn_range _ Hne) as Hr.
  destruct (lookup_lt_is_Some_2 (mapcounts s)
              (Z.to_nat (search_pfn (marking (mapcounts s))))) as [cnt Hc]; [lia|].
  exists pt, o, e, cnt. cbv zeta. repeat split; try done; try lia.
  - unfold slot_before. rewrite (pte_of_current _ _ _ Hf). unfold pte_at.
    destruct (Z.ltb_spec vpn 0); [lia|]. rewrite Ho. destruct o as [d|]; simpl in *.
    + by rewrite He.
    + done.
  - by apply alloc_page_maps.
Qed.

Lemma pte_of_mapped (s : state) (c : nat) (pt : pagetable) (o : option pte_directory)
    (d : pte_directory) (e : pte) (vpn rw f cnt : Z) :
  focus s = Some (c, pt) → 0 ≤ vpn →
  outer_ptes pt !! Z.to_nat (vpn / NR_PTES_PER_PAGE) = Some o →
  ptes d !! Z.to_nat (vpn mod NR_PTES_PER_PAGE) = Some e →
  pte_of c vpn (mapped c pt d e vpn rw f cnt s) = Some (installed rw f e).
Proof.
  intros Hf Hv Ho He. unfold mapped.
  change (pte_of c vpn (with_mapcounts ?m ?s')) with (pte_of c vpn s').
  rewrite (pte_of_put_table_eq _ _ pt) by done.
  by rewrite (pte_at_put _ _ _ _ _ _ Hv Ho He).
Qed.

Lemma mapcount_mapped (s : state) (c : nat) (pt : pagetable) (d : pte_directory)
    (e : pte) (vpn rw f cnt g : Z) :
  0 ≤ f → mapcounts s !! Z.to_nat f = Some cnt →
  mapcount g (mapped c pt d e vpn rw f cnt s)
  = if decide (g = f) then Some (uint (cnt + 1)) else mapcount g s.
Proof.
  intros Hf Hc. unfold mapped, mapcount. simpl.
  destruct (Z.ltb_spec g 0).
  - rewrite decide_False by lia. done.
  - case_decide as E.
    + subst. apply list_lookup_insert_eq. by eapply lookup_lt_Some.
    + apply list_lookup_insert_ne. lia.
Qed.

Lemma pte_at_put_other (pt : pagetable) (vpn vpn' : Z) (o : option pte_directory)
    (d : pte_directory) (e' : pte) :
  0 ≤ vpn → vpn' ≠ vpn →
  outer_ptes pt !! Z.to_nat (vpn / NR_PTES_PER_PAGE) = Some o →
  pte_at (put_directory (vpn / NR_PTES_PER_PAGE)
            (put_pte (vpn mod NR_PTES_PER_PAGE) e' d) pt) vpn'
  = if decide (vpn' / NR_PTES_PER_PAGE = vpn / NR_PTES_PER_PAGE)
    then ptes d !! Z.to_nat (vpn' mod NR_PTES_PER_PAGE)
    else pte_at pt vpn'.
Proof.
  intros Hv Hne Ho. pose proof ptes_range as HN. unfold pte_at.
  pose proof (div_mod_nonneg _ Hv) as [Hi0 Hj0].
  destruct (Z.ltb_spec vpn' 0) as [Hneg|Hpos].
  { rewrite decide_False; [done|].
    assert (vpn' / NR_PTES_PER_PAGE < 0) by (apply Z.div_lt_upper_bound; lia). lia. }
  pose proof (div_mod_nonneg _ Hpos) as [Hi0' Hj0'].
  unfold put_directory, put_pte. simpl. case_decide as E.
  - rewrite E, list_lookup_insert_eq by (by eapply lookup_lt_Some). simpl.
    apply list_lookup_insert_ne. intros Ej. apply Hne.
    rewrite (Z.div_mod vpn NR_PTES_PER_PAGE), (Z.div_mod vpn' NR_PTES_PER_PAGE) by lia.
    rewrite E. f_equal. lia.
  - rewrite list_lookup_insert_ne by lia. done.
Qed.

Lemma installed_fields (rw f : Z) (e : pte) :
  installed rw f e
  = Pte true
      (if rw =? RW_READ then false
       else if rw =? Z.lor RW_WRITE RW_READ then true else writable e)
      f (private e).
Proof.
  unfold installed, apply_rw.
  destruct (rw =? RW_READ); [done|]. by destruct (rw =? Z.lor RW_WRITE RW_READ).
Qed.

(** X1: outside the case of line 82, [alloc_page] for a page of the table
    returns the lowest frame whose count is zero: the page is then on that
    frame, the count of the frame is 1, and no other count has changed. *)
Theorem alloc_page_smallest_free (vpn rw k : Z) (s : state) :
  libc_sized LC → well_formed s → in_table vpn →
  Z.of_nat (frames_in_use (mapcounts s)) ≠ NR_PAGEFRAMES - 1 →
  mapcount k s = Some 0 →
  (∀ j, 0 ≤ j < k → ∃ c, mapcount j s = Some c ∧ 0 < c) →
  ∃ s', alloc_page vpn rw s = Ok (k, s') ∧
    frame_of (current s) vpn s' = Some k ∧
    mapcount k s' = Some 1 ∧
    ∀ f, f ≠ k → mapcount f s' = mapcount f s.
Proof.
  intros Hsz Hwf Hin Hn [Hk0 Hk]%mapcount_inv Hlow.
  assert (search_pfn (marking (mapcounts s)) = k) as Hsearch.
  { rewrite (search_pfn_lowest _ (Z.to_nat k) 0); [lia|done|done|].
    intros m Hm. destruct (Hlow (Z.of_nat m)) as (c & Hc & Hpos); [lia|].
    rewrite mapcount_intro, Nat2Z.id in Hc by lia. eauto. }
  destruct (alloc_page_in_table vpn rw s Hsz Hwf Hin Hn)
    as (pt & o & e & cnt & Hf & Ho & He & _ & Hr & Hc & Ha).
  rewrite Hsearch in Hr, Hc, Ha. assert (cnt = 0) as -> by congruence.
  eexists. split; [exact Ha|]. destruct Hin as [Hv _]. split; [|split].
  - unfold frame_of.
    by rewrite (pte_of_mapped _ _ _ _ _ _ _ _ _ _ Hf Hv Ho He), installed_fields.
  - rewrite (mapcount_mapped _ _ _ _ _ _ _ _ _ _ Hk0 Hc). by rewrite decide_True.
  - intros f Hne. rewrite (mapcount_mapped _ _ _ _ _ _ _ _ _ _ Hk0 Hc).
    by rewrite decide_False.
Qed.

(** X2: the entry [alloc_page] leaves for a page of the table is valid
    and names the frame returned.  It is read-only for [RW_READ] and
    writable for [RW_READ | RW_WRITE]; for any other access, [RW_WRITE]
    alone included, the writable flag is the one the slot held before.
    The private flag is never written. *)
Theorem alloc_page_entry (vpn rw r : Z) (s s' : state) :
  libc_sized LC → well_formed s → in_table vpn →
  Z.of_nat (frames_in_use (mapcounts s)) ≠ NR_PAGEFRAMES - 1 →
  alloc_page vpn rw s = Ok (r, s') →
  ∃ e, slot_before vpn s = Some e ∧
    pte_of (current s) vpn s'
    = Some (Pte true
              (if rw =? RW_READ then false
               else if rw =? Z.lor RW_WRITE RW_READ then true else writable e)
              r (private e)).
Proof.
  intros Hsz Hwf Hin Hn Hcall.
  destruct (alloc_page_in_table vpn rw s Hsz Hwf Hin Hn)
    as (pt & o & e & cnt & Hf & Ho & He & Hbefore & Hr & Hc & Ha).
  rewrite Ha in Hcall. injection Hcall as <- <-. exists e. split; [done|].
  destruct Hin as [Hv _].
  by rewrite (pte_of_mapped _ _ _ _ _ _ _ _ _ _ Hf Hv Ho He), installed_fields.
Qed.

(** X3: where [alloc_page] has to create the directory of the page
    (line 96), it writes one entry of the new directory and no other: the
    other pages of the directory have the entries malloc left in the
    block, valid or not. *)
Theorem alloc_page_new_directory (vpn vpn' rw r : Z) (s s' : state) :
  libc_sized LC → well_formed s → in_table vpn →
  Z.of_nat (frames_in_use (mapcounts s)) ≠ NR_PAGEFRAMES - 1 →
  pte_of (current s) vpn s = None →
  alloc_page vpn rw s = Ok (r, s') →
  vpn' / NR_PTES_PER_PAGE = vpn / NR_PTES_PER_PAGE → vpn' ≠ vpn →
  pte_of (current s) vpn' s'
  = ptes malloc_pte_directory !! Z.to_nat (vpn' mod NR_PTES_PER_PAGE).
Proof.
  intros Hsz Hwf Hin Hn Hnone Hcall Hdir Hne.
  destruct (alloc_page_in_table vpn rw s Hsz Hwf Hin Hn)
    as (pt & o & e & cnt & Hf & Ho & He & _ & _ & _ & Ha).
  rewrite Ha in Hcall. injection Hcall as <- <-. destruct Hin as [Hv _].
  assert (o = None) as ->.
  { destruct o as [d|]; [|done]. simpl in He.
    by rewrite (pte_of_current _ _ _ Hf), (pte_at_intro _ _ _ Hv Ho), He in Hnone. }
  simpl default. unfold mapped.
  change (pte_of (current s) vpn' (with_mapcounts ?m ?s0))
    with (pte_of (current s) vpn' s0).
  rewrite (pte_of_put_table_eq _ _ pt) by done.
  rewrite (pte_at_put_other _ _ _ _ _ _ Hv Hne Ho). by rewrite decide_True.
Qed.

(** X4: for a page number beyond the table no directory index matches at
    line 94: [alloc_page] maps nothing and changes no count, and still
    returns the frame number its search has found. *)
Theorem alloc_page_beyond_table (vpn rw : Z) (s : state) :
  well_formed s → NR_PTES_PER_PAGE * NR_PTES_PER_PAGE ≤ vpn →
  ∃ r, alloc_page vpn rw s = Ok (r, s) ∧
    (Z.of_nat (frames_in_use (mapcounts s)) ≠ NR_PAGEFRAMES - 1 →
     r = search_pfn (marking (mapcounts s))).
Proof.
  intros Hwf [Hv Hi]%beyond_table_index.
  destruct (well_formed_focus _ Hwf) as (pt & Hf & _).
  destruct (decide (Z.of_nat (frames_in_use (mapcounts s)) = NR_PAGEFRAMES - 1)) as [Hn|Hn].
  - rewrite (alloc_page_gives_up _ _ _ _ Hf Hn). eexists. split; [done|]. done.
  - rewrite (alloc_page_outside _ _ _ _ Hf Hn Hv Hi). eexists. split; done.
Qed.

(** X5: [alloc_page] on a page that is already mapped does not release
    the frame the page was on.  The page moves to another frame, the count
    of the old frame stays as it was, and one entry fewer names it. *)
Theorem alloc_page_remap (vpn rw : Z) (s : state) (e : pte) (c : Z) :
  well_formed s → pte_of (current s) vpn s = Some e → valid e = true →
  mapcount (pfn e) s = Some c → 0 < c →
  Z.of_nat (frames_in_use (mapcounts s)) < NR_PAGEFRAMES - 1 →
  ∃ r s', alloc_page vpn rw s = Ok (r, s') ∧ r ≠ pfn e ∧
    frame_of (current s) vpn s' = Some r ∧
    mapcount (pfn e) s' = Some c ∧
    (references (pfn e) s' + 1 = references (pfn e) s)%nat.
Proof.
  intros Hwf He Hvalid [Hp0 Hc]%mapcount_inv Hpos Hfree.
  pose proof Hwf as (Hlen & Hcounts & _ & _ & Hptbr).
  destruct (pte_of_focus _ _ _ _ Hptbr He) as (pt & Hf & Hat).
  destruct (well_formed_focus _ Hwf) as (pt' & Hf' & Hpt).
  assert (pt' = pt) as -> by congruence. clear Hf'.
  destruct (pte_at_inv _ _ _ Hat) as (Hv & d & Hd & Hj).
  pose proof (div_mod_nonneg _ Hv) as [Hi0 Hj0].
  pose proof (pagetable_ok_range _ _ _ Hpt Hi0 Hd) as [Hi _].
  destruct (search_pfn_free (mapcounts s)) as (k & z & Hk & Hkz & Hz); [lia|].
  assert (Z.of_nat k ≠ pfn e) as Hne.
  { intros E. rewrite <- E, Nat2Z.id in Hc. simplify_eq. lia. }
  pose proof (alloc_page_maps vpn rw s pt (Some d) e z) as Ha.
  cbv zeta in Ha. rewrite Hk, Nat2Z.id in Ha.
  specialize (Ha Hf ltac:(lia) Hv Hi Hd Hj Hkz).
  exists (Z.of_nat k). eexists. split; [exact Ha|split; [done|split; [|split]]].
  - unfold frame_of. simpl default.
    by rewrite (pte_of_mapped _ _ _ _ _ _ _ _ _ _ Hf Hv Hd Hj), installed_fields.
  - simpl default. rewrite mapcount_mapped; [|lia|by rewrite Nat2Z.id].
    rewrite decide_False by done. by rewrite mapcount_intro.
  - simpl default. unfold mapped.
    change (references ?f (with_mapcounts ?m ?s')) with (references f s').
    pose proof (references_put (pfn e) s (current s) pt
      (put_directory (vpn / NR_PTES_PER_PAGE)
         (put_pte (vpn mod NR_PTES_PER_PAGE) (installed rw (Z.of_nat k) e) d) pt) Hf) as H1.
    pose proof (pagetable_refs_put (pfn e) pt (vpn / NR_PTES_PER_PAGE) (Some d)
      (put_pte (vpn mod NR_PTES_PER_PAGE) (installed rw (Z.of_nat k) e) d) Hd) as H2.
    pose proof (directory_refs_put (pfn e) d (vpn mod NR_PTES_PER_PAGE) e
      (installed rw (Z.of_nat k) e) Hj) as H3.
    rewrite pte_refs_installed in H3. rewrite (pte_refs_valid _ _ Hvalid) in H3.
    rewrite Z.eqb_refl in H3.
    destruct (Z.eqb_spec (Z.of_nat k) (pfn e)) as [|_]; [done|].
    simpl slot_refs in H2. lia.
Qed.

(** X6: [alloc_page] returns -1 exactly when [NR_PAGEFRAMES - 1] frames
    have a positive count, and it has then changed nothing. *)
Theorem alloc_page_exhausted_iff (vpn rw r : Z) (s s' : state) :
  libc_sized LC → well_formed s → 0 ≤ vpn →
  alloc_page vpn rw s = Ok (r, s') →
  (r = UINT_MAX ↔ Z.of_nat (frames_in_use (mapcounts s)) = NR_PAGEFRAMES - 1) ∧
  (r = UINT_MAX → s' = s).
Proof.
  intros Hsz Hwf Hv Hcall. pose proof frames_range as HN.
  destruct (well_formed_focus _ Hwf) as (pt & Hf & _).
  pose proof Hwf as (Hlen & _).
  assert (UINT_MAX = 2 ^ 32 - 1) as HM by done.
  destruct (decide (Z.of_nat (frames_in_use (mapcounts s)) = NR_PAGEFRAMES - 1)) as [Hn|Hn].
  { rewrite (alloc_page_gives_up _ _ _ _ Hf Hn) in Hcall.
    injection Hcall as <- <-. done. }
  assert (0 ≤ r < NR_PAGEFRAMES) as Hr.
  { destruct (decide (vpn / NR_PTES_PER_PAGE < NR_PTES_PER_PAGE)) as [Hi|Hi].
    - assert (in_table vpn) as Hin.
      { split; [done|].
        destruct (Z.lt_ge_cases vpn (NR_PTES_PER_PAGE * NR_PTES_PER_PAGE)) as [|Hge]; [done|].
        apply beyond_table_index in Hge as [_ Hge]. lia. }
      destruct (alloc_page_in_table vpn rw s Hsz Hwf Hin Hn)
        as (pt1 & o & e & cnt & _ & _ & _ & _ & Hr & _ & Ha).
      rewrite Ha in Hcall. injection Hcall as <- _. exact Hr.
    - rewrite (alloc_page_outside _ _ _ _ Hf Hn Hv) in Hcall by lia.
      injection Hcall as <- <-.
      assert (mapcounts s ≠ []) as Hne.
      { intros E. rewrite E in Hlen. simpl in Hlen. lia. }
      pose proof (search_pfn_range _ Hne). lia. }
  split; [split|]; intros; lia.
Qed.

End MoreAlloc.

(** ** free_page *)

Section MoreFree.
Context {VM : vm_h} {OK : vm_h_ok VM} {LC : libc}.

Lemma released_max (c : Z) : 0 ≤ c → released c = Z.max 0 (c - 1).
Proof.
  intros Hc. unfold released.
  destruct (Z.ltb_spec 1 c); [lia|]. destruct (Z.eqb_spec c 1); lia.
Qed.

Lemma pte_of_unmapped (s : state) (c : nat) (pt : pagetable) (d : pte_directory)
    (e : pte) (vpn cnt : Z) :
  focus s = Some (c, pt) → 0 ≤ vpn →
  outer_ptes pt !! Z.to_nat (vpn / NR_PTES_PER_PAGE) = Some (Some d) →
  ptes d !! Z.to_nat (vpn mod NR_PTES_PER_PAGE) = Some e →
  pte_of c vpn (unmapped c pt d e vpn cnt s) = Some malloc_pte.
Proof.
  intros Hf Hv Ho He. unfold unmapped.
  rewrite (pte_of_put_table_eq _ _ pt) by exact Hf.
  by rewrite (pte_at_put _ _ _ _ _ _ Hv Ho He).
Qed.

Lemma mapcount_unmapped (s : state) (c : nat) (pt : pagetable) (d : pte_directory)
    (e : pte) (vpn cnt g : Z) :
  0 ≤ pfn e → mapcounts s !! Z.to_nat (pfn e) = Some cnt →
  mapcount g (unmapped c pt d e vpn cnt s)
  = if decide (g = pfn e) then Some (released cnt) else mapcount g s.
Proof.
  intros Hf Hc. unfold unmapped, mapcount. simpl.
  destruct (Z.ltb_spec g 0).
  - rewrite decide_False by lia. done.
  - case_decide as E.
    + rewrite E. apply list_lookup_insert_eq. by eapply lookup_lt_Some.
    + apply list_lookup_insert_ne. lia.
Qed.

(** X7: [free_page] on a page whose directory exists stores in its entry
    what malloc returned at line 127, whether or not the entry was valid.
    The count of the frame the entry names goes down by one and never
    below zero; no other count changes. *)
Theorem free_page_release (vpn : Z) (s : state) (e : pte) (c : Z) :
  well_formed s → pte_of (current s) vpn s = Some e →
  mapcount (pfn e) s = Some c →
  ∃ s', free_page vpn s = Ok s' ∧
    pte_of (current s) vpn s' = Some malloc_pte ∧
    mapcount (pfn e) s' = Some (Z.max 0 (c - 1)) ∧
    ∀ f, f ≠ pfn e → mapcount f s' = mapcount f s.
Proof.
  intros Hwf He [Hp0 Hc]%mapcount_inv.
  pose proof Hwf as (_ & Hcounts & _ & _ & Hptbr).
  destruct (pte_of_focus _ _ _ _ Hptbr He) as (pt & Hf & Hat).
  destruct (well_formed_focus _ Hwf) as (pt' & Hf' & Hpt).
  assert (pt' = pt) as -> by congruence. clear Hf'.
  destruct (pte_at_inv _ _ _ Hat) as (Hv & d & Hd & Hj).
  pose proof (div_mod_nonneg _ Hv) as [Hi0 Hj0].
  pose proof (pagetable_ok_range _ _ _ Hpt Hi0 Hd) as [Hi _].
  rewrite (free_page_unmaps _ _ _ _ _ _ _ Hf Hv Hi Hd Hj Hp0 Hc).
  eexists. split; [done|]. split; [|split].
  - by apply pte_of_unmapped.
  - rewrite (mapcount_unmapped _ _ _ _ _ _ _ _ Hp0 Hc), decide_True by done.
    rewrite released_max; [done|].
    rewrite Forall_lookup in Hcounts. apply (Hcounts _ _ Hc).
  - intros f Hne. by rewrite (mapcount_unmapped _ _ _ _ _ _ _ _ Hp0 Hc), decide_False.
Qed.

(** X8: [free_page] on a page of the table whose directory does not
    exist reads the entry through the NULL directory pointer (line 132). *)
Theorem free_page_missing_directory (vpn : Z) (s : state) :
  well_formed s → in_table vpn → pte_of (current s) vpn s = None →
  free_page vpn s = Stop NullPointer.
Proof.
  intros Hwf Hin Hnone. pose proof (in_table_index _ Hin) as [Hi0 Hi].
  destruct Hin as [Hv _]. destruct (well_formed_focus _ Hwf) as (pt & Hf & Hpt).
  destruct (pagetable_ok_slot _ (vpn / NR_PTES_PER_PAGE) Hpt) as (o & Ho & Hok); [lia|].
  destruct o as [d|]; [|by eapply free_page_null_directory].
  destruct Hok as [Hlen _].
  destruct (directory_ok_entry _ _ Hlen (mod_range vpn)) as [e He].
  rewrite (pte_of_current _ _ _ Hf), (pte_at_intro _ _ _ Hv Ho), He in Hnone. done.
Qed.

(** X9: for a page number beyond the table no directory index matches at
    line 131: [free_page] returns and has changed nothing, in any state. *)
Theorem free_page_beyond_table (vpn : Z) (s : state) :
  NR_PTES_PER_PAGE * NR_PTES_PER_PAGE ≤ vpn → free_page vpn s = Ok s.
Proof. intros [Hv Hi]%beyond_table_index. by apply free_page_outside. Qed.

Lemma frame_of_with_mapcounts (p : nat) (vpn : Z) (m : list Z) (s : state) :
  frame_of p vpn (with_mapcounts m s) = frame_of p vpn s.
Proof. done. Qed.

Lemma frame_of_put_table_ne (s : state) (c p : nat) (pt : pagetable) (vpn : Z) :
  p ≠ c → frame_of p vpn (put_table c pt s) = frame_of p vpn s.
Proof. intros Hne. unfold frame_of. by rewrite pte_of_put_table_ne. Qed.

(** X10: where at least two frames are free, [alloc_page] on a page that
    is not mapped followed by [free_page] on the same page is a round
    trip: every count is back at its value, and every page of every
    process is on the frame it was on, or on none. *)
Theorem alloc_page_free_page (vpn rw r : Z) (s s1 : state) :
  libc_sized LC → libc_cleared LC → well_formed s → in_table vpn →
  frame_of (current s) vpn s = None →
  Z.of_nat (frames_in_use (mapcounts s)) < NR_PAGEFRAMES - 1 →
  alloc_page vpn rw s = Ok (r, s1) →
  ∃ s2, free_page vpn s1 = Ok s2 ∧ mapcounts s2 = mapcounts s ∧
    ∀ p vpn', frame_of p vpn' s2 = frame_of p vpn' s.
Proof.
  intros Hsz Hcl Hwf Hin Hnone Hfree Hcall.
  pose proof Hwf as (Hlen & Hcounts & _).
  destruct (alloc_page_in_table vpn rw s Hsz Hwf Hin)
    as (pt & o & e & cnt & Hf & Ho & He & Hbefore & Hr & Hc & Ha); [lia|].
  rewrite Ha in Hcall. injection Hcall as <- <-.
  set (r := search_pfn (marking (mapcounts s))) in *.
  set (d0 := default malloc_pte_directory o) in *.
  assert (cnt = 0) as ->.
  { destruct (search_pfn_free (mapcounts s)) as (k & z & Hk & Hkz & Hz); [lia|].
    fold r in Hk. rewrite Hk, Nat2Z.id, Hkz in Hc. injection Hc as <-.
    rewrite Forall_lookup in Hcounts. specialize (Hcounts _ _ Hkz). simpl in Hcounts. lia. }
  pose proof (in_table_index _ Hin) as [Hi0 Hi]. destruct Hin as [Hv _].
  set (i := vpn / NR_PTES_PER_PAGE) in *. set (j := vpn mod NR_PTES_PER_PAGE) in *.
  set (d1 := put_pte j (installed rw r e) d0).
  set (pt1 := put_directory i d1 pt).
  set (s1 := mapped (current s) pt d0 e vpn rw r 0 s).
  assert (focus s1 = Some (current s, pt1)) as Hf1.
  { unfold s1, mapped. fold i j d1 pt1.
    change (focus (put_table (current s) pt1 s) = Some (current s, pt1)).
    by eapply focus_put_table. }
  assert (outer_ptes pt1 !! Z.to_nat i = Some (Some d1)) as Ho1
    by (by eapply put_directory_lookup).
  assert (ptes d1 !! Z.to_nat j = Some (installed rw r e)) as He1
    by (by eapply put_pte_lookup).
  assert (pfn (installed rw r e) = r) as Hpfn by (by rewrite installed_fields).
  assert (mapcounts s1 !! Z.to_nat r = Some 1) as Hc1.
  { unfold s1, mapped. simpl. apply list_lookup_insert_eq. by eapply lookup_lt_Some. }
  pose proof (free_page_unmaps vpn s1 (current s) pt1 d1 (installed rw r e) 1
                Hf1 Hv Hi Ho1 He1) as Hfree1.
  rewrite Hpfn in Hfree1. rewrite (Hfree1 ltac:(lia) Hc1). clear Hfree1.
  eexists. split; [done|]. split.
  - unfold unmapped, s1, mapped. simpl. rewrite list_insert_insert_eq.
    by apply list_insert_id.
  - intros p vpn'. unfold unmapped. destruct (decide (p = current s)) as [->|Hp].
    2: { rewrite frame_of_put_table_ne, frame_of_with_mapcounts by done.
         unfold s1, mapped.
         by rewrite frame_of_with_mapcounts, frame_of_put_table_ne. }
    unfold frame_of at 1. rewrite (pte_of_put_table_eq _ _ pt1) by exact Hf1.
    unfold pt1, d1. rewrite put_directory_put_directory, put_pte_put_pte.
    fold i j. destruct (decide (vpn' = vpn)) as [->|Hne].
    + fold i j. unfold i, j. rewrite (pte_at_put _ _ _ _ _ _ Hv Ho He). simpl.
      destruct Hcl as (-> & _). by rewrite Hnone.
    + unfold i, j. rewrite (pte_at_put_other _ _ _ _ _ _ Hv Hne Ho). fold i j.
      unfold frame_of. rewrite (pte_of_current _ _ _ Hf).
      case_decide as E; [|done]. unfold pte_at.
      destruct (Z.ltb_spec vpn' 0) as [Hneg|Hpos].
      { pose proof ptes_range.
        assert (vpn' / NR_PTES_PER_PAGE < 0) by (apply Z.div_lt_upper_bound; lia). lia. }
      rewrite E. fold i. rewrite Ho. destruct o as [d|]; [done|]. simpl.
      destruct (ptes d0 !! Z.to_nat (vpn' mod NR_PTES_PER_PAGE)) as [e''|] eqn:E''; [|done].
      simpl. destruct Hcl as (_ & _ & Hdir & _). rewrite Forall_lookup in Hdir.
      destruct (Hdir _ _ E'') as [-> _]. done.
Qed.

End MoreFree.

(** ** handle_page_fault *)

Section MoreFault.
Context {VM : vm_h} {OK : vm_h_ok VM} {LC : libc}.

(** Lines 176-187: with no directory or no valid entry for the page, the
    handler is [alloc_page] followed by [return true]. *)
Lemma handle_page_fault_invalid (vpn rw : Z) (s : state) :
  well_formed s → in_table vpn → frame_of (current s) vpn s = None →
  handle_page_fault vpn rw s = alloc_and_resolve vpn rw s.
Proof.
  intros Hwf Hin Hnone. pose proof (in_table_index _ Hin) as [Hi0 Hi].
  destruct Hin as [Hv _]. destruct (well_formed_focus _ Hwf) as (pt & Hf & Hpt).
  pose proof Hwf as (_ & _ & _ & _ & Hptbr).
  pose proof (div_mod_nonneg _ Hv) as [_ Hj0].
  destruct (pagetable_ok_slot _ (vpn / NR_PTES_PER_PAGE) Hpt) as (o & Ho & Hok); [lia|].
  unfold handle_page_fault. rewrite Hptbr.
  rewrite (load_outer_focus _ _ _ _ _ Hf Hi0 Ho), bind_Ok.
  destruct o as [d|]; [|done]. destruct Hok as [Hlen _].
  destruct (directory_ok_entry _ _ Hlen (mod_range vpn)) as [e He].
  rewrite (index_ok _ _ _ Hj0 He), bind_Ok.
  unfold frame_of in Hnone.
  rewrite (pte_of_current _ _ _ Hf), (pte_at_intro _ _ _ Hv Ho), He in Hnone.
  simpl in Hnone. by destruct (valid e).
Qed.

(** X11: a fault on a page of the table that has no valid entry is
    handled by [alloc_page], and the handler returns true whatever
    [alloc_page] has returned: with [NR_PAGEFRAMES - 1] frames in use it
    returns true and the page is as unmapped as before. *)
Theorem handle_page_fault_unmapped (vpn rw : Z) (s : state) :
  libc_sized LC → well_formed s → in_table vpn →
  frame_of (current s) vpn s = None →
  ∃ r s', alloc_page vpn rw s = Ok (r, s') ∧
    handle_page_fault vpn rw s = Ok (true, s') ∧
    (Z.of_nat (frames_in_use (mapcounts s)) = NR_PAGEFRAMES - 1 →
     r = UINT_MAX ∧ s' = s).
Proof.
  intros Hsz Hwf Hin Hnone.
  rewrite (handle_page_fault_invalid _ _ _ Hwf Hin Hnone). unfold alloc_and_resolve.
  destruct (alloc_page_effect vpn rw s Hsz Hwf (proj1 Hin)) as (r & s' & Ha & _).
  exists r, s'. rewrite Ha, bind_Ok. do 2 (split; [done|]). intros Hn.
  destruct (well_formed_focus _ Hwf) as (pt & Hf & _).
  rewrite (alloc_page_gives_up _ _ _ _ Hf Hn) in Ha. by injection Ha as <- <-.
Qed.

Lemma handle_page_fault_declines (vpn rw : Z) (s : state) (e : pte) :
  well_formed s → pte_of (current s) vpn s = Some e → valid e = true →
  rw ≠ RW_WRITE ∨ writable e = true ∨ private e = false →
  handle_page_fault vpn rw s = Ok (false, s).
Proof.
  intros Hwf He Hvalid Hcase. pose proof Hwf as (_ & _ & _ & _ & Hptbr).
  destruct (pte_of_focus _ _ _ _ Hptbr He) as (pt & Hf & Hat).
  destruct (pte_at_inv _ _ _ Hat) as (Hv & d & Hd & Hj).
  rewrite (handle_page_fault_valid _ _ _ _ _ _ _ Hf Hv Hd Hj Hvalid).
  destruct Hcase as [Hrw|[->| ->]].
  - by destruct (Z.eqb_spec rw RW_WRITE).
  - by rewrite andb_false_r.
  - by rewrite andb_false_r.
Qed.

(** X12: on a valid entry the handler acts only for [rw == RW_WRITE] on
    an entry that is read-only and private.  A read fault, a write fault
    on a writable page, and a write fault on a read-only page that is not
    private are refused: the handler returns false and the state is the
    one it was called in. *)
Theorem handle_page_fault_refused (vpn rw : Z) (s : state) (e : pte) :
  well_formed s → pte_of (current s) vpn s = Some e → valid e = true →
  rw ≠ RW_WRITE ∨ writable e = true ∨ private e = false →
  handle_page_fault vpn rw s = Ok (false, s).
Proof. apply handle_page_fault_declines. Qed.

(** X13: a page that [alloc_page] has mapped with [RW_READ] in a slot that
    was not marked private cannot be written: a write fault on it is
    refused and changes nothing, as lines 55-57 ask. *)
Theorem read_only_page_stays_read_only (vpn r : Z) (s s' : state) (e : pte) :
  libc_sized LC → libc_cleared LC → well_formed s → in_table vpn →
  Z.of_nat (frames_in_use (mapcounts s)) ≠ NR_PAGEFRAMES - 1 →
  slot_before vpn s = Some e → private e = false →
  alloc_page vpn RW_READ s = Ok (r, s') →
  pte_of (current s') vpn s' = Some (Pte true false r false) ∧
  handle_page_fault vpn RW_WRITE s' = Ok (false, s').
Proof.
  intros Hsz Hcl Hwf Hin Hn Hbefore Hpriv Hcall.
  pose proof (well_formed_alloc_page _ _ _ _ _ Hsz Hcl Hwf (proj1 Hin) Hcall) as Hwf'.
  destruct (alloc_page_in_table vpn RW_READ s Hsz Hwf Hin Hn)
    as (pt & o & e' & cnt & Hf & Ho & He & Hbefore' & Hr & Hc & Ha).
  rewrite Ha in Hcall. injection Hcall as <- <-.
  assert (e' = e) as -> by congruence.
  assert (pte_of (current s) vpn
            (mapped (current s) pt (default malloc_pte_directory o) e vpn RW_READ
               (search_pfn (marking (mapcounts s))) cnt s)
          = Some (Pte true false (search_pfn (marking (mapcounts s))) false)) as He'.
  { rewrite (pte_of_mapped _ _ _ _ _ _ _ _ _ _ Hf (proj1 Hin) Ho He), installed_fields.
    by rewrite Z.eqb_refl, Hpriv. }
  split; [exact He'|].
  apply (handle_page_fault_declines vpn RW_WRITE _ _ Hwf' He'); [done|].
  right. by right.
Qed.

(** X14: the branch of lines 168-171 cannot succeed.  With [ptbr] NULL
    the handler calls [alloc_page], whose first statement (line 68)
    writes through [ptbr]. *)
Theorem handle_page_fault_null_ptbr (vpn rw : Z) (s : state) :
  ptbr s = None → (current s < length (memory s))%nat →
  handle_page_fault vpn rw s = Stop NullPointer.
Proof.
  intros Hp Hcur. unfold handle_page_fault, alloc_and_resolve, alloc_page.
  rewrite Hp. destruct (lookup_lt_is_Some_2 _ _ Hcur) as [pr Hpr].
  unfold load_process at 1. rewrite Hpr, bind_Ok.
  unfold store_ptbr, ptbr_owner. by rewrite Hp.
Qed.

(** X15: the handler reads [ptbr->outer_ptes[vpn / NR_PTES_PER_PAGE]]
    (line 173) without a bound on the index: for a page number beyond the
    table the read is outside the array. *)
Theorem handle_page_fault_beyond_table (vpn rw : Z) (s : state) :
  well_formed s → NR_PTES_PER_PAGE * NR_PTES_PER_PAGE ≤ vpn →
  handle_page_fault vpn rw s = Stop OutOfBounds.
Proof.
  intros Hwf [Hv Hi]%beyond_table_index.
  destruct (well_formed_focus _ Hwf) as (pt & Hf & [Hlen _]).
  pose proof Hwf as (_ & _ & _ & _ & Hptbr).
  unfold handle_page_fault, load_outer. rewrite Hptbr.
  rewrite (load_ptbr_focus _ _ _ Hf), bind_Ok. unfold index.
  destruct (Z.ltb_spec (vpn / NR_PTES_PER_PAGE) 0); [done|].
  rewrite lookup_ge_None_2; [done|]. lia.
Qed.

(** X16: for a page of the table the handler dereferences no NULL
    pointer and indexes no array out of bounds: it returns, and the
    state it leaves is well formed. *)
Theorem handle_page_fault_safe (vpn rw : Z) (s : state) :
  libc_sized LC → libc_cleared LC → well_formed s → in_table vpn →
  ∃ b s', handle_page_fault vpn rw s = Ok (b, s') ∧ well_formed s'.
Proof.
  intros Hsz Hcl Hwf Hin.
  enough (∃ b s', handle_page_fault vpn rw s = Ok (b, s')) as (b & s' & Hh).
  { exists b, s'. split; [done|].
    apply (well_formed_exec (Fault vpn rw) s s' Hsz Hcl (proj1 Hin) Hwf).
    simpl. by rewrite Hh. }
  destruct (frame_of (current s) vpn s) as [f|] eqn:Hfr.
  2: { rewrite (handle_page_fault_invalid _ _ _ Hwf Hin Hfr). unfold alloc_and_resolve.
       destruct (alloc_page_effect vpn rw s Hsz Hwf (proj1 Hin)) as (r & s' & -> & _).
       rewrite bind_Ok. eauto. }
  unfold frame_of in Hfr.
  destruct (pte_of (current s) vpn s) as [e|] eqn:He; [|done]. simpl in Hfr.
  destruct (valid e) eqn:Hvalid; [|done].
  pose proof Hwf as (_ & Hcounts & _ & _ & Hptbr).
  destruct (pte_of_focus _ _ _ _ Hptbr He) as (pt & Hf & Hat).
  destruct (well_formed_focus _ Hwf) as (pt' & Hf' & Hpt).
  assert (pt' = pt) as -> by congruence. clear Hf'.
  destruct (pte_at_inv _ _ _ Hat) as (Hv & d & Hd & Hj).
  rewrite (handle_page_fault_valid _ _ _ _ _ _ _ Hf Hv Hd Hj Hvalid).
  destruct ((rw =? RW_WRITE) && negb (writable e) && private e); [|eauto].
  pose proof (div_mod_nonneg _ Hv) as [Hi0 Hj0].
  pose proof (pagetable_ok_range _ _ _ Hpt Hi0 Hd) as [_ [_ Hframes]].
  rewrite Forall_lookup in Hframes. specialize (Hframes _ _ Hj Hvalid).
  pose proof Hwf as (Hlen & _).
  destruct (lookup_lt_is_Some_2 (mapcounts s) (Z.to_nat (pfn e))) as [cnt Hc]; [lia|].
  rewrite (load_mapcount_ok _ _ _ (proj1 Hframes) Hc), bind_Ok.
  destruct (Z.ltb_spec 1 cnt) as [Hgt|_]; [|eauto].
  rewrite (store_mapcount_ok _ _ _ _ (proj1 Hframes) Hc), bind_Ok.
  unfold alloc_and_resolve.
  edestruct (alloc_page_effect vpn (Z.lor rw RW_READ)) as (r & s' & -> & _);
    [done| |exact Hv|rewrite bind_Ok; eauto].
  apply well_formed_store_mapcount; [done|].
  rewrite Forall_lookup in Hcounts. specialize (Hcounts _ _ Hc). simpl in Hcounts. lia.
Qed.

End MoreFault.

(** ** What the page operations leave alone, and what every call keeps *)

Section MoreRun.
Context {VM : vm_h} {OK : vm_h_ok VM} {LC : libc}.

Lemma fmap_alter_same {A B} (g : A → B) (f : A → A) (i : nat) (l : list A) :
  (∀ x, g (f x) = g x) → g <$> alter f i l = g <$> l.
Proof.
  intros Hg. apply list_eq. intros k. rewrite !list_lookup_fmap.
  destruct (decide (i = k)) as [->|Hne].
  - rewrite list_lookup_alter_eq. destruct (l !! k); simpl; [|done]. by rewrite Hg.
  - by rewrite list_lookup_alter_ne.
Qed.

Lemma same_others_refl (s : state) : same_others s s.
Proof. by repeat split. Qed.

Lemma same_others_put_table (s : state) (pt : pagetable) :
  same_others s (put_table (current s) pt s).
Proof.
  repeat split; simpl.
  - by apply fmap_alter_same.
  - by apply fmap_alter_same.
  - intros p Hp. rewrite tables_put_table. by apply list_lookup_insert_ne.
Qed.

Lemma same_others_with_mapcounts (s s' : state) (m : list Z) :
  same_others s s' → same_others s (with_mapcounts m s').
Proof. done. Qed.

Lemma same_others_alloc_page (vpn rw r : Z) (s s' : state) :
  libc_sized LC → well_formed s → 0 ≤ vpn →
  alloc_page vpn rw s = Ok (r, s') → same_others s s'.
Proof.
  intros Hsz Hwf Hv Ha.
  destruct (alloc_page_effect vpn rw s Hsz Hwf Hv) as (r' & s'' & Ha' & Heff).
  rewrite Ha in Ha'. injection Ha' as <- <-.
  destruct Heff as [[-> _]|(pt & o & e & cnt & _ & _ & _ & _ & _ & _ & ->)].
  - apply same_others_refl.
  - apply same_others_with_mapcounts, same_others_put_table.
Qed.

Lemma same_others_exec (o : op) (s s' : state) :
  libc_sized LC → well_formed s → op_typed o → page_op o →
  exec o s = Ok s' → same_others s s'.
Proof.
  intros Hsz Hwf Ho Hpage.
  destruct o as [vpn rw|vpn|vpn rw|fuel wanted]; simpl in *; [| | |done].
  - destruct (alloc_page vpn rw s) as [[r s'']|] eqn:Ha; [|done].
    rewrite bind_Ok. intros [= <-]. by eapply same_others_alloc_page.
  - intros [->|Hun]%free_page_effect; [apply same_others_refl| |done..].
    destruct Hun as (pt & d & e & cnt & _ & _ & _ & _ & _ & _ & ->).
    unfold unmapped.
    apply (same_others_put_table (with_mapcounts _ s)).
  - destruct (handle_page_fault vpn rw s) as [[b s'']|] eqn:Hh; [|done].
    rewrite bind_Ok. intros [= <-].
    apply handle_page_fault_effect in Hh as [->|[[_ [r Ha]]|[Hpr|Hdup]]];
      [| | | |done..].
    + apply same_others_refl.
    + by eapply same_others_alloc_page.
    + destruct Hpr as (pt & d & e & _ & _ & _ & _ & ->). apply same_others_put_table.
    + destruct Hdup as (e & cnt & r & _ & _ & _ & _ & _ & Hc & Hgt & Ha).
      pose proof Hwf as (_ & Hcounts & _).
      apply mapcount_inv in Hc as [_ Hc].
      rewrite Forall_lookup in Hcounts. specialize (Hcounts _ _ Hc). simpl in Hcounts.
      eapply (same_others_alloc_page _ _ _ (with_mapcounts _ s)); [done| |done|exact Ha].
      apply well_formed_store_mapcount; [done|lia].
Qed.

(** X17: [alloc_page], [free_page] and [handle_page_fault] write to the
    table of the running process and to the counters, and to nothing
    else: the ready queue, the process identifiers, [current], [ptbr] and
    the table of every other process are as they were. *)
Theorem page_op_isolated (o : op) (s s' : state) :
  libc_sized LC → well_formed s → op_typed o → page_op o →
  exec o s = Ok s' →
  processes s' = processes s ∧ current s' = current s ∧ ptbr s' = ptbr s ∧
  pids s' = pids s ∧ p_list <$> memory s' = p_list <$> memory s ∧
  ∀ p, p ≠ current s → tables s' !! p = tables s !! p.
Proof. apply same_others_exec. Qed.

(** X18: malloc returning cleared blocks of the right size, every state
    reached from the initial one by calls with page numbers that are not
    negative is well formed: [ptbr] points to the table of the running
    process, there are [NR_PAGEFRAMES] counters, and every valid entry of
    every process names a frame below [NR_PAGEFRAMES]. *)
Theorem reachable_well_formed (s : state) :
  libc_sized LC → libc_cleared LC → reachable (λ o _ _, op_typed o) s →
  ptbr s = Some (current s) ∧
  length (mapcounts s) = Z.to_nat NR_PAGEFRAMES ∧
  ∀ p vpn e, pte_of p vpn s = Some e → valid e = true → 0 ≤ pfn e < NR_PAGEFRAMES.
Proof.
  intros Hsz Hcl Hreach.
  assert (well_formed s) as (Hlen & _ & Htables & _ & Hptbr).
  { induction Hreach as [|o s s' _ IH Huse Hexec]; [apply well_formed_init|].
    by eapply well_formed_exec. }
  do 2 (split; [done|]). intros p vpn e He Hvalid.
  unfold pte_of in He. destruct (memory s !! p) as [pr|] eqn:Hp; [|done]. simpl in He.
  rewrite Forall_lookup in Htables. specialize (Htables _ _ Hp).
  destruct (pte_at_inv _ _ _ He) as (Hv & d & Hd & Hj).
  pose proof (div_mod_nonneg _ Hv) as [Hi0 _].
  pose proof (pagetable_ok_range _ _ _ Htables Hi0 Hd) as [_ [_ Hframes]].
  rewrite Forall_lookup in Hframes. by apply (Hframes _ _ Hj).
Qed.

End MoreRun.

(** ** The ready queue *)

Lemma load_list_next (n : node) (s : state) (l : list_head) :
  load_list n s = Ok l → next_of n s = Some (next l).
Proof.
  destruct n as [|p]; simpl.
  - by intros [= <-].
  - unfold load_process. destruct (memory s !! p); [|done]. by intros [= <-].
Qed.

Lemma store_list_next (n : node) (l : list_head) (s s' : state) :
  store_list n l s = Ok s' →
  next_of n s' = Some (next l) ∧ ∀ m, m ≠ n → next_of m s' = next_of m s.
Proof.
  destruct n as [|p]; simpl.
  - intros [= <-]. split; [done|]. by intros [|m] Hm.
  - unfold load_process. destruct (memory s !! p) as [pr|] eqn:Hp; [|done].
    rewrite bind_Ok. intros [= <-]. simpl. split.
    + by rewrite list_lookup_alter_eq, Hp.
    + intros [|m] Hm; [done|]. simpl. rewrite list_lookup_alter_ne; [done|].
      congruence.
Qed.

(** [list_add(&c->list, &processes)] on the [next] links: the head points
    to [c], [c] to the node that was first, and no other link changes. *)
Lemma list_add_next (c : nat) (s s' : state) :
  list_add (Member c) Head s = Ok s' →
  next_of Head s' = Some (Member c) ∧
  next_of (Member c) s' = Some (next (processes s)) ∧
  ∀ p, p ≠ c → next_of (Member p) s' = next_of (Member p) s.
Proof.
  unfold list_add, __list_add.
  change (load_list Head s) with (Ok (processes s)). rewrite bind_Ok.
  set (nxt := next (processes s)).
  destruct (load_list nxt s) as [l1|] eqn:Hl1; [|done]. rewrite bind_Ok.
  destruct (store_list nxt _ s) as [s1|] eqn:Hs1; [|done]. rewrite bind_Ok.
  destruct (load_list (Member c) s1) as [l2|] eqn:Hl2; [|done]. rewrite bind_Ok.
  destruct (store_list (Member c) _ s1) as [s2|] eqn:Hs2; [|done]. rewrite bind_Ok.
  destruct (load_list (Member c) s2) as [l3|] eqn:Hl3; [|done]. rewrite bind_Ok.
  destruct (store_list (Member c) _ s2) as [s3|] eqn:Hs3; [|done]. rewrite bind_Ok.
  destruct (load_list Head s3) as [l4|] eqn:Hl4; [|done]. rewrite bind_Ok.
  intros Hs4. apply load_list_next in Hl1, Hl3.
  apply store_list_next in Hs1 as [H1 H1'].
  apply store_list_next in Hs2 as [H2 H2'].
  apply store_list_next in Hs3 as [H3 H3'].
  apply store_list_next in Hs4 as [H4 H4'].
  simpl next in *.
  assert (∀ m, next_of m s1 = next_of m s) as A1.
  { intros m. destruct (decide (m = nxt)) as [->|Hm]; [congruence|by apply H1']. }
  split; [done|]. split.
  - rewrite H4' by done. congruence.
  - intros p Hp. assert (Member p ≠ Member c) as Hne by congruence.
    by rewrite H4', H3', H2', A1.
Qed.

Lemma chain_ext (s s' : state) (n : node) (q : list nat) :
  (∀ p, p ∈ q → next_of (Member p) s' = next_of (Member p) s) →
  chain s n q → chain s' n q.
Proof.
  intros Hsame Hq. induction Hq as [|p n q Hn Hq IH]; [constructor|].
  apply chain_member with n.
  - rewrite Hsame; [done|]. by left.
  - apply IH. intros x Hx. apply Hsame. by right.
Qed.

Lemma chain_lookup (s : state) (n : node) (q : list nat) (p : nat) :
  chain s n q → p ∈ q → (p < length (memory s))%nat.
Proof.
  intros Hq Hp. induction Hq as [|x n q Hn Hq IH]; [by apply elem_of_nil in Hp|].
  apply elem_of_cons in Hp as [->|Hp]; [|by apply IH].
  simpl in Hn. destruct (memory s !! x) eqn:E; [|done]. by eapply lookup_lt_Some.
Qed.

(** The queue after [list_add] of a process that is not in it. *)
Lemma list_add_queue (c : nat) (s s' : state) (q : list nat) :
  list_add (Member c) Head s = Ok s' → ready_queue s q → c ∉ q →
  ready_queue s' (c :: q).
Proof.
  intros (Hh & Hc & Hothers)%list_add_next Hq Hnotin. unfold ready_queue.
  simpl in Hh. injection Hh as ->. apply chain_member with (next (processes s)); [done|].
  apply chain_ext with s; [|done]. intros p Hp. apply Hothers. by intros ->.
Qed.

Lemma chain_prefix (s : state) (n : node) (q1 q2 : list nat) (p : nat) :
  chain s n (q1 ++ p :: q2) →
  (∃ y, y ∈ p :: q1 ∧ n = Member y) ∧
  ∀ x, x ∈ q1 → ∃ y, y ∈ p :: q1 ∧ next_of (Member x) s = Some (Member y).
Proof.
  revert n. induction q1 as [|x q1 IH]; intros n Hq; simpl in Hq.
  - inversion Hq; subst. split; [|by intros x Hx%elem_of_nil].
    exists p. split; [by left|done].
  - inversion Hq as [|x' n' q' Hn Hq']; subst.
    destruct (IH _ Hq') as [(y & Hy & ->) Hrest]. split.
    + exists x. split; [right; by left|done].
    + intros z Hz. apply elem_of_cons in Hz as [->|Hz].
      * exists y. split; [|done].
        apply elem_of_cons in Hy as [->|Hy]; [by left|right; by right].
      * destruct (Hrest z Hz) as (y' & Hy' & Hn'). exists y'. split; [|done].
        apply elem_of_cons in Hy' as [->|Hy']; [by left|right; by right].
Qed.

(** The queue after [list_add] of a process that is in it already: the
    links from the head lead to the process and never back to the head. *)
Lemma list_add_linked (c : nat) (s s' : state) (q1 q2 : list nat) :
  list_add (Member c) Head s = Ok s' → ready_queue s (q1 ++ c :: q2) → c ∉ q1 →
  next (processes s') = Member c ∧ stays s' (c :: q1).
Proof.
  intros (Hh & Hc & Hothers)%list_add_next Hq Hnotin.
  apply chain_prefix in Hq as [(y & Hy & Hfirst) Hrest].
  simpl in Hh. injection Hh as Hh. split; [done|].
  intros x [->|Hx]%elem_of_cons.
  - exists y. split; [done|]. by rewrite Hc, Hfirst.
  - destruct (Hrest x Hx) as (y' & Hy' & Hn). exists y'. split; [done|].
    rewrite Hothers; [done|]. by intros ->.
Qed.

Lemma pid_of_load (p : nat) (s : state) (pr : process) :
  memory s !! p = Some pr → pid_of p s = Some (pid pr).
Proof. intros Hp. unfold pid_of, pids. by rewrite list_lookup_fmap, Hp. Qed.

(** A walk that returns has found the first process of the queue with
    the identifier, or none. *)
Lemma list_for_each_entry_first (fuel : nat) (wanted : Z) (n : node) (s : state)
    (q : list nat) (r : option nat) :
  chain s n q → list_for_each_entry fuel wanted n s = Ok r →
  r = first_with_pid wanted q s.
Proof.
  intros Hq. revert fuel. induction Hq as [|p n q Hn Hq IH]; intros fuel.
  - destruct fuel; simpl; by intros [= <-].
  - destruct fuel as [|fuel]; [done|]. simpl in Hn |- *. unfold load_process.
    destruct (memory s !! p) as [pr|] eqn:Hp; [|done]. injection Hn as <-.
    rewrite bind_Ok, (pid_of_load _ _ _ Hp).
    destruct (Z.eqb_spec (pid pr) wanted) as [->|Hne].
    + rewrite decide_True by done. by intros [= <-].
    + rewrite decide_False by congruence. apply IH.
Qed.

Lemma list_for_each_entry_enough (fuel : nat) (wanted : Z) (n : node) (s : state)
    (q : list nat) :
  chain s n q → (length q ≤ fuel)%nat →
  ∃ r, list_for_each_entry fuel wanted n s = Ok r.
Proof.
  intros Hq. revert fuel. induction Hq as [|p n q Hn Hq IH]; intros fuel Hfuel.
  - destruct fuel; simpl; eauto.
  - destruct fuel as [|fuel]; [simpl in Hfuel; lia|]. simpl in Hn, Hfuel |- *.
    unfold load_process.
    destruct (memory s !! p) as [pr|] eqn:Hp; [|done]. injection Hn as <-.
    rewrite bind_Ok. destruct (pid pr =? wanted); [eauto|]. apply IH. lia.
Qed.

(** A walk in a part of the queue that the links do not leave goes on
    for as long as it finds no process with the identifier. *)
Lemma list_for_each_entry_stays (fuel : nat) (wanted : Z) (s : state)
    (C : list nat) (x : nat) :
  stays s C → (∀ y, y ∈ C → pid_of y s ≠ Some wanted) → x ∈ C →
  list_for_each_entry fuel wanted (Member x) s = Stop OutOfFuel.
Proof.
  intros Hstays Hpids. revert x. induction fuel as [|fuel IH]; intros x Hx; [done|].
  destruct (Hstays x Hx) as (y & Hy & Hn). simpl in Hn |- *. unfold load_process.
  destruct (memory s !! x) as [pr|] eqn:Hp; [|done]. injection Hn as Hn.
  rewrite bind_Ok. pose proof (Hpids x Hx) as Hpid.
  rewrite (pid_of_load _ _ _ Hp) in Hpid.
  destruct (Z.eqb_spec (pid pr) wanted) as [E|_]; [congruence|].
  rewrite Hn. by apply IH.
Qed.

Lemma first_with_pid_Some (wanted : Z) (q : list nat) (s : state) (p : nat) :
  first_with_pid wanted q s = Some p →
  pid_of p s = Some wanted ∧ ∃ q1 q2, q = q1 ++ p :: q2 ∧ p ∉ q1.
Proof.
  induction q as [|x q IH]; [done|]. simpl. case_decide as E.
  - intros [= <-]. split; [done|]. exists [], q. split; [done|]. by intros ?%elem_of_nil.
  - intros (Hp & q1 & q2 & -> & Hnotin)%IH. split; [done|].
    exists (x :: q1), q2. split; [done|].
    intros [->|?]%elem_of_cons; [congruence|done].
Qed.

Lemma first_with_pid_None (wanted : Z) (q : list nat) (s : state) (p : nat) :
  first_with_pid wanted q s = None → p ∈ q → pid_of p s ≠ Some wanted.
Proof.
  induction q as [|x q IH]; [by intros _ ?%elem_of_nil|]. simpl. case_decide as E; [done|].
  intros Hnone [->|Hp]%elem_of_cons; [done|by apply IH].
Qed.

Lemma first_with_pid_ext (wanted : Z) (q : list nat) (s s' : state) :
  (∀ p, p ∈ q → pid_of p s' = pid_of p s) →
  first_with_pid wanted q s' = first_with_pid wanted q s.
Proof.
  induction q as [|x q IH]; [done|]. intros Hsame. simpl.
  rewrite Hsame by (by left). rewrite IH; [done|]. intros p Hp. apply Hsame. by right.
Qed.

(** ** switch_process *)

Section MoreSwitch.
Context {VM : vm_h} {OK : vm_h_ok VM} {LC : libc}.

(** Lines 242-271 up to the call of [list_add]: the state [s2] in which
    the parent's entries are shared and counted and the child exists. *)
Lemma fork_list_add (wanted : Z) (s : state) (pt : pagetable) :
  length (outer_ptes malloc_pagetable) = Z.to_nat NR_PTES_PER_PAGE →
  well_formed s → focus s = Some (current s, pt) →
  ∃ s2,
    fork wanted s
    = (s3 ← list_add (Member (current s)) Head s2;
       Ok (with_ptbr (Some (length (memory s)))
             (with_current (length (memory s)) s3))) ∧
    processes s2 = processes s ∧
    length (memory s2) = S (length (memory s)) ∧
    pids s2 = pids s ++ [wanted] ∧
    ∀ p, (p < length (memory s))%nat →
         next_of (Member p) s2 = next_of (Member p) s.
Proof.
  intros Hsz Hwf Hf. unfold fork.
  destruct (well_formed_focus _ Hwf) as (pt' & Hf' & Hpt).
  assert (pt' = pt) as -> by congruence. clear Hf'.
  destruct Hwf as (Hlen & _ & _ & Hcur & _).
  assert (fork_share s
          = Ok (view s (current s) (share_pagetable pt)
                  (count_pagetable (mapcounts s) pt))) as ->.
  { transitivity (fork_share (view s (current s) pt (mapcounts s))).
    - by rewrite <- (view_initial s _ _ Hf).
    - by apply (fork_share_view s _ _ Hf). }
  rewrite bind_Ok.
  rewrite (fork_copy_view s _ _ Hf);
    [|by unfold share_pagetable; simpl; rewrite length_fmap; apply Hpt|done].
  rewrite bind_Ok. fold (child_pagetable pt).
  set (s1 := view s (current s) (share_pagetable pt) (count_pagetable (mapcounts s) pt)).
  assert (length (memory s1) = length (memory s)) as Hlen1.
  { unfold s1, view, put_table. simpl. apply length_alter. }
  eexists. split; [|split; [|split; [|split]]].
  - rewrite Hlen1. reflexivity.
  - done.
  - simpl. rewrite length_app, length_alter. simpl. lia.
  - unfold pids. simpl. rewrite fmap_app. simpl. f_equal.
    by apply fmap_alter_same.
  - intros p Hp. simpl. rewrite lookup_app_l by (rewrite length_alter; lia).
    destruct (decide (current s = p)) as [<-|Hne].
    + rewrite list_lookup_alter_eq. by destruct (memory s !! current s).
    + by rewrite list_lookup_alter_ne.
Qed.

Lemma pid_of_app (p : nat) (s s' : state) (x : list Z) :
  pids s' = pids s ++ x → (p < length (memory s))%nat →
  pid_of p s' = pid_of p s.
Proof.
  intros Hp Hlt. unfold pid_of. rewrite Hp. apply lookup_app_l.
  unfold pids. by rewrite length_fmap.
Qed.

(** A switch in a state whose running process is linked in the ready
    queue: both paths call [list_add] for it once more. *)
Lemma switch_process_linked (fuel : nat) (wanted : Z) (s s' : state)
    (q1 q2 : list nat) :
  libc_sized LC → well_formed s →
  ready_queue s (q1 ++ current s :: q2) → current s ∉ q1 →
  switch_process fuel wanted s = Ok s' →
  next (processes s') = Member (current s) ∧ stays s' (current s :: q1) ∧
  ∀ p, (p < length (memory s))%nat → pid_of p s' = pid_of p s.
Proof.
  intros [_ Hsz] Hwf Hq Hnotin. unfold switch_process.
  destruct (list_for_each_entry _ _ _ _) as [[p|]|]; [| |done]; rewrite bind_Ok.
  - destruct (list_add _ _ _) as [s0|] eqn:Hadd; [|done]. rewrite bind_Ok.
    intros [= <-]. destruct (list_add_linked _ _ _ _ _ Hadd Hq Hnotin) as [Hh Hst].
    apply list_add_same in Hadd as (_ & Hpids & _).
    split; [done|]. split; [exact Hst|]. intros x _.
    unfold pid_of. simpl. change (pids s0 !! x = pids s !! x). by rewrite Hpids.
  - destruct (well_formed_focus _ Hwf) as (pt & Hf & _).
    destruct (fork_list_add wanted s pt Hsz Hwf Hf) as (s2 & -> & Hh2 & Hlen2 & Hpids2 & Hn2).
    destruct (list_add _ _ _) as [s3|] eqn:Hadd; [|done]. rewrite bind_Ok.
    intros [= <-].
    assert (ready_queue s2 (q1 ++ current s :: q2)) as Hq2.
    { unfold ready_queue. rewrite Hh2. apply chain_ext with s; [|done].
      intros p Hp. apply Hn2. by eapply chain_lookup. }
    destruct (list_add_linked _ _ _ _ _ Hadd Hq2 Hnotin) as [Hh Hst].
    apply list_add_same in Hadd as (_ & Hpids & _).
    split; [done|]. split; [exact Hst|]. intros x Hx.
    unfold pid_of. simpl. change (pids s3 !! x = pids s !! x).
    rewrite Hpids. by apply (pid_of_app x s s2 [wanted]).
Qed.

Lemma chain_with (s s' : state) (n : node) (q : list nat) :
  memory s' = memory s → chain s n q → chain s' n q.
Proof.
  intros Hm. apply chain_ext. intros p _. simpl. by rewrite Hm.
Qed.

(** The switch path in full, for a queue that does not hold the running
    process. *)
Lemma switch_process_found_state (fuel : nat) (wanted : Z) (s s' : state)
    (q : list nat) (p : nat) :
  well_formed s → ready_queue s q → current s ∉ q →
  first_with_pid wanted q s = Some p →
  switch_process fuel wanted s = Ok s' →
  current s' = p ∧ ptbr s' = Some p ∧ ready_queue s' (current s :: q) ∧
  tables s' = tables s ∧ mapcounts s' = mapcounts s ∧ pids s' = pids s.
Proof.
  intros Hwf Hq Hnotin Hfirst. unfold switch_process.
  destruct (list_for_each_entry _ _ _ _) as [r|] eqn:Hwalk; [|done].
  rewrite (list_for_each_entry_first _ _ _ _ _ _ Hq Hwalk), Hfirst, bind_Ok.
  destruct (list_add _ _ _) as [s0|] eqn:Hadd; [|done]. rewrite bind_Ok.
  intros [= <-]. pose proof (list_add_queue _ _ _ _ Hadd Hq Hnotin) as Hq0.
  apply list_add_same in Hadd as (Ht & Hp & Hm & _).
  do 2 (split; [done|]). split; [|done].
  unfold ready_queue. simpl. by apply (chain_with s0).
Qed.

(** X19: where the ready queue holds the processes [q] and not the
    running one, a walk with enough steps finds the first process of [q]
    with the identifier asked for, and [switch_process] makes it the
    running process with [ptbr] on its table.  The process that was
    running is put in front of the queue and the process found is not
    taken out: the queue is [q] with the old process in front.  No table,
    counter or identifier changes. *)
Theorem switch_process_found_queue (fuel : nat) (wanted : Z) (s : state)
    (q : list nat) (p : nat) :
  well_formed s → ready_queue s q → current s ∉ q → (length q ≤ fuel)%nat →
  first_with_pid wanted q s = Some p →
  ∃ s', switch_process fuel wanted s = Ok s' ∧
    current s' = p ∧ ptbr s' = Some p ∧ p ∈ q ∧
    ready_queue s' (current s :: q) ∧
    tables s' = tables s ∧ mapcounts s' = mapcounts s ∧ pids s' = pids s.
Proof.
  intros Hwf Hq Hnotin Hfuel Hfirst.
  assert (∃ s', switch_process fuel wanted s = Ok s') as [s' Hs'].
  { unfold switch_process.
    destruct (list_for_each_entry_enough fuel wanted _ _ _ Hq Hfuel) as [r Hwalk].
    rewrite Hwalk, (list_for_each_entry_first _ _ _ _ _ _ Hq Hwalk), Hfirst, bind_Ok.
    destruct (list_add_returns (Member (current s)) s) as (s0 & -> & _).
    - apply Hwf.
    - by eapply list_for_each_entry_node_ok.
    - rewrite bind_Ok. eauto. }
  exists s'. split; [done|].
  destruct (switch_process_found_state _ _ _ _ _ _ Hwf Hq Hnotin Hfirst Hs')
    as (Hc & Hb & Hq' & Ht & Hm & Hp).
  apply first_with_pid_Some in Hfirst as (_ & q1 & q2 & -> & _).
  repeat split; try done. apply elem_of_app. right. by left.
Qed.

(** The fork path in full, for a queue that does not hold the running
    process. *)
Lemma switch_process_fork_state (fuel : nat) (wanted : Z) (s : state) (q : list nat) :
  libc_sized LC → well_formed s → ready_queue s q → current s ∉ q →
  (length q ≤ fuel)%nat → first_with_pid wanted q s = None →
  ∃ s' pt, switch_process fuel wanted s = Ok s' ∧
    focus s = Some (current s, pt) ∧
    tables s' = <[current s := share_pagetable pt]> (tables s) ++ [child_pagetable pt] ∧
    pids s' = pids s ++ [wanted] ∧
    mapcounts s' = count_pagetable (mapcounts s) pt ∧
    current s' = length (memory s) ∧ ptbr s' = Some (length (memory s)) ∧
    ready_queue s' (current s :: q).
Proof.
  intros [_ Hsz] Hwf Hq Hnotin Hfuel Hfirst. unfold switch_process.
  destruct (list_for_each_entry_enough fuel wanted _ _ _ Hq Hfuel) as [r Hwalk].
  rewrite Hwalk, (list_for_each_entry_first _ _ _ _ _ _ Hq Hwalk), Hfirst, bind_Ok.
  destruct (well_formed_focus _ Hwf) as (pt & Hf & _).
  destruct (fork_returns wanted s pt Hsz Hwf Hf) as (s' & Hfork & Ht & Hp & Hm & Hc & Hb).
  { by eapply list_for_each_entry_node_ok. }
  exists s', pt. do 7 (split; [done|]).
  destruct (fork_list_add wanted s pt Hsz Hwf Hf) as (s2 & Hfork2 & Hh2 & _ & _ & Hn2).
  rewrite Hfork in Hfork2.
  destruct (list_add _ _ _) as [s3|] eqn:Hadd; [|done]. rewrite bind_Ok in Hfork2.
  injection Hfork2 as ->.
  assert (ready_queue s2 q) as Hq2.
  { unfold ready_queue. rewrite Hh2. apply chain_ext with s; [|done].
    intros p Hp'. apply Hn2. by eapply chain_lookup. }
  pose proof (list_add_queue _ _ _ _ Hadd Hq2 Hnotin) as Hq3.
  unfold ready_queue. simpl. by apply (chain_with s3).
Qed.

Lemma pid_of_last (s s' : state) (wanted : Z) :
  pids s' = pids s ++ [wanted] → pid_of (length (memory s)) s' = Some wanted.
Proof.
  intros Hp. unfold pid_of. rewrite Hp.
  rewrite lookup_app_r; unfold pids; rewrite length_fmap; [|done].
  by rewrite Nat.sub_diag.
Qed.

(** X20: where the ready queue holds the processes [q] and not the
    running one, and no process of [q] has the identifier asked for,
    [switch_process] forks: a new process with that identifier runs, the
    parent is put in front of the queue, and the child is not in the
    queue.  A queue that does not hold the running process stays one. *)
Theorem switch_process_fork_queue (fuel : nat) (wanted : Z) (s : state) (q : list nat) :
  libc_sized LC → well_formed s → ready_queue s q → current s ∉ q →
  (length q ≤ fuel)%nat → first_with_pid wanted q s = None →
  ∃ s', switch_process fuel wanted s = Ok s' ∧
    current s' = length (memory s) ∧ ptbr s' = Some (current s') ∧
    pid_of (current s') s' = Some wanted ∧
    ready_queue s' (current s :: q) ∧ current s' ∉ current s :: q.
Proof.
  intros Hsz Hwf Hq Hnotin Hfuel Hfirst.
  destruct (switch_process_fork_state _ _ _ _ Hsz Hwf Hq Hnotin Hfuel Hfirst)
    as (s' & pt & Hs' & _ & _ & Hp & _ & Hc & Hb & Hq').
  exists s'. split; [done|]. split; [done|]. split; [by rewrite Hc|].
  split; [rewrite Hc; by apply pid_of_last|]. split; [done|].
  rewrite Hc. intros [E|Hin]%elem_of_cons.
  - destruct Hwf as (_ & _ & _ & Hcur & _). lia.
  - pose proof (chain_lookup _ _ _ _ Hq Hin). lia.
Qed.

(** X21: [switch_process] compares the identifier with those of the
    queued processes only.  Asked for the identifier of the running
    process, it forks: afterwards two processes have this identifier, the
    one that was running and its child. *)
Theorem switch_process_to_running (fuel : nat) (a : Z) (s : state) (q : list nat) :
  libc_sized LC → well_formed s → ready_queue s q → current s ∉ q →
  (length q ≤ fuel)%nat →
  pid_of (current s) s = Some a → first_with_pid a q s = None →
  ∃ s', switch_process fuel a s = Ok s' ∧ current s' ≠ current s ∧
    pid_of (current s) s' = Some a ∧ pid_of (current s') s' = Some a.
Proof.
  intros Hsz Hwf Hq Hnotin Hfuel Hpid Hfirst.
  destruct (switch_process_fork_state _ _ _ _ Hsz Hwf Hq Hnotin Hfuel Hfirst)
    as (s' & pt & Hs' & _ & _ & Hp & _ & Hc & _).
  pose proof Hwf as (_ & _ & _ & Hcur & _).
  exists s'. split; [done|]. split; [lia|]. split.
  - by rewrite (pid_of_app _ s s' [a]).
  - rewrite Hc. by apply pid_of_last.
Qed.

Lemma well_formed_switch_process (fuel : nat) (wanted : Z) (s s' : state)
    (q : list nat) (p : nat) :
  well_formed s → ready_queue s q → current s ∉ q →
  first_with_pid wanted q s = Some p →
  switch_process fuel wanted s = Ok s' → well_formed s'.
Proof.
  intros Hwf Hq Hnotin Hfirst Hs'.
  destruct (switch_process_found_state _ _ _ _ _ _ Hwf Hq Hnotin Hfirst Hs')
    as (Hc & Hb & _ & Ht & Hm & _).
  apply first_with_pid_Some in Hfirst as (_ & q1 & q2 & -> & _).
  assert (p < length (memory s))%nat as Hp.
  { eapply chain_lookup; [exact Hq|]. apply elem_of_app. right. by left. }
  apply well_formed_tables in Hwf as (Hlen & Hcounts & Htables & Hcur & Hptbr).
  apply well_formed_tables. rewrite Ht, Hm, Hc, Hb.
  repeat split; try done. unfold tables. by rewrite length_fmap.
Qed.

(** X22: a switch to a queued process leaves that process linked in the
    queue, and the next switch, whichever path it takes, links it a
    second time: the links from the head then lead to the running
    processes of the two calls and never back to the head.  From then on
    [switch_process] for an identifier that no process had does not
    return: the walk of lines 232-239 runs out of every step budget. *)
Theorem switch_process_never_returns (fuel1 fuel2 : nat) (a b : Z)
    (s s1 s2 : state) (q : list nat) (p : nat) :
  libc_sized LC → well_formed s → ready_queue s q → current s ∉ q →
  first_with_pid a q s = Some p →
  switch_process fuel1 a s = Ok s1 → switch_process fuel2 b s1 = Ok s2 →
  ∀ (fuel : nat) (c : Z), c ∉ pids s →
    switch_process fuel c s2 = Stop OutOfFuel.
Proof.
  intros Hsz Hwf Hq Hnotin Hfirst Hs1 Hs2 fuel c Hc.
  pose proof (well_formed_switch_process _ _ _ _ _ _ Hwf Hq Hnotin Hfirst Hs1) as Hwf1.
  destruct (switch_process_found_state _ _ _ _ _ _ Hwf Hq Hnotin Hfirst Hs1)
    as (Hcur1 & _ & Hq1 & Ht1 & _ & Hp1).
  apply first_with_pid_Some in Hfirst as (_ & q1 & q2 & -> & Hp).
  assert (current s ≠ p) as Hne.
  { intros E. apply Hnotin. rewrite E. apply elem_of_app. right. by left. }
  assert (length (memory s1) = length (memory s)) as Hlen1.
  { apply (f_equal length) in Ht1. unfold tables in Ht1. by rewrite !length_fmap in Ht1. }
  destruct (switch_process_linked fuel2 b s1 s2 (current s :: q1) q2 Hsz Hwf1)
    as (Hh & Hst & Hpids); [by rewrite Hcur1|rewrite Hcur1|done|].
  { intros [E|Hin]%elem_of_cons; [by apply Hne|by apply Hp]. }
  rewrite Hcur1 in Hh, Hst. unfold switch_process. rewrite Hh.
  rewrite (list_for_each_entry_stays fuel c s2 (p :: current s :: q1) p Hst);
    [done| |by left].
  intros y Hy Hy'. apply Hc.
  assert (y < length (memory s))%nat as Hlt.
  { destruct Hwf as (_ & _ & _ & Hcur & _).
    apply elem_of_cons in Hy as [->|[->|Hy]%elem_of_cons]; [|done|].
    - eapply chain_lookup; [exact Hq|]. apply elem_of_app. right. by left.
    - eapply chain_lookup; [exact Hq|]. apply elem_of_app. by left. }
  rewrite Hpids in Hy' by lia. unfold pid_of in Hy'. rewrite Hp1 in Hy'.
  by eapply list_elem_of_lookup_2.
Qed.

Lemma sum_list_with_lookup_le {A} (g : A → nat) (l : list A) (i : nat) (x : A) :
  l !! i = Some x → (g x ≤ sum_list_with g l)%nat.
Proof.
  revert i. induction l as [|y l IH]; intros [|i]; simpl; try done.
  - intros [= ->]. lia.
  - intros Hx. specialize (IH _ Hx). lia.
Qed.

(** X23: on the fork path the count of every frame goes up by the
    number of valid entries of the parent's table that name the frame
    (modulo 2^32).  Where the counters were right, a frame that was free
    is free after the fork: the fork takes no frame. *)
Theorem fork_counts (fuel : nat) (wanted : Z) (s : state) (pt : pagetable)
    (f c : Z) :
  libc_sized LC → well_formed s →
  list_for_each_entry fuel wanted (next (processes s)) s = Ok None →
  tables s !! current s = Some pt → mapcount f s = Some c →
  ∃ s', switch_process fuel wanted s = Ok s' ∧
    mapcount f s' = Some (uint (c + Z.of_nat (pagetable_refs f pt))) ∧
    (accounted s → c = 0 → mapcount f s' = Some 0).
Proof.
  intros [_ Hsz] Hwf Hwalk Hpt [Hf0 Hc]%mapcount_inv.
  unfold switch_process. rewrite Hwalk, bind_Ok.
  destruct (well_formed_focus _ Hwf) as (pt' & Hf & Hok).
  assert (pt' = pt) as ->.
  { apply focus_inv in Hf as (_ & pr & Hm & <-). unfold tables in Hpt.
    rewrite list_lookup_fmap, Hm in Hpt. by injection Hpt. }
  destruct (fork_returns wanted s pt Hsz Hwf Hf) as (s' & -> & _ & _ & Hm & _).
  { by eapply list_for_each_entry_node_ok. }
  pose proof Hwf as (Hlen & Hcounts & _).
  assert (mapcount f s' = Some (uint (c + Z.of_nat (pagetable_refs f pt)))) as Hcount.
  { rewrite mapcount_intro, Hm by done.
    rewrite (count_pagetable_lookup _ _ _ c Hcounts Hok Hc). by rewrite Z2Nat.id. }
  exists s'. split; [done|]. split; [done|]. intros Hacc ->.
  rewrite Hcount. f_equal.
  assert (0 ≤ f < NR_PAGEFRAMES) as Hrange.
  { split; [done|]. apply lookup_lt_Some in Hc. lia. }
  specialize (Hacc f Hrange). rewrite mapcount_intro, Hc in Hacc by done.
  injection Hacc as Hacc.
  pose proof (sum_list_with_lookup_le (pagetable_refs f) _ _ _ Hpt) as Hle.
  fold (references f s) in Hle.
  assert (pagetable_refs f pt = 0%nat) as -> by lia. done.
Qed.

(** X24: the table of the child is built in the block malloc returned
    at line 243, and lines 261-267 write only the slots where the parent
    has a directory: in every other slot the child has the pointer malloc
    left there. *)
Theorem fork_child_unset_slots (fuel : nat) (wanted : Z) (s : state)
    (pt : pagetable) (i : nat) :
  libc_sized LC → well_formed s →
  list_for_each_entry fuel wanted (next (processes s)) s = Ok None →
  tables s !! current s = Some pt → outer_ptes pt !! i = Some None →
  ∃ s' pt', switch_process fuel wanted s = Ok s' ∧
    tables s' !! current s' = Some pt' ∧
    outer_ptes pt' !! i = outer_ptes malloc_pagetable !! i.
Proof.
  intros [_ Hsz] Hwf Hwalk Hpt Hi.
  unfold switch_process. rewrite Hwalk, bind_Ok.
  destruct (well_formed_focus _ Hwf) as (pt' & Hf & Hok).
  assert (pt' = pt) as ->.
  { apply focus_inv in Hf as (_ & pr & Hm & <-). unfold tables in Hpt.
    rewrite list_lookup_fmap, Hm in Hpt. by injection Hpt. }
  destruct (fork_returns wanted s pt Hsz Hwf Hf) as (s' & -> & Ht & _ & _ & Hc & _).
  { by eapply list_for_each_entry_node_ok. }
  exists s', (child_pagetable pt). split; [done|]. split.
  - rewrite Ht, Hc. rewrite lookup_app_r; rewrite length_insert; unfold tables;
      rewrite length_fmap; [|done].
    by rewrite Nat.sub_diag.
  - unfold child_pagetable, share_pagetable. simpl.
    rewrite lookup_zip_with, list_lookup_fmap, Hi. simpl.
    by destruct (outer_ptes malloc_pagetable !! i).
Qed.

(** X25: a fork followed by a switch to the identifier of the parent
    brings the parent back as the running process, with [ptbr] on its
    table.  Its pages are on the frames they were on, read-only and private
    where they were writable, and the second switch has changed no counter. *)
Theorem switch_process_fork_and_back (fuel fuel' : nat) (a b : Z) (s : state)
    (q : list nat) :
  libc_sized LC → well_formed s → ready_queue s q → current s ∉ q →
  (length q ≤ fuel)%nat → (0 < fuel')%nat →
  first_with_pid a q s = None → pid_of (current s) s = Some b →
  ∃ s1 s2, switch_process fuel a s = Ok s1 ∧ switch_process fuel' b s1 = Ok s2 ∧
    current s2 = current s ∧ ptbr s2 = Some (current s) ∧
    mapcounts s2 = mapcounts s1 ∧
    ∀ vpn e, pte_of (current s) vpn s = Some e →
      pte_of (current s) vpn s2 = Some (share_pte e).
Proof.
  intros Hsz Hwf Hq Hnotin Hfuel Hfuel' Hfirst Hpid.
  destruct (switch_process_fork_state _ _ _ _ Hsz Hwf Hq Hnotin Hfuel Hfirst)
    as (s1 & pt & Hs1 & Hf & Ht & Hp & _ & Hc & Hb & Hq1).
  pose proof Hwf as (_ & _ & _ & Hcur & Hptbr).
  assert (pid_of (current s) s1 = Some b) as Hpid1 by (by rewrite (pid_of_app _ s s1 [a])).
  assert (list_for_each_entry fuel' b (next (processes s1)) s1 = Ok (Some (current s)))
    as Hwalk.
  { inversion Hq1 as [|x n q' Hn Hq' Hx]; subst.
    destruct fuel' as [|fuel']; [lia|]. simpl in Hn |- *. unfold load_process.
    destruct (memory s1 !! current s) as [pr|] eqn:Hpr; [|done].
    rewrite bind_Ok. rewrite (pid_of_load _ _ _ Hpr) in Hpid1.
    injection Hpid1 as ->. by rewrite Z.eqb_refl. }
  assert (length (memory s1) = S (length (memory s))) as Hlen1.
  { apply (f_equal length) in Hp. unfold pids in Hp.
    rewrite length_app, !length_fmap in Hp. simpl in Hp. lia. }
  destruct (list_add_returns (Member (current s1)) s1) as (s0 & Hadd & Hsame).
  { simpl. lia. }
  { by eapply list_for_each_entry_node_ok. }
  exists s1. eexists. split; [done|]. split.
  { unfold switch_process. by rewrite Hwalk, bind_Ok, Hadd, bind_Ok. }
  destruct Hsame as (Ht0 & _ & Hm0 & _). do 3 (split; [done|]).
  intros vpn e He.
  destruct (pte_of_focus _ _ _ _ Hptbr He) as (pt' & Hf' & Hat).
  assert (pt' = pt) as -> by congruence.
  rewrite pte_of_tables. simpl. change (tables (with_ptbr _ (with_current _ s0)))
    with (tables s0). rewrite Ht0, Ht.
  assert (length (tables s) = length (memory s)) as Hlt by apply length_fmap.
  rewrite lookup_app_l by (rewrite length_insert; lia).
  rewrite list_lookup_insert_eq by lia. simpl. by apply pte_at_share.
Qed.

End MoreSwitch.

(** ** Copy on write, from the fork to the write faults of both processes *)

Section MoreCow.
Context {VM : vm_h} {OK : vm_h_ok VM} {LC : libc}.

(** Lines 196-199. *)
Lemma handle_page_fault_promotes (vpn : Z) (s : state) (e : pte) (cnt : Z) :
  well_formed s → pte_of (current s) vpn s = Some e →
  valid e = true → writable e = false → private e = true →
  mapcount (pfn e) s = Some cnt → cnt ≤ 1 →
  ∃ s', handle_page_fault vpn RW_WRITE s = Ok (true, s') ∧
    pte_of (current s) vpn s' = Some (Pte true true (pfn e) false) ∧
    mapcounts s' = mapcounts s.
Proof.
  intros Hwf He Hvalid Hwr Hpriv [Hp0 Hc]%mapcount_inv Hcnt.
  pose proof Hwf as (_ & _ & _ & _ & Hptbr).
  destruct (pte_of_focus _ _ _ _ Hptbr He) as (pt & Hf & Hat).
  destruct (pte_at_inv _ _ _ Hat) as (Hv & d & Hd & Hj).
  rewrite (handle_page_fault_valid _ _ _ _ _ _ _ Hf Hv Hd Hj Hvalid).
  rewrite Z.eqb_refl, Hwr, Hpriv. simpl andb. cbv iota.
  rewrite (load_mapcount_ok _ _ _ Hp0 Hc), bind_Ok.
  destruct (Z.ltb_spec 1 cnt); [lia|].
  eexists. split; [done|]. split; [|done].
  rewrite (pte_of_put_table_eq _ _ _ _ _ Hf), (pte_at_put _ _ _ _ _ _ Hv Hd Hj).
  unfold promoted, set_private, set_writable. simpl. by rewrite Hvalid.
Qed.

(** Lines 193-195, where [alloc_page] finds a frame. *)
Lemma handle_page_fault_duplicates (vpn : Z) (s : state) (e : pte) (cnt : Z) :
  well_formed s → pte_of (current s) vpn s = Some e →
  valid e = true → writable e = false → private e = true →
  mapcount (pfn e) s = Some cnt → 1 < cnt →
  Z.of_nat (frames_in_use (mapcounts s)) ≤ NR_PAGEFRAMES - 2 →
  ∃ s' f', handle_page_fault vpn RW_WRITE s = Ok (true, s') ∧ f' ≠ pfn e ∧
    pte_of (current s) vpn s' = Some (Pte true true f' true) ∧
    mapcount f' s' = Some 1 ∧ mapcount (pfn e) s' = Some (cnt - 1).
Proof.
  intros Hwf He Hvalid Hwr Hpriv [Hp0 Hc]%mapcount_inv Hgt Hfree.
  pose proof Hwf as (Hlen & Hcounts & _ & _ & Hptbr).
  destruct (pte_of_focus _ _ _ _ Hptbr He) as (pt & Hf & Hat).
  destruct (well_formed_focus _ Hwf) as (pt' & Hf' & Hpt).
  assert (pt' = pt) as -> by congruence. clear Hf'.
  destruct (pte_at_inv _ _ _ Hat) as (Hv & d & Hd & Hj).
  rewrite (handle_page_fault_valid _ _ _ _ _ _ _ Hf Hv Hd Hj Hvalid).
  rewrite Z.eqb_refl, Hwr, Hpriv. simpl andb. cbv iota.
  rewrite (load_mapcount_ok _ _ _ Hp0 Hc), bind_Ok.
  pose proof (div_mod_nonneg _ Hv) as [Hi0 Hj0].
  destruct (Z.ltb_spec 1 cnt) as [_|]; [|lia].
  rewrite (store_mapcount_ok _ _ _ _ Hp0 Hc), bind_Ok.
  set (counts := <[Z.to_nat (pfn e) := cnt - 1]> (mapcounts s)).
  set (s1 := with_mapcounts counts s).
  assert (frames_in_use counts = frames_in_use (mapcounts s)) as Huse.
  { apply frames_in_use_insert with cnt; [done|lia]. }
  assert (length counts = length (mapcounts s)) as Hlen1 by apply length_insert.
  destruct (search_pfn_free counts) as (k & c & Hk & Hkc & Hc0).
  { rewrite Huse, Hlen1, Hlen. lia. }
  assert (k ≠ Z.to_nat (pfn e)) as Hne.
  { intros ->. unfold counts in Hkc.
    rewrite list_lookup_insert_eq in Hkc by (by eapply lookup_lt_Some).
    simplify_eq. lia. }
  assert (c = 0) as ->.
  { unfold counts in Hkc. rewrite list_lookup_insert_ne in Hkc by done.
    rewrite Forall_lookup in Hcounts. specialize (Hcounts _ _ Hkc).
    simpl in Hcounts. lia. }
  unfold alloc_and_resolve.
  assert (focus s1 = Some (current s1, pt)) as Hf1 by exact Hf.
  pose proof (pagetable_ok_range _ _ _ Hpt Hi0 Hd) as [Hi _].
  pose proof (alloc_page_maps vpn (Z.lor RW_WRITE RW_READ) s1 pt (Some d) e 0) as Ha.
  cbv zeta in Ha. change (mapcounts s1) with counts in Ha.
  rewrite Hk, Nat2Z.id, Huse in Ha.
  rewrite (Ha Hf1 ltac:(lia) Hv Hi Hd Hj Hkc), bind_Ok. clear Ha.
  eexists. exists (Z.of_nat k). split; [done|]. split; [lia|].
  simpl default. split; [|split].
  - change (current s) with (current s1).
    rewrite (pte_of_mapped _ _ _ _ _ _ _ _ _ _ Hf1 Hv Hd Hj), installed_fields.
    destruct (Z.eqb_spec (Z.lor RW_WRITE RW_READ) RW_READ) as [E|_].
    { by apply rw_both_not_read in E. }
    by rewrite Z.eqb_refl, Hpriv.
  - rewrite mapcount_mapped; [|lia|by rewrite Nat2Z.id]. by rewrite decide_True.
  - rewrite mapcount_mapped; [|lia|by rewrite Nat2Z.id].
    rewrite decide_False by lia. rewrite mapcount_intro by done.
    apply list_lookup_insert_eq. by eapply lookup_lt_Some.
Qed.

Lemma same_others_next (s s' : state) (n : node) :
  same_others s s' → next_of n s' = next_of n s.
Proof.
  intros (Hh & _ & _ & _ & Hl & _). destruct n as [|p]; simpl; [by rewrite Hh|].
  apply (f_equal (λ l, l !! p)) in Hl. rewrite !list_lookup_fmap in Hl.
  destruct (memory s' !! p), (memory s !! p); simpl in *; congruence.
Qed.

Lemma same_others_queue (s s' : state) (q : list nat) :
  same_others s s' → ready_queue s q → ready_queue s' q.
Proof.
  intros Hsame Hq. unfold ready_queue.
  destruct Hsame as (Hh & Hrest). rewrite Hh.
  apply chain_ext with s; [|done]. intros p _.
  apply same_others_next. by split.
Qed.

Lemma same_others_pte_of (s s' : state) (p : nat) (vpn : Z) :
  same_others s s' → p ≠ current s → pte_of p vpn s' = pte_of p vpn s.
Proof.
  intros (_ & _ & _ & _ & _ & Ht) Hp. rewrite !pte_of_tables. by rewrite Ht.
Qed.

(** The switch path for the process at the front of the queue. *)
Lemma switch_process_front (fuel : nat) (b : Z) (s : state) (c : nat) (q : list nat) :
  (current s < length (memory s))%nat → ready_queue s (c :: q) →
  pid_of c s = Some b → (0 < fuel)%nat →
  ∃ s', switch_process fuel b s = Ok s' ∧ current s' = c ∧ ptbr s' = Some c ∧
    tables s' = tables s ∧ mapcounts s' = mapcounts s ∧ pids s' = pids s.
Proof.
  intros Hcur Hq Hpid Hfuel.
  assert (list_for_each_entry fuel b (next (processes s)) s = Ok (Some c)) as Hwalk.
  { inversion Hq as [|x n q' Hn Hq' Hx]; subst.
    destruct fuel as [|fuel]; [lia|]. simpl in Hn |- *. unfold load_process.
    destruct (memory s !! c) as [pr|] eqn:Hpr; [|done].
    rewrite bind_Ok. rewrite (pid_of_load _ _ _ Hpr) in Hpid.
    injection Hpid as ->. by rewrite Z.eqb_refl. }
  destruct (list_add_returns (Member (current s)) s) as (s0 & Hadd & Hsame);
    [done|by eapply list_for_each_entry_node_ok|].
  eexists. split.
  { unfold switch_process. by rewrite Hwalk, bind_Ok, Hadd, bind_Ok. }
  destruct Hsame as (Ht & Hp & Hm & _). done.
Qed.

Lemma frames_in_use_mono (counts counts' : list Z) :
  length counts' = length counts →
  (∀ i c c', counts !! i = Some c → counts' !! i = Some c' → 0 < c' → 0 < c) →
  (frames_in_use counts' ≤ frames_in_use counts)%nat.
Proof.
  revert counts'. unfold frames_in_use.
  induction counts as [|c counts IH]; intros [|c' counts'] Hlen Hpos; try done.
  simpl in Hlen. rewrite !filter_cons.
  pose proof (IH counts' ltac:(lia)
                (λ i z z' Hz Hz', Hpos (S i) z z' Hz Hz')) as Hle.
  specialize (Hpos O c c' eq_refl eq_refl).
  destruct (decide (0 < c')), (decide (0 < c)); simpl; lia.
Qed.

Lemma pagetable_refs_entry (pt : pagetable) (vpn : Z) (e : pte) :
  pte_at pt vpn = Some e → valid e = true →
  (1 ≤ pagetable_refs (pfn e) pt)%nat.
Proof.
  intros (_ & d & Hd & Hj)%pte_at_inv Hvalid.
  pose proof (sum_list_with_lookup_le (slot_refs (pfn e)) _ _ _ Hd) as H1.
  pose proof (sum_list_with_lookup_le (pte_refs (pfn e)) _ _ _ Hj) as H2.
  rewrite (pte_refs_valid _ _ Hvalid), Z.eqb_refl in H2.
  unfold pagetable_refs. simpl in H1. unfold directory_refs in H1. lia.
Qed.

(** The fork path in a state whose counters are right takes no frame. *)
Lemma frames_in_use_fork (s : state) (pt : pagetable) :
  well_formed s → accounted s → focus s = Some (current s, pt) →
  (frames_in_use (count_pagetable (mapcounts s) pt)
   ≤ frames_in_use (mapcounts s))%nat.
Proof.
  intros Hwf Hacc Hf. destruct (well_formed_focus _ Hwf) as (pt' & Hf' & Hpt).
  assert (pt' = pt) as -> by congruence. clear Hf'.
  pose proof Hwf as (Hlen & Hcounts & _).
  apply frames_in_use_mono.
  { unfold count_pagetable. apply length_count_slots. }
  intros i c c' Hc Hc' Hpos.
  rewrite (count_pagetable_lookup _ _ _ c Hcounts Hpt Hc) in Hc'. injection Hc' as <-.
  rewrite Forall_lookup in Hcounts. specialize (Hcounts _ _ Hc). simpl in Hcounts.
  destruct (decide (c = 0)) as [->|]; [|lia]. exfalso.
  assert (0 ≤ Z.of_nat i < NR_PAGEFRAMES) as Hrange.
  { apply lookup_lt_Some in Hc. lia. }
  specialize (Hacc _ Hrange). rewrite mapcount_intro, Nat2Z.id, Hc in Hacc by lia.
  injection Hacc as Hacc.
  apply focus_inv in Hf as (_ & pr & Hm & <-).
  assert (tables s !! current s = Some (p_pagetable pr)) as Ht.
  { unfold tables. by rewrite list_lookup_fmap, Hm. }
  pose proof (sum_list_with_lookup_le (pagetable_refs (Z.of_nat i)) _ _ _ Ht) as Hle.
  fold (references (Z.of_nat i) s) in Hle.
  assert (pagetable_refs (Z.of_nat i) (p_pagetable pr) = 0%nat) as E by lia.
  rewrite E in Hpos. by vm_compute in Hpos.
Qed.

(** X26: copy on write from end to end.  The running process has a
    writable page on a frame that it alone maps, the counters are right
    and two frames are free.  After a fork, a write fault of the child on
    the page, a switch back to the parent and a write fault of the parent
    on the page, the parent runs again, each of the two processes maps
    the page writable, the parent on the frame it was on and the child on
    another one, and each of the two frames has count 1.  The entry of
    the parent is no longer private; the entry of the child, which
    [alloc_page] has written, still is. *)
Theorem copy_on_write (fuel fuel' : nat) (a b vpn : Z) (s : state)
    (q : list nat) (e : pte) :
  libc_sized LC → libc_cleared LC → well_formed s → accounted s →
  ready_queue s q → current s ∉ q → (length q ≤ fuel)%nat → (0 < fuel')%nat →
  first_with_pid a q s = None → pid_of (current s) s = Some b →
  pte_of (current s) vpn s = Some e → valid e = true → writable e = true →
  mapcount (pfn e) s = Some 1 →
  Z.of_nat (frames_in_use (mapcounts s)) ≤ NR_PAGEFRAMES - 2 →
  ∃ s' f',
    run [Switch fuel a; Fault vpn RW_WRITE; Switch fuel' b; Fault vpn RW_WRITE] s
    = Ok s' ∧
    current s' = current s ∧ f' ≠ pfn e ∧
    pte_of (current s) vpn s' = Some (Pte true true (pfn e) false) ∧
    pte_of (length (memory s)) vpn s' = Some (Pte true true f' true) ∧
    mapcount (pfn e) s' = Some 1 ∧ mapcount f' s' = Some 1.
Proof.
  intros Hsz Hcl Hwf Hacc Hq Hnotin Hfuel Hfuel' Hfirst Hpid He Hvalid Hwr Hcount Hfree.
  (* the fork *)
  destruct (switch_process_fork_state _ _ _ _ Hsz Hwf Hq Hnotin Hfuel Hfirst)
    as (s1 & pt & Hs1 & Hf & Ht1 & Hp1 & Hm1 & Hc1 & Hb1 & Hq1).
  pose proof Hwf as (Hlen & Hcounts & _ & Hcur & Hptbr).
  assert (well_formed s1) as Hwf1
    by apply (well_formed_exec (Switch fuel a) s s1 Hsz Hcl I Hwf Hs1).
  destruct (well_formed_focus _ Hwf) as (pt' & Hf' & Hpt).
  assert (pt' = pt) as -> by congruence. clear Hf'.
  pose proof (pte_of_current _ _ vpn Hf) as Hat. rewrite He in Hat. symmetry in Hat.
  destruct (pte_at_inv _ _ _ Hat) as (Hv & _).
  assert (length (tables s) = length (memory s)) as Hlt by apply length_fmap.
  assert (share_pte e = Pte true false (pfn e) true) as Hshare.
  { unfold share_pte, set_private, set_writable. rewrite Hvalid, Hwr. done. }
  assert (pte_of (current s1) vpn s1 = Some (Pte true false (pfn e) true)) as He1.
  { rewrite <- Hshare, pte_of_tables, Ht1, Hc1.
    rewrite lookup_app_r; rewrite length_insert; [|lia].
    rewrite Hlt, Nat.sub_diag. simpl.
    apply pte_at_child; [|by apply pte_at_share].
    destruct Hpt as [-> _]. apply Hsz. }
  assert (pte_of (current s) vpn s1 = Some (Pte true false (pfn e) true)) as He1p.
  { rewrite <- Hshare, pte_of_tables, Ht1.
    rewrite lookup_app_l by (rewrite length_insert; lia).
    rewrite list_lookup_insert_eq by lia. simpl. by apply pte_at_share. }
  assert (mapcount (pfn e) s1 = Some 2) as Hcount1.
  { pose proof Hcount as [Hp0 Hc]%mapcount_inv. rewrite mapcount_intro, Hm1 by done.
    rewrite (count_pagetable_lookup _ _ _ 1 Hcounts Hpt Hc), Z2Nat.id by done.
    assert (pagetable_refs (pfn e) pt = 1%nat) as ->; [|done].
    pose proof (pagetable_refs_entry _ _ _ Hat Hvalid) as Hge.
    assert (0 ≤ pfn e < NR_PAGEFRAMES) as Hrange.
    { split; [done|]. apply lookup_lt_Some in Hc. lia. }
    specialize (Hacc _ Hrange). rewrite Hcount in Hacc. injection Hacc as Hacc.
    apply focus_inv in Hf as (_ & pr & Hm & <-).
    assert (tables s !! current s = Some (p_pagetable pr)) as Ht.
    { unfold tables. by rewrite list_lookup_fmap, Hm. }
    pose proof (sum_list_with_lookup_le (pagetable_refs (pfn e)) _ _ _ Ht) as Hle.
    fold (references (pfn e) s) in Hle. lia. }
  assert (Z.of_nat (frames_in_use (mapcounts s1)) ≤ NR_PAGEFRAMES - 2) as Hfree1.
  { rewrite Hm1. pose proof (frames_in_use_fork _ _ Hwf Hacc Hf). lia. }
  (* the write fault of the child *)
  destruct (handle_page_fault_duplicates vpn s1 _ 2 Hwf1 He1 eq_refl eq_refl eq_refl
              Hcount1 ltac:(lia) Hfree1)
    as (s2 & f' & Hs2 & Hne & He2 & Hcf2 & Hce2).
  simpl pfn in Hne, Hce2. change (2 - 1) with 1 in Hce2.
  assert (exec (Fault vpn RW_WRITE) s1 = Ok s2) as Hx2 by (simpl; by rewrite Hs2).
  pose proof (same_others_exec (Fault vpn RW_WRITE) _ _ Hsz Hwf1 Hv I Hx2) as Hsame2.
  pose proof (well_formed_exec (Fault vpn RW_WRITE) _ _ Hsz Hcl Hv Hwf1 Hx2) as Hwf2.
  pose proof (same_others_queue _ _ _ Hsame2 Hq1) as Hq2.
  pose proof Hsame2 as (_ & Hcur2 & _ & Hpids2 & _ & _).
  (* the switch back to the parent *)
  assert (pid_of (current s) s2 = Some b) as Hpid2.
  { unfold pid_of. rewrite Hpids2. fold (pid_of (current s) s1).
    by rewrite (pid_of_app _ s s1 [a]). }
  destruct (switch_process_front fuel' b s2 (current s) q)
    as (s3 & Hs3 & Hc3 & Hb3 & Ht3 & Hm3 & Hp3); [apply Hwf2|done..|].
  assert (length (memory s2) = S (length (memory s))) as Hlen2.
  { apply (f_equal length) in Hpids2, Hp1. unfold pids in Hpids2, Hp1.
    rewrite length_app, !length_fmap in *. simpl in Hp1. lia. }
  assert (well_formed s3) as Hwf3.
  { apply well_formed_tables in Hwf2 as (Hlen' & Hcounts' & Htables' & _ & _).
    apply well_formed_tables. rewrite Ht3, Hm3, Hc3, Hb3.
    repeat split; try done. unfold tables. rewrite length_fmap. lia. }
  (* the write fault of the parent *)
  assert (current s ≠ current s1) as Hother by lia.
  assert (pte_of (current s3) vpn s3 = Some (Pte true false (pfn e) true)) as He3.
  { rewrite Hc3, pte_of_tables, Ht3, <- pte_of_tables.
    by rewrite (same_others_pte_of _ _ _ _ Hsame2). }
  assert (mapcount (pfn e) s3 = Some 1) as Hcount3.
  { unfold mapcount in *. by rewrite Hm3. }
  destruct (handle_page_fault_promotes vpn s3 _ 1 Hwf3 He3 eq_refl eq_refl eq_refl
              Hcount3 ltac:(lia))
    as (s4 & Hs4 & He4 & Hm4).
  simpl pfn in He4.
  assert (exec (Fault vpn RW_WRITE) s3 = Ok s4) as Hx4 by (simpl; by rewrite Hs4).
  pose proof (same_others_exec (Fault vpn RW_WRITE) _ _ Hsz Hwf3 Hv I Hx4) as Hsame4.
  pose proof Hsame4 as (_ & Hcur4 & _).
  exists s4, f'. split.
  { cbn [run]. change (exec (Switch fuel a) s) with (switch_process fuel a s).
    rewrite Hs1, bind_Ok, Hx2, bind_Ok.
    change (exec (Switch fuel' b) s2) with (switch_process fuel' b s2).
    by rewrite Hs3, bind_Ok, Hx4, bind_Ok. }
  split; [by rewrite Hcur4|]. split; [done|]. split; [by rewrite <- Hc3|].
  split; [|split].
  - rewrite (same_others_pte_of _ _ _ _ Hsame4) by lia.
    rewrite pte_of_tables, Ht3, <- pte_of_tables. by rewrite <- Hc1.
  - unfold mapcount in *. by rewrite Hm4.
  - unfold mapcount in *. by rewrite Hm4, Hm3.
Qed.

(** X27: with exactly one frame free, a write fault on a private page
    whose frame has two references takes one reference from the frame,
    [alloc_page] gives up, and the handler returns true with the entry as
    it was.  A second write fault on the page then finds one reference and
    makes the entry writable in place: the page is writable on a frame
    that the other owner, whose table has not changed, still maps. *)
Theorem write_faults_with_one_free_frame (vpn : Z) (s : state) (e : pte) :
  well_formed s → pte_of (current s) vpn s = Some e →
  valid e = true → writable e = false → private e = true →
  mapcount (pfn e) s = Some 2 →
  Z.of_nat (frames_in_use (mapcounts s)) = NR_PAGEFRAMES - 1 →
  ∃ s1 s2, handle_page_fault vpn RW_WRITE s = Ok (true, s1) ∧
    pte_of (current s) vpn s1 = Some e ∧ mapcount (pfn e) s1 = Some 1 ∧
    handle_page_fault vpn RW_WRITE s1 = Ok (true, s2) ∧
    pte_of (current s) vpn s2 = Some (Pte true true (pfn e) false) ∧
    ∀ p vpn', p ≠ current s → pte_of p vpn' s2 = pte_of p vpn' s.
Proof.
  intros Hwf He Hvalid Hwr Hpriv Hcount Hfree.
  pose proof Hcount as [Hp0 Hc]%mapcount_inv.
  pose proof Hwf as (_ & _ & _ & _ & Hptbr).
  destruct (pte_of_focus _ _ _ _ Hptbr He) as (pt & Hf & Hat).
  destruct (pte_at_inv _ _ _ Hat) as (Hv & d & Hd & Hj).
  set (s1 := with_mapcounts (<[Z.to_nat (pfn e) := 1]> (mapcounts s)) s).
  assert (handle_page_fault vpn RW_WRITE s = Ok (true, s1)) as Hs1.
  { rewrite (handle_page_fault_valid _ _ _ _ _ _ _ Hf Hv Hd Hj Hvalid).
    rewrite Z.eqb_refl, Hwr, Hpriv. simpl andb. cbv iota.
    rewrite (load_mapcount_ok _ _ _ Hp0 Hc), bind_Ok. simpl.
    rewrite (store_mapcount_ok _ _ _ _ Hp0 Hc), bind_Ok. change (2 - 1) with 1.
    fold s1. unfold alloc_and_resolve.
    rewrite (alloc_page_gives_up vpn _ s1 pt); [done|exact Hf|].
    unfold s1. simpl. rewrite (frames_in_use_insert _ _ 2); [done..|lia]. }
  assert (well_formed s1) as Hwf1.
  { apply well_formed_store_mapcount; [done|]. by vm_compute. }
  assert (pte_of (current s1) vpn s1 = Some e) as He1 by exact He.
  assert (mapcount (pfn e) s1 = Some 1) as Hcount1.
  { rewrite mapcount_intro by done. unfold s1. simpl.
    apply list_lookup_insert_eq. by eapply lookup_lt_Some. }
  destruct (handle_page_fault_promotes vpn s1 e 1 Hwf1 He1 Hvalid Hwr Hpriv
              Hcount1 ltac:(lia)) as (s2 & Hs2 & He2 & Hm2).
  exists s1, s2. do 5 (split; [done|]). intros p vpn' Hp.
  assert (0 ≤ vpn) as Hv' by done.
  assert (exec (Fault vpn RW_WRITE) s1 = Ok s2) as Hx2 by (simpl; by rewrite Hs2).
  apply handle_page_fault_effect in Hs2 as [->|[[_ [r Ha]]|[Hpr|Hdup]]];
    [done| | | |done..].
  - destruct (well_formed_focus _ Hwf1) as (pt1 & Hf1 & _).
    destruct (decide (Z.of_nat (frames_in_use (mapcounts s1)) = NR_PAGEFRAMES - 1))
      as [Hn|Hn].
    + rewrite (alloc_page_gives_up _ _ _ _ Hf1 Hn) in Ha. by injection Ha as _ <-.
    + exfalso. apply Hn. unfold s1. simpl.
      rewrite (frames_in_use_insert _ _ 2); [done..|lia].
  - destruct Hpr as (pt2 & d2 & e2 & _ & _ & _ & _ & ->).
    by rewrite pte_of_put_table_ne.
  - destruct Hdup as (e2 & cnt & r & He2' & _ & _ & _ & _ & Hc2 & Hgt & _).
    change (current s1) with (current s) in He2'. unfold s1 in He2'.
    assert (e2 = e) as -> by (change (pte_of (current s) vpn s = Some e2) in He2'; congruence).
    rewrite Hcount1 in Hc2. injection Hc2 as <-. lia.
Qed.

End MoreCow.

(** ** The frames in use *)

Section MoreFrames.
Context {VM : vm_h} {OK : vm_h_ok VM} {LC : libc}.

(** X28: with every frame in use, [alloc_page] for a page of the table
    finds no free frame and hands out frame 0 once more: the page is on
    frame 0, whose count has gone up by one. *)
Theorem alloc_page_all_frames_in_use (vpn rw : Z) (s : state) (c : Z) :
  libc_sized LC → well_formed s → in_table vpn →
  Forall (λ c, 0 < c) (mapcounts s) → mapcount 0 s = Some c →
  ∃ s', alloc_page vpn rw s = Ok (0, s') ∧
    frame_of (current s) vpn s' = Some 0 ∧ mapcount 0 s' = Some (uint (c + 1)).
Proof.
  intros Hsz Hwf Hin Hall [_ Hc]%mapcount_inv. pose proof frames_range as HN.
  pose proof Hwf as (Hlen & _).
  assert (Z.of_nat (frames_in_use (mapcounts s)) ≠ NR_PAGEFRAMES - 1) as Hn.
  { rewrite (frames_in_use_all _ Hall), Hlen. lia. }
  destruct (alloc_page_in_table vpn rw s Hsz Hwf Hin Hn)
    as (pt & o & e & cnt & Hf & Ho & He & _ & Hr & Hcnt & Ha).
  rewrite (search_pfn_none _ Hall) in Hr, Hcnt, Ha.
  assert (cnt = c) as -> by congruence. destruct Hin as [Hv _].
  eexists. split; [exact Ha|]. split.
  - unfold frame_of.
    by rewrite (pte_of_mapped _ _ _ _ _ _ _ _ _ _ Hf Hv Ho He), installed_fields.
  - rewrite (mapcount_mapped _ _ _ _ _ _ _ _ _ _ (Z.le_refl 0) Hcnt).
    by rewrite decide_True.
Qed.

Lemma frames_in_use_insert_le (counts : list Z) (i : nat) (c' : Z) :
  (frames_in_use (<[i := c']> counts) ≤ S (frames_in_use counts))%nat.
Proof.
  unfold frames_in_use. revert i.
  induction counts as [|c counts IH]; intros [|i]; simpl; try lia.
  - rewrite !filter_cons.
    destruct (decide (0 < c')), (decide (0 < c)); simpl; lia.
  - rewrite !filter_cons. specialize (IH i).
    destruct (decide (0 < c)); simpl; lia.
Qed.

Lemma frames_bound_alloc_page (vpn rw r : Z) (s s' : state) :
  libc_sized LC → well_formed s → 0 ≤ vpn →
  Z.of_nat (frames_in_use (mapcounts s)) ≤ NR_PAGEFRAMES - 1 →
  alloc_page vpn rw s = Ok (r, s') →
  Z.of_nat (frames_in_use (mapcounts s')) ≤ NR_PAGEFRAMES - 1.
Proof.
  intros Hsz Hwf Hv Hle Ha.
  destruct (well_formed_focus _ Hwf) as (pt & Hf & _).
  destruct (decide (Z.of_nat (frames_in_use (mapcounts s)) = NR_PAGEFRAMES - 1))
    as [Hn|Hn].
  { rewrite (alloc_page_gives_up _ _ _ _ Hf Hn) in Ha. by injection Ha as _ <-. }
  destruct (alloc_page_effect vpn rw s Hsz Hwf Hv) as (r' & s'' & Ha' & Heff).
  rewrite Ha in Ha'. injection Ha' as <- <-.
  destruct Heff as [[-> _]|(pt1 & o & e & cnt & _ & _ & _ & _ & _ & _ & ->)]; [done|].
  unfold mapped. simpl.
  pose proof (frames_in_use_insert_le (mapcounts s) (Z.to_nat r) (uint (cnt + 1))).
  lia.
Qed.

Lemma frames_bound_exec (o : op) (s s' : state) :
  libc_sized LC → well_formed s → accounted s → op_typed o →
  Z.of_nat (frames_in_use (mapcounts s)) ≤ NR_PAGEFRAMES - 1 →
  exec o s = Ok s' →
  Z.of_nat (frames_in_use (mapcounts s')) ≤ NR_PAGEFRAMES - 1.
Proof.
  intros Hsz Hwf Hacc Ho Hle.
  destruct o as [vpn rw|vpn|vpn rw|fuel wanted]; simpl in *.
  - destruct (alloc_page vpn rw s) as [[r s'']|] eqn:Ha; [|done].
    rewrite bind_Ok. intros [= <-]. by eapply frames_bound_alloc_page.
  - intros [->|Hun]%free_page_effect; [done| |done..].
    destruct Hun as (pt & d & e & cnt & _ & _ & _ & _ & _ & Hc & ->).
    unfold unmapped. simpl.
    enough (frames_in_use (<[Z.to_nat (pfn e) := released cnt]> (mapcounts s))
            ≤ frames_in_use (mapcounts s))%nat by lia.
    apply frames_in_use_mono; [apply length_insert|].
    intros i c c' Hi Hi' Hpos. destruct (decide (i = Z.to_nat (pfn e))) as [->|Hne].
    + rewrite list_lookup_insert_eq in Hi' by (by eapply lookup_lt_Some).
      injection Hi' as <-. assert (c = cnt) as -> by congruence.
      unfold released in Hpos.
      destruct (Z.ltb_spec 1 cnt); [lia|]. destruct (Z.eqb_spec cnt 1); lia.
    + rewrite list_lookup_insert_ne in Hi' by done. congruence.
  - destruct (handle_page_fault vpn rw s) as [[b s'']|] eqn:Hh; [|done].
    rewrite bind_Ok. intros [= <-].
    apply handle_page_fault_effect in Hh as [->|[[_ [r Ha]]|[Hpr|Hdup]]];
      [done| | | |done..].
    + by eapply frames_bound_alloc_page.
    + by destruct Hpr as (pt & d & e & _ & _ & _ & _ & ->).
    + destruct Hdup as (e & cnt & r & _ & _ & _ & _ & _ & Hc & Hgt & Ha).
      pose proof Hwf as (_ & Hcounts & _).
      apply mapcount_inv in Hc as [_ Hc].
      rewrite Forall_lookup in Hcounts. specialize (Hcounts _ _ Hc). simpl in Hcounts.
      eapply (frames_bound_alloc_page _ _ _ (with_mapcounts _ s)); [done| |done| |exact Ha].
      * apply well_formed_store_mapcount; [done|lia].
      * simpl. rewrite (frames_in_use_insert _ _ cnt); [done..|lia].
  - intros [Hsw|Hfk]%switch_process_effect; [| |done..].
    + destruct Hsw as (p & s0 & _ & (_ & _ & Hm & _) & ->). simpl. by rewrite Hm.
    + destruct Hfk as (pt & Hf & _ & Hm & _). rewrite Hm.
      pose proof (frames_in_use_fork _ _ Hwf Hacc Hf). lia.
Qed.

(** X29: the last free frame is never handed out.  Malloc returning
    cleared blocks of the right size, in every state reached from the
    initial one by the calls that keep the counters right (those of
    [accounted_use]) at most [NR_PAGEFRAMES - 1] frames have a positive
    count. *)
Theorem last_frame_never_used (s : state) :
  libc_sized LC → libc_cleared LC → reachable accounted_use s →
  Z.of_nat (frames_in_use (mapcounts s)) ≤ NR_PAGEFRAMES - 1.
Proof.
  intros Hsz Hcl Hreach.
  enough (well_formed s ∧ accounted s ∧
          Z.of_nat (frames_in_use (mapcounts s)) ≤ NR_PAGEFRAMES - 1)
    as (_ & _ & Hle) by exact Hle.
  induction Hreach as [|o s s' _ (IHwf & IHacc & IHle) Huse Hexec].
  - split; [apply well_formed_init|]. split; [apply accounted_init|].
    pose proof frames_range. unfold init_state. simpl.
    assert (frames_in_use (replicate (Z.to_nat NR_PAGEFRAMES) 0) = 0%nat) as ->; [|lia].
    unfold frames_in_use. induction (Z.to_nat NR_PAGEFRAMES) as [|n IH]; [done|].
    simpl. rewrite filter_cons. by rewrite decide_False by lia.
  - split; [|split].
    + eapply well_formed_exec; [done..|apply Huse|done|done].
    + by eapply accounted_exec.
    + eapply frames_bound_exec; [done..|apply Huse|done|done].
Qed.

End MoreFrames.

(** ** Write faults on private pages *)

Section MoreWrite.
Context {VM : vm_h} {OK : vm_h_ok VM} {LC : libc}.

(** X30: a write fault ([rw == RW_WRITE]) on a valid, read-only,
    private entry mapped to frame [pfn e] returns true.  With one reference
    to the frame the entry stays on its frame, becomes writable and is no
    longer private, and no counter changes.  With more than one reference,
    and at least two frames free, the frame loses one reference and the
    entry moves, writable, to another frame whose count becomes 1. *)
Theorem cow_write_fault (vpn : Z) (s : state) (e : pte) (cnt : Z) :
  well_formed s →
  pte_of (current s) vpn s = Some e →
  valid e = true → writable e = false → private e = true →
  mapcount (pfn e) s = Some cnt → 1 ≤ cnt →
  (1 < cnt → Z.of_nat (frames_in_use (mapcounts s)) ≤ NR_PAGEFRAMES - 2) →
  ∃ s', handle_page_fault vpn RW_WRITE s = Ok (true, s') ∧
    if decide (cnt = 1) then
      pte_of (current s) vpn s' = Some (Pte true true (pfn e) false) ∧
      mapcounts s' = mapcounts s
    else
      ∃ f', f' ≠ pfn e ∧
        pte_of (current s) vpn s' = Some (Pte true true f' true) ∧
        mapcount f' s' = Some 1 ∧
        mapcount (pfn e) s' = Some (cnt - 1).
Proof.
  intros Hwf He Hvalid Hwr Hpriv Hc Hcnt Hfree.
  destruct (decide (cnt = 1)) as [->|Hne].
  - apply (handle_page_fault_promotes vpn s e 1); (done || lia).
  - destruct (handle_page_fault_duplicates vpn s e cnt Hwf He Hvalid Hwr Hpriv Hc)
      as (s' & f' & Hs & Hdiff & He' & Hcf & Hce); [lia|apply Hfree; lia|].
    exists s'. split; [done|]. by exists f'.
Qed.

End MoreWrite.

(** * The claims on the machine of the scenario *)

Import Scenario.

Lemma vm_ok : vm_h_ok vm.
Proof. split; try done; by vm_compute. Qed.

Lemma zeroed_sized : libc_sized zeroed.
Proof. done. Qed.

Lemma zeroed_cleared : libc_cleared zeroed.
Proof. repeat split; by repeat constructor. Qed.

Lemma fits_four (s : state) :
  Z.of_nat (references 0 s) < UINT_MOD → Z.of_nat (references 1 s) < UINT_MOD →
  Z.of_nat (references 2 s) < UINT_MOD → Z.of_nat (references 3 s) < UINT_MOD →
  fits s.
Proof.
  intros H0 H1 H2 H3 f Hf. change (0 ≤ f < 4) in Hf.
  assert (f = 0 ∨ f = 1 ∨ f = 2 ∨ f = 3) as Hcases by lia.
  destruct Hcases as [-> | [-> | [-> | ->]]]; done.
Qed.

Lemma handle_page_fault_read_write_witness :
  ptbr shared = Some 1%nat ∧
  pte_of 1 0 shared = Some (Pte true false 0 true) ∧
  handle_page_fault 0 (Z.lor RW_READ RW_WRITE) shared
  = Ok (false, shared).
Proof.
  split; [reflexivity|]. split; [reflexivity|].
  apply (@handle_page_fault_read_write vm vm_ok zeroed
           0 shared 1%nat (Pte true false 0 true));
    reflexivity.
Defined.

(** C7: [free_page] on a page whose directory was never created
    dereferences the NULL directory pointer at line 132.  Where the
    directory is there and the page was never mapped, it decrements the
    count of the frame the unused entry happens to name: page 0 is on
    frame 0, and freeing page 1 takes the count of frame 0 to zero. *)
Theorem free_page_never_mapped :
  pte_of (current init_state) 0 init_state = None ∧
  free_page 0 init_state = Stop NullPointer ∧
  pte_of (current one_mapped) 1 one_mapped = Some empty_pte ∧
  mapcount 0 one_mapped = Some 1 ∧
  ∃ s, free_page 1 one_mapped = Ok s ∧
       mapcount 0 s = Some 0 ∧
       pte_of (current s) 0 s = Some (Pte true true 0 false).
Proof. do 4 (split; [reflexivity|]). eexists. split; [reflexivity|]. done. Qed.


(** C6: with frames 0, 1 and 2 in use and frame 3 free, [alloc_page]
    returns -1 instead of 3. *)
Theorem alloc_page_last_frame :
  run [Alloc 0 3; Alloc 1 3; Alloc 2 3] init_state = Ok three_mapped ∧
  mapcounts three_mapped = [1; 1; 1; 0] ∧
  alloc_page 3 3 three_mapped = Ok (UINT_MAX, three_mapped).
Proof. done. Qed.

Lemma scenario_states :
  run [Alloc 0 3; Switch 0 2] init_state = Ok shared ∧
  run [Free 0; Switch 1 0] shared = Ok sole.
Proof. done. Qed.

(** C4: with frames 0, 1 and 2 in use and frame 3 free, a write fault
    on page 1, private and read-only on frame 1 whose count is 2, takes
    one reference from frame 1, returns true, and installs no frame:
    [alloc_page] returns -1 by the test of line 82 although frame 3 is
    free, the handler does not look at what it returns, and the entry
    stays read-only and private on frame 1. *)
Theorem cow_write_fault_one_free_frame :
  run [Alloc 0 3; Alloc 1 3; Switch 0 2; Fault 0 RW_WRITE] init_state
  = Ok nearly_full ∧
  pte_of (current nearly_full) 1 nearly_full = Some (Pte true false 1 true) ∧
  mapcounts nearly_full = [1; 2; 1; 0] ∧
  alloc_page 1 (Z.lor RW_WRITE RW_READ) (with_mapcounts [1; 1; 1; 0] nearly_full)
  = Ok (UINT_MAX, with_mapcounts [1; 1; 1; 0] nearly_full) ∧
  handle_page_fault 1 RW_WRITE nearly_full
  = Ok (true, with_mapcounts [1; 1; 1; 0] nearly_full) ∧
  pte_of (current nearly_full) 1 (with_mapcounts [1; 1; 1; 0] nearly_full)
  = Some (Pte true false 1 true).
Proof. split; [by vm_compute|]. done. Qed.

Lemma cow_duplication_other_owner_witness :
  well_formed shared ∧
  pte_of (current shared) 0 shared = Some (Pte true false 0 true) ∧
  mapcount 0 shared = Some 2 ∧
  pte_of 0 0 shared = Some (Pte true false 0 true) ∧
  ∃ s', handle_page_fault 0 RW_WRITE shared = Ok (true, s') ∧
        pte_of 0 0 s' = Some (Pte true false 0 true).
Proof.
  assert (well_formed shared) as Hshared by (apply (bool_decide_unpack _); vm_compute; exact I).
  do 4 (split; [done|]).
  apply (@cow_duplication_other_owner vm vm_ok zeroed 0 0 shared
           (Pte true false 0 true) (Pte true false 0 true) 0%nat);
    done.
Defined.

(** C3: the process that is switched to stays linked in the ready
    queue.  Process 0 waits and process 2 runs; after the switch to 0 the
    queue is [processes -> 2 -> 0], and a walk still comes to process 0,
    which is running. *)
Theorem switch_process_found :
  run [Alloc 0 3; Switch 0 2] init_state = Ok shared ∧
  list_for_each_entry 1 0 (next (processes shared)) shared = Ok (Some 0%nat) ∧
  ∃ s, switch_process 1 0 shared = Ok s ∧
       current s = 0%nat ∧ ptbr s = Some 0%nat ∧
       processes s = ListHead (Member 1) (Member 0) ∧
       p_list <$> memory s
       = [ListHead Head (Member 1); ListHead (Member 0) Head] ∧
       list_for_each_entry 2 0 (next (processes s)) s = Ok (Some 0%nat).
Proof. do 2 (split; [done|]). eexists. split; [reflexivity|]. done. Qed.

Lemma fork_duplicates_witness :
  libc_sized zeroed ∧ well_formed three_mapped ∧
  list_for_each_entry 0 2 (next (processes three_mapped)) three_mapped = Ok None ∧
  ∃ s', switch_process 0 2 three_mapped = Ok s' ∧
    current s' = 1%nat ∧ current s' ≠ 0%nat ∧
    ptbr s' = Some (current s') ∧
    pids s' !! current s' = Some 2 ∧
    ∀ vpn e, pte_of 0 vpn three_mapped = Some e → valid e = true →
      pte_of 0 vpn s' = Some (share_pte e) ∧
      pte_of (current s') vpn s' = Some (share_pte e).
Proof.
  assert (well_formed three_mapped) as Hwf
    by (apply (bool_decide_unpack _); vm_compute; exact I).
  split; [done|]. split; [done|]. split; [done|].
  apply (@fork_duplicates vm zeroed 0%nat 2 three_mapped); done.
Defined.

Lemma frame_accounting_witness :
  libc_sized zeroed ∧ libc_cleared zeroed ∧
  reachable accounted_use duplicated ∧
  ∀ f, 0 ≤ f < 4 → mapcount f duplicated = Some (Z.of_nat (references f duplicated)).
Proof.
  assert (reachable accounted_use duplicated) as Hreach.
  { apply reachable_step with (Fault 0 2) shared; [|split; [done|split]|done].
    - apply reachable_step with (Switch 0 2) one_mapped; [|split; [done|split]|done].
      + apply reachable_step with (Alloc 0 3) init_state; [|split; [done|split]|done].
        * apply reachable_init.
        * by apply fits_four.
        * intros e He. by vm_compute in He.
      + by apply fits_four.
      + done.
    - by apply fits_four.
    - intros e cnt _ _ _ _ _ _ _. by vm_compute. }
  split; [apply zeroed_sized|]. split; [apply zeroed_cleared|]. split; [done|].
  apply (@frame_accounting vm vm_ok zeroed duplicated
           zeroed_sized zeroed_cleared Hreach).
Defined.

(** C1, as stated, fails for a page that is allocated twice: frame 0
    keeps the reference of the first call, and no entry names it. *)
Lemma frame_accounting_remap :
  ∃ s, run [Alloc 0 3; Alloc 0 3] init_state = Ok s ∧
       mapcount 0 s = Some 1 ∧ references 0 s = 0%nat.
Proof. eexists. split; [reflexivity|]. done. Qed.

(** C8: the entry a copy-on-write duplication installs is valid,
    writable and private.  After [alloc_page] for page 0, a fork and a
    write fault of the child on page 0, the child has the page on frame 1,
    writable, with the private flag that the fork had set: the branch of
    lines 193-195 does not clear it, as the branch of lines 197-198
    does. *)
Theorem private_writable_after_duplication :
  run [Alloc 0 3; Switch 0 2; Fault 0 RW_WRITE] init_state = Ok duplicated ∧
  pte_of (current duplicated) 0 duplicated = Some (Pte true true 1 true).
Proof. done. Qed.

(** * The further properties on the machine of the scenario *)

Lemma scenario_well_formed :
  well_formed init_state ∧ well_formed one_mapped ∧ well_formed read_only ∧
  well_formed three_mapped ∧ well_formed shared.
Proof. repeat split; apply (bool_decide_unpack _); vm_compute; exact I. Qed.

Lemma well_formed_one_mapped : well_formed one_mapped.
Proof. apply scenario_well_formed. Qed.

Lemma well_formed_shared : well_formed shared.
Proof. apply scenario_well_formed. Qed.

Lemma well_formed_three_mapped : well_formed three_mapped.
Proof. apply scenario_well_formed. Qed.

Lemma well_formed_scenario_init : well_formed init_state.
Proof. apply scenario_well_formed. Qed.

Lemma accounted_one_mapped : accounted one_mapped.
Proof.
  intros f Hf. change (0 ≤ f < 4) in Hf.
  assert (f = 0 ∨ f = 1 ∨ f = 2 ∨ f = 3) as Hcases by lia.
  destruct Hcases as [-> | [-> | [-> | ->]]]; done.
Qed.

Lemma ready_queue_shared : ready_queue shared [0%nat].
Proof. apply chain_member with Head; [done|constructor]. Qed.

Lemma ready_queue_empty (s : state) :
  next (processes s) = Head → ready_queue s [].
Proof. intros E. unfold ready_queue. rewrite E. constructor. Qed.

Lemma run_nearly_full :
  run [Alloc 0 3; Alloc 1 3; Switch 0 2; Fault 0 RW_WRITE] init_state
  = Ok nearly_full.
Proof. by vm_compute. Qed.

Lemma reachable_duplicated : reachable accounted_use duplicated.
Proof.
  apply reachable_step with (Fault 0 2) shared; [|split; [done|split]|done].
  - apply reachable_step with (Switch 0 2) one_mapped; [|split; [done|split]|done].
    + apply reachable_step with (Alloc 0 3) init_state; [|split; [done|split]|done].
      * apply reachable_init.
      * by apply fits_four.
      * intros e He. by vm_compute in He.
    + by apply fits_four.
    + done.
  - by apply fits_four.
  - intros e cnt _ _ _ _ _ _ _. by vm_compute.
Qed.

Lemma alloc_page_smallest_free_witness :
  ∃ s', alloc_page 1 3 one_mapped = Ok (1, s') ∧
    frame_of (current one_mapped) 1 s' = Some 1 ∧
    mapcount 1 s' = Some 1 ∧
    ∀ f, f ≠ 1 → mapcount f s' = mapcount f one_mapped.
Proof.
  apply (@alloc_page_smallest_free vm vm_ok zeroed 1 3 1 one_mapped).
  - apply zeroed_sized.
  - apply well_formed_one_mapped.
  - by vm_compute.
  - by vm_compute.
  - reflexivity.
  - intros j Hj. assert (j = 0) as -> by lia. exists 1. split; [reflexivity|lia].
Defined.

Lemma alloc_page_entry_witness :
  ∃ s', alloc_page 1 RW_WRITE one_mapped = Ok (1, s') ∧
    ∃ e, slot_before 1 one_mapped = Some e ∧
      pte_of (current one_mapped) 1 s' = Some (Pte true (writable e) 1 (private e)).
Proof.
  eexists. split; [reflexivity|].
  change (Pte true (writable ?e) 1 (private ?e))
    with (Pte true
            (if RW_WRITE =? RW_READ then false
             else if RW_WRITE =? Z.lor RW_WRITE RW_READ then true else writable e)
            1 (private e)).
  apply (@alloc_page_entry vm vm_ok zeroed 1 RW_WRITE 1 one_mapped).
  - apply zeroed_sized.
  - apply well_formed_one_mapped.
  - by vm_compute.
  - by vm_compute.
  - reflexivity.
Defined.

Lemma alloc_page_new_directory_witness :
  ∃ s', @alloc_page vm stale 0 3 init_state = Ok (0, s') ∧
    pte_of (current init_state) 1 s' = Some (Pte true true 3 false).
Proof.
  eexists. split; [reflexivity|].
  change (Some (Pte true true 3 false))
    with (ptes (@malloc_pte_directory stale) !! Z.to_nat (1 mod NR_PTES_PER_PAGE)).
  apply (@alloc_page_new_directory vm vm_ok stale 0 1 3 0 init_state).
  - done.
  - apply well_formed_scenario_init.
  - by vm_compute.
  - by vm_compute.
  - reflexivity.
  - reflexivity.
  - reflexivity.
  - lia.
Defined.

Lemma alloc_page_beyond_table_witness :
  ∃ r, alloc_page 256 3 init_state = Ok (r, init_state) ∧
    (Z.of_nat (frames_in_use (mapcounts init_state)) ≠ NR_PAGEFRAMES - 1 →
     r = search_pfn (marking (mapcounts init_state))).
Proof.
  apply (@alloc_page_beyond_table vm vm_ok zeroed 256 3 init_state).
  - apply well_formed_scenario_init.
  - by vm_compute.
Defined.

Lemma alloc_page_remap_witness :
  ∃ r s', alloc_page 0 3 one_mapped = Ok (r, s') ∧ r ≠ 0 ∧
    frame_of (current one_mapped) 0 s' = Some r ∧
    mapcount 0 s' = Some 1 ∧
    (references 0 s' + 1 = references 0 one_mapped)%nat.
Proof.
  apply (@alloc_page_remap vm vm_ok zeroed 0 3 one_mapped (Pte true true 0 false) 1).
  - apply well_formed_one_mapped.
  - reflexivity.
  - reflexivity.
  - reflexivity.
  - lia.
  - by vm_compute.
Defined.

Lemma alloc_page_exhausted_iff_witness :
  (UINT_MAX = UINT_MAX
   ↔ Z.of_nat (frames_in_use (mapcounts three_mapped)) = NR_PAGEFRAMES - 1) ∧
  (UINT_MAX = UINT_MAX → three_mapped = three_mapped).
Proof.
  apply (@alloc_page_exhausted_iff vm vm_ok zeroed 3 3 UINT_MAX three_mapped three_mapped).
  - apply zeroed_sized.
  - apply well_formed_three_mapped.
  - lia.
  - reflexivity.
Defined.

Lemma free_page_release_witness :
  ∃ s', free_page 0 shared = Ok s' ∧
    pte_of (current shared) 0 s' = Some malloc_pte ∧
    mapcount 0 s' = Some (Z.max 0 (2 - 1)) ∧
    ∀ f, f ≠ 0 → mapcount f s' = mapcount f shared.
Proof.
  apply (@free_page_release vm vm_ok zeroed 0 shared (Pte true false 0 true) 2).
  - apply well_formed_shared.
  - reflexivity.
  - reflexivity.
Defined.

Lemma free_page_missing_directory_witness :
  free_page 0 init_state = Stop NullPointer.
Proof.
  apply (@free_page_missing_directory vm vm_ok zeroed 0 init_state).
  - apply well_formed_scenario_init.
  - by vm_compute.
  - reflexivity.
Defined.

Lemma free_page_beyond_table_witness : free_page 256 shared = Ok shared.
Proof.
  apply (@free_page_beyond_table vm vm_ok zeroed 256 shared). by vm_compute.
Defined.

Lemma alloc_page_free_page_witness :
  ∃ s1, alloc_page 1 3 one_mapped = Ok (1, s1) ∧
    ∃ s2, free_page 1 s1 = Ok s2 ∧ mapcounts s2 = mapcounts one_mapped ∧
      ∀ p vpn', frame_of p vpn' s2 = frame_of p vpn' one_mapped.
Proof.
  eexists. split; [reflexivity|].
  apply (@alloc_page_free_page vm vm_ok zeroed 1 3 1 one_mapped).
  - apply zeroed_sized.
  - apply zeroed_cleared.
  - apply well_formed_one_mapped.
  - by vm_compute.
  - reflexivity.
  - by vm_compute.
  - reflexivity.
Defined.

Lemma handle_page_fault_unmapped_witness :
  ∃ r s', alloc_page 3 3 three_mapped = Ok (r, s') ∧
    handle_page_fault 3 3 three_mapped = Ok (true, s') ∧
    (Z.of_nat (frames_in_use (mapcounts three_mapped)) = NR_PAGEFRAMES - 1 →
     r = UINT_MAX ∧ s' = three_mapped).
Proof.
  apply (@handle_page_fault_unmapped vm vm_ok zeroed 3 3 three_mapped).
  - apply zeroed_sized.
  - apply well_formed_three_mapped.
  - by vm_compute.
  - reflexivity.
Defined.

Lemma handle_page_fault_refused_witness :
  handle_page_fault 0 RW_WRITE read_only = Ok (false, read_only).
Proof.
  apply (@handle_page_fault_refused vm vm_ok zeroed 0 RW_WRITE read_only
           (Pte true false 0 false)).
  - apply scenario_well_formed.
  - reflexivity.
  - reflexivity.
  - right. right. reflexivity.
Defined.

Lemma read_only_page_stays_read_only_witness :
  pte_of (current read_only) 0 read_only = Some (Pte true false 0 false) ∧
  handle_page_fault 0 RW_WRITE read_only = Ok (false, read_only).
Proof.
  apply (@read_only_page_stays_read_only vm vm_ok zeroed 0 0 init_state read_only
           empty_pte).
  - apply zeroed_sized.
  - apply zeroed_cleared.
  - apply well_formed_scenario_init.
  - by vm_compute.
  - by vm_compute.
  - reflexivity.
  - reflexivity.
  - reflexivity.
Defined.

Lemma handle_page_fault_null_ptbr_witness :
  handle_page_fault 0 3 (with_ptbr None init_state) = Stop NullPointer.
Proof.
  apply (@handle_page_fault_null_ptbr vm zeroed 0 3 (with_ptbr None init_state)).
  - reflexivity.
  - simpl. lia.
Defined.

Lemma handle_page_fault_beyond_table_witness :
  handle_page_fault 256 3 init_state = Stop OutOfBounds.
Proof.
  apply (@handle_page_fault_beyond_table vm vm_ok zeroed 256 3 init_state).
  - apply well_formed_scenario_init.
  - by vm_compute.
Defined.

Lemma handle_page_fault_safe_witness :
  ∃ b s', handle_page_fault 0 RW_WRITE shared = Ok (b, s') ∧ well_formed s'.
Proof.
  apply (@handle_page_fault_safe vm vm_ok zeroed 0 RW_WRITE shared).
  - apply zeroed_sized.
  - apply zeroed_cleared.
  - apply well_formed_shared.
  - by vm_compute.
Defined.

Lemma page_op_isolated_witness :
  processes duplicated = processes shared ∧
  current duplicated = current shared ∧ ptbr duplicated = ptbr shared ∧
  pids duplicated = pids shared ∧
  p_list <$> memory duplicated = p_list <$> memory shared ∧
  ∀ p, p ≠ current shared → tables duplicated !! p = tables shared !! p.
Proof.
  apply (@page_op_isolated vm vm_ok zeroed (Fault 0 RW_WRITE) shared duplicated).
  - apply zeroed_sized.
  - apply well_formed_shared.
  - simpl. lia.
  - exact I.
  - reflexivity.
Defined.

Lemma reachable_well_formed_witness :
  ptbr duplicated = Some (current duplicated) ∧
  length (mapcounts duplicated) = Z.to_nat NR_PAGEFRAMES ∧
  ∀ p vpn e, pte_of p vpn duplicated = Some e → valid e = true →
    0 ≤ pfn e < NR_PAGEFRAMES.
Proof.
  apply (@reachable_well_formed vm vm_ok zeroed duplicated).
  - apply zeroed_sized.
  - apply zeroed_cleared.
  - apply reachable_step with (Fault 0 2) shared; [|simpl; lia|reflexivity].
    apply reachable_step with (Switch 0 2) one_mapped; [|exact I|reflexivity].
    apply reachable_step with (Alloc 0 3) init_state; [|simpl; lia|reflexivity].
    apply reachable_init.
Defined.

Lemma switch_process_found_queue_witness :
  ∃ s', switch_process 1 0 shared = Ok s' ∧
    current s' = 0%nat ∧ ptbr s' = Some 0%nat ∧ 0%nat ∈ [0%nat] ∧
    ready_queue s' [1%nat; 0%nat] ∧
    tables s' = tables shared ∧ mapcounts s' = mapcounts shared ∧
    pids s' = pids shared.
Proof.
  apply (@switch_process_found_queue vm zeroed 1 0 shared [0%nat] 0%nat).
  - apply well_formed_shared.
  - apply ready_queue_shared.
  - apply (bool_decide_unpack _). vm_compute. exact I.
  - simpl. lia.
  - reflexivity.
Defined.

Lemma switch_process_fork_queue_witness :
  ∃ s', switch_process 1 5 shared = Ok s' ∧
    current s' = 2%nat ∧ ptbr s' = Some (current s') ∧
    pid_of (current s') s' = Some 5 ∧
    ready_queue s' [1%nat; 0%nat] ∧ current s' ∉ [1%nat; 0%nat].
Proof.
  apply (@switch_process_fork_queue vm zeroed 1 5 shared [0%nat]).
  - apply zeroed_sized.
  - apply well_formed_shared.
  - apply ready_queue_shared.
  - apply (bool_decide_unpack _). vm_compute. exact I.
  - simpl. lia.
  - reflexivity.
Defined.

Lemma switch_process_to_running_witness :
  ∃ s', switch_process 0 0 init_state = Ok s' ∧ current s' ≠ 0%nat ∧
    pid_of 0 s' = Some 0 ∧ pid_of (current s') s' = Some 0.
Proof.
  apply (@switch_process_to_running vm zeroed 0 0 init_state []).
  - apply zeroed_sized.
  - apply well_formed_scenario_init.
  - by apply ready_queue_empty.
  - apply (bool_decide_unpack _). vm_compute. exact I.
  - simpl. lia.
  - reflexivity.
  - reflexivity.
Defined.

Lemma switch_process_never_returns_witness :
  ∃ s1 s2, switch_process 1 0 shared = Ok s1 ∧ switch_process 1 2 s1 = Ok s2 ∧
    ∀ (fuel : nat) (c : Z), c ∉ pids shared →
      switch_process fuel c s2 = Stop OutOfFuel.
Proof.
  eexists _, _. split; [reflexivity|]. split; [reflexivity|].
  eapply (@switch_process_never_returns vm zeroed 1 1 0 2 shared _ _ [0%nat] 0%nat).
  - apply zeroed_sized.
  - apply well_formed_shared.
  - apply ready_queue_shared.
  - apply (bool_decide_unpack _). vm_compute. exact I.
  - reflexivity.
  - reflexivity.
  - reflexivity.
Defined.

Lemma fork_counts_witness :
  ∃ s', switch_process 0 2 one_mapped = Ok s' ∧
    mapcount 0 s'
    = Some (uint (1 + Z.of_nat
                         (pagetable_refs 0 (table (directory [Pte true true 0 false]))))) ∧
    (accounted one_mapped → 1 = 0 → mapcount 0 s' = Some 0).
Proof.
  apply (@fork_counts vm zeroed 0 2 one_mapped).
  - apply zeroed_sized.
  - apply well_formed_one_mapped.
  - reflexivity.
  - reflexivity.
  - reflexivity.
Defined.

Lemma fork_child_unset_slots_witness :
  ∃ s' pt', @switch_process vm stale 0 2 init_state = Ok s' ∧
    tables s' !! current s' = Some pt' ∧
    outer_ptes pt' !! 0%nat
    = outer_ptes (@malloc_pagetable stale) !! 0%nat.
Proof.
  apply (@fork_child_unset_slots vm stale 0 2 init_state
           (Pagetable (replicate 16 None)) 0%nat).
  - done.
  - apply well_formed_scenario_init.
  - reflexivity.
  - reflexivity.
  - reflexivity.
Defined.

Lemma switch_process_fork_and_back_witness :
  ∃ s1 s2, switch_process 0 2 one_mapped = Ok s1 ∧ switch_process 1 0 s1 = Ok s2 ∧
    current s2 = current one_mapped ∧ ptbr s2 = Some (current one_mapped) ∧
    mapcounts s2 = mapcounts s1 ∧
    ∀ vpn e, pte_of (current one_mapped) vpn one_mapped = Some e →
      pte_of (current one_mapped) vpn s2 = Some (share_pte e).
Proof.
  apply (@switch_process_fork_and_back vm zeroed 0 1 2 0 one_mapped []).
  - apply zeroed_sized.
  - apply well_formed_one_mapped.
  - by apply ready_queue_empty.
  - apply (bool_decide_unpack _). vm_compute. exact I.
  - simpl. lia.
  - lia.
  - reflexivity.
  - reflexivity.
Defined.

Lemma copy_on_write_witness :
  ∃ s' f',
    run [Switch 0 2; Fault 0 RW_WRITE; Switch 1 0; Fault 0 RW_WRITE] one_mapped
    = Ok s' ∧
    current s' = current one_mapped ∧ f' ≠ 0 ∧
    pte_of (current one_mapped) 0 s' = Some (Pte true true 0 false) ∧
    pte_of (length (memory one_mapped)) 0 s' = Some (Pte true true f' true) ∧
    mapcount 0 s' = Some 1 ∧ mapcount f' s' = Some 1.
Proof.
  apply (@copy_on_write vm vm_ok zeroed 0 1 2 0 0 one_mapped []
           (Pte true true 0 false)).
  - apply zeroed_sized.
  - apply zeroed_cleared.
  - apply well_formed_one_mapped.
  - apply accounted_one_mapped.
  - by apply ready_queue_empty.
  - apply (bool_decide_unpack _). vm_compute. exact I.
  - simpl. lia.
  - lia.
  - reflexivity.
  - reflexivity.
  - reflexivity.
  - reflexivity.
  - reflexivity.
  - reflexivity.
  - by vm_compute.
Defined.

Lemma write_faults_with_one_free_frame_witness :
  ∃ s1 s2, handle_page_fault 1 RW_WRITE nearly_full = Ok (true, s1) ∧
    pte_of (current nearly_full) 1 s1 = Some (Pte true false 1 true) ∧
    mapcount 1 s1 = Some 1 ∧
    handle_page_fault 1 RW_WRITE s1 = Ok (true, s2) ∧
    pte_of (current nearly_full) 1 s2 = Some (Pte true true 1 false) ∧
    ∀ p vpn', p ≠ current nearly_full →
      pte_of p vpn' s2 = pte_of p vpn' nearly_full.
Proof.
  apply (@write_faults_with_one_free_frame vm vm_ok zeroed 1 nearly_full
           (Pte true false 1 true)).
  - apply (bool_decide_unpack _). vm_compute. exact I.
  - reflexivity.
  - reflexivity.
  - reflexivity.
  - reflexivity.
  - reflexivity.
  - by vm_compute.
Defined.

Lemma alloc_page_all_frames_in_use_witness :
  ∃ s', alloc_page 4 3 full = Ok (0, s') ∧
    frame_of (current full) 4 s' = Some 0 ∧ mapcount 0 s' = Some (uint (2 + 1)).
Proof.
  apply (@alloc_page_all_frames_in_use vm vm_ok zeroed 4 3 full 2).
  - apply zeroed_sized.
  - apply (bool_decide_unpack _). vm_compute. exact I.
  - by vm_compute.
  - by repeat constructor.
  - reflexivity.
Defined.

Lemma last_frame_never_used_witness :
  Z.of_nat (frames_in_use (mapcounts duplicated)) ≤ NR_PAGEFRAMES - 1.
Proof.
  apply (@last_frame_never_used vm vm_ok zeroed duplicated).
  - apply zeroed_sized.
  - apply zeroed_cleared.
  - apply reachable_duplicated.
Defined.

Lemma cow_write_fault_witness :
  (well_formed sole ∧
   pte_of (current sole) 0 sole = Some (Pte true false 0 true) ∧
   mapcount 0 sole = Some 1 ∧
   ∃ s', handle_page_fault 0 RW_WRITE sole = Ok (true, s') ∧
     pte_of (current sole) 0 s' = Some (Pte true true 0 false) ∧
     mapcounts s' = mapcounts sole) ∧
  (well_formed shared ∧
   pte_of (current shared) 0 shared = Some (Pte true false 0 true) ∧
   mapcount 0 shared = Some 2 ∧
   ∃ s', handle_page_fault 0 RW_WRITE shared = Ok (true, s') ∧
     ∃ f', f' ≠ 0 ∧
       pte_of (current shared) 0 s' = Some (Pte true true f' true) ∧
       mapcount f' s' = Some 1 ∧
       mapcount 0 s' = Some 1).
Proof.
  assert (well_formed sole) as Hsole by (apply (bool_decide_unpack _); vm_compute; exact I).
  assert (well_formed shared) as Hshared by (apply (bool_decide_unpack _); vm_compute; exact I).
  split.
  - do 3 (split; [done|]).
    apply (@cow_write_fault vm vm_ok zeroed 0 sole (Pte true false 0 true) 1);
      (done || (simpl; lia)).
  - do 3 (split; [done|]).
    apply (@cow_write_fault vm vm_ok zeroed 0 shared (Pte true false 0 true) 2);
      (done || vm_compute; intros; congruence).
Defined.
